(** * stac-crawler: the harvest engine of [stac-crawler.py]

    A shallow embedding of the strategy classifier ([run_reconnaissance],
    [generate_crawl_plan]), of the two traversal engines
    ([harvest_static_catalog], [_dynamic_worker], [harvest_dynamic_catalog])
    and of the dispatch step of [build_knowledge_base], followed by the
    properties of the specification that concern them.

    Conventions of the embedding.
    - A parsed body is a [json] value.  Numbers are integers; an object is an
      association list that holds each key once (what [json.loads] leaves).
    - A Python [str] is a [string] of bytes; the suffix and membership tests
      of the code have ASCII arguments only.
    - Python exceptions are values of [exn]; a computation that may raise
      returns a [result].
    - The remote side is a function [fetch] from URL to [response]: the link
      graph as one invocation sees it.  [urljoin] of [urllib.parse] is a
      parameter on strings, with [None] where it raises [ValueError] (on a
      reference it cannot split, such as [//[]); the iteration order
      [set_order] of a Python [set] of strings is a parameter as well.
    - The fields [levels], [fetched], [requests] and [invoked] are ghost
      logs: they record the requests and the worker calls the code makes and
      are never read by it.
    - A loop that need not end runs on fuel; [OutOfFuel] tells a run that the
      model cut short from one the code ended. *)

From Stdlib Require Import List String Ascii ZArith Lia Bool Permutation.
From Stdlib Require Import DecimalString.
Import ListNotations.

Local Open Scope string_scope.
Local Open Scope Z_scope.
Local Open Scope list_scope.

(** ** Python values and exceptions *)

#[local] Set Warnings "-register-all".

Inductive json : Type :=
| JNull
| JBool (b : bool)
| JNum (n : Z)
| JStr (s : string)
| JArr (items : list json)
| JObj (fields : list (string * json)).

Inductive exn : Type :=
| AttributeError
| TypeError
| JSONDecodeError
| UnicodeDecodeError
| ValueError
| KeyError
| HTTPStatusError
| TransportError (name : string).

Inductive result (A : Type) : Type :=
| Ok (a : A)
| Raise (e : exn).

Arguments Ok {A} a.
Arguments Raise {A} e.

Definition bind {A B : Type} (m : result A) (k : A -> result B) : result B :=
  match m with
  | Ok a => k a
  | Raise e => Raise e
  end.

Notation "x <- m ;; k" := (bind m (fun x => k))
  (at level 61, m at next level, right associativity).

(** [for x in xs: body], the accumulator threaded through, stopping at the
    first exception. *)
Fixpoint foreach {X S : Type} (body : X -> S -> result S) (xs : list X) (s : S)
  : result S :=
  match xs with
  | [] => Ok s
  | x :: rest => s' <- body x s ;; foreach body rest s'
  end.

(** ** Strings *)

Definition str_len (s : string) : nat := String.length s.

(** [s.endswith(suffix)] *)
Definition endswith (s suffix : string) : bool :=
  let n := str_len s in
  let m := str_len suffix in
  (m <=? n)%nat && String.eqb (substring (n - m) m s) suffix.

(** [s.endswith((a, b))] *)
Definition endswith_any (s : string) (suffixes : list string) : bool :=
  existsb (endswith s) suffixes.

Definition lower_ascii (c : ascii) : ascii :=
  let n := nat_of_ascii c in
  if ((65 <=? n)%nat && (n <=? 90)%nat)%bool then ascii_of_nat (n + 32) else c.

(** [s.lower()]; only [A]..[Z] are folded, which decides membership in
    [("catalog", "collection")] exactly as the Unicode folding does. *)
Fixpoint lower (s : string) : string :=
  match s with
  | EmptyString => EmptyString
  | String c rest => String (lower_ascii c) (lower rest)
  end.

(** [sub in s] on strings *)
Fixpoint contains (sub s : string) : bool :=
  String.prefix sub s ||
  match s with
  | EmptyString => false
  | String _ rest => contains sub rest
  end.

Definition nonempty (s : string) : bool :=
  match s with EmptyString => false | _ => true end.

Definition mem (s : string) (l : list string) : bool :=
  existsb (String.eqb s) l.

(** [f"{n}"] for an int *)
Definition str_of_int (n : Z) : string := NilZero.string_of_int (Z.to_int n).

Definition chars (s : string) : list json :=
  map (fun c => JStr (String c EmptyString)) (list_ascii_of_string s).

(** ** Operations on parsed values *)

(** [bool(v)] *)
Definition truthy (v : json) : bool :=
  match v with
  | JNull => false
  | JBool b => b
  | JNum n => negb (n =? 0)
  | JStr s => nonempty s
  | JArr l => match l with [] => false | _ => true end
  | JObj kv => match kv with [] => false | _ => true end
  end.

(** [v == s] for a string literal [s] *)
Definition is_str (v : json) (s : string) : bool :=
  match v with
  | JStr s' => String.eqb s' s
  | _ => false
  end.

(** [v in (s1, s2, ...)] *)
Definition str_in (v : json) (l : list string) : bool :=
  existsb (is_str v) l.

Fixpoint dict_get {V : Type} (kv : list (string * V)) (k : string) : option V :=
  match kv with
  | [] => None
  | (k', v) :: rest => if String.eqb k' k then Some v else dict_get rest k
  end.

(** [d[k] = v] on a dict with string keys *)
Fixpoint dict_set {V : Type} (k : string) (v : V) (kv : list (string * V))
  : list (string * V) :=
  match kv with
  | [] => [(k, v)]
  | (k', v') :: rest =>
      if String.eqb k' k then (k', v) :: rest else (k', v') :: dict_set k v rest
  end.

Definition has_key {V : Type} (kv : list (string * V)) (k : string) : bool :=
  match dict_get kv k with Some _ => true | None => false end.

(** [d.get(k, default)]: only a dict has the method *)
Definition py_get (d : json) (k : string) (default : json) : result json :=
  match d with
  | JObj kv => Ok (match dict_get kv k with Some v => v | None => default end)
  | _ => Raise AttributeError
  end.

(** [for x in v]: the elements a [for] loop visits *)
Definition py_iter (v : json) : result (list json) :=
  match v with
  | JArr l => Ok l
  | JStr s => Ok (chars s)
  | JObj kv => Ok (map (fun p => JStr (fst p)) kv)
  | _ => Raise TypeError
  end.

(** [urljoin(base, v)] for a parsed value [v].  A string goes to [urljoin],
    which returns the joined URL or raises [ValueError]; a falsy value gives
    [base] back ([if not url: return base]); any other value is refused by
    [_coerce_args].  [base] is the URL of a request that was answered, hence
    not empty. *)
Definition py_urljoin (urljoin : string -> string -> option string)
  (base : string) (v : json) : result string :=
  match v with
  | JStr s =>
      match urljoin base s with
      | Some joined => Ok joined
      | None => Raise ValueError
      end
  | _ => if truthy v then Raise TypeError else Ok base
  end.

(** [s.add(x)] on a set kept as a duplicate-free list *)
Definition set_add (x : string) (s : list string) : list string :=
  if mem x s then s else s ++ [x].

Definition len {A : Type} (l : list A) : Z := Z.of_nat (List.length l).

(** ** The remote side *)

(** The body of a response: bytes that are not UTF-8 text, text that is not
    JSON, or JSON text with the value it parses to. *)
Inductive body : Type :=
| NotUtf8
| NotJson
| Json (data : json).

(** What [client.get(u)] gives: an exception (timeout, connection failure),
    or a response with its [url], [status_code] and body. *)
Inductive response : Type :=
| Failed (name : string)
| Resp (url : string) (status_code : Z) (b : body).

(** [res.raise_for_status()] *)
Definition raise_for_status (status_code : Z) : result unit :=
  if (200 <=? status_code) && (status_code <=? 299) then Ok tt
  else Raise HTTPStatusError.

(** [res.json()]: the bytes are decoded, then parsed; each step has its own
    exception, and [UnicodeDecodeError] is no [JSONDecodeError]. *)
Definition res_json (b : body) : result json :=
  match b with
  | NotUtf8 => Raise UnicodeDecodeError
  | NotJson => Raise JSONDecodeError
  | Json data => Ok data
  end.

(** ** Configuration *)

(** The keys of [MANUAL_OVERRIDES]; every value is [{"strategy": "Skip"}]. *)
Definition MANUAL_OVERRIDES : list string :=
  [ "astraea-earth-ondemand"; "bdc-cbers"; "bdc-sentinel-2";
    "catalonia-monthly-sentinel2"; "cbers"; "disasters-charter-mapper-catalog";
    "kagis-katalog"; "kyfromabove"; "gistda-drought-index-in-thailand";
    "gistda-flood-disaster-in-thailand"; "geoplatform-stac-catalog";
    "openaerialmap-example"; "satellite-vu-public-static-stac";
    "skyserve-mission-data"; "swiss-data-cube-p" ].

Definition DEFAULT_DYNAMIC_PARAMS : list (string * Z) := [("max_depth", 10)].

Definition DEFAULT_STATIC_PARAMS : list (string * Z) :=
  [("STATIC_HARVEST_MAX_DEPTH", 3); ("COLLECTION_HARD_LIMIT", 300)].

(** ** Stage 1 and 2: profiles and the crawl plan *)

Record catalog : Type := mk_catalog {
  cat_slug : string;
  cat_title : string;
  cat_url : string
}.

Record profile : Type := mk_profile {
  slug : string;
  title : string;
  url : string;
  status : string
}.

(** A plan entry [{"strategy": s, **params}]. *)
Record plan_entry : Type := mk_entry {
  strategy : string;
  params : list (string * Z)
}.

(** [params.get(k, default)] *)
Definition params_get (e : plan_entry) (k : string) (default : Z) : Z :=
  match dict_get (params e) k with Some v => v | None => default end.

Module Recon.
Section Recon.

Variable fetch : string -> response.

(** [client.get(url).raise_for_status()]: the name of the exception, if any *)
Definition probe (u : string) : option string :=
  match fetch u with
  | Failed name => Some name
  | Resp _ code _ =>
      match raise_for_status code with
      | Ok _ => None
      | Raise _ => Some "HTTPStatusError"
      end
  end.

(** One turn of the profiling loop of [run_reconnaissance]. *)
Definition profile_catalog (cat : catalog) : profile :=
  let st :=
    if mem (cat_slug cat) MANUAL_OVERRIDES then "Skipped (Manual Override)"
    else match probe (cat_url cat) with
         | None => "OK"
         | Some name => ("Failed: " ++ name)%string
         end in
  mk_profile (cat_slug cat) (cat_title cat) (cat_url cat) st.

Definition run_reconnaissance (public_catalogs : list catalog) : list profile :=
  map profile_catalog public_catalogs.

End Recon.
End Recon.

(** The body of the loop of [generate_crawl_plan]: the entry for one profile. *)
Definition plan_for (p : profile) : plan_entry :=
  if negb (String.eqb (status p) "OK") then mk_entry "Skip" []
  else if endswith_any (url p) [".json"; "f=json"]
       then mk_entry "Static Harvest" DEFAULT_STATIC_PARAMS
       else mk_entry "Dynamic Harvest" DEFAULT_DYNAMIC_PARAMS.

Definition generate_crawl_plan (profiles : list profile)
  : list (string * plan_entry) :=
  fold_left (fun plan p => dict_set (slug p) (plan_for p) plan) profiles [].

(** How a run of a loop ends.  [OutOfFuel] is the model's own: the loop was
    cut before the code would have left it. *)
Inductive run (A : Type) : Type :=
| Returned (a : A)
| Raised (e : exn)
| OutOfFuel.

Arguments Returned {A} a.
Arguments Raised {A} e.
Arguments OutOfFuel {A}.

(** ** The Link-Graph engine: [harvest_static_catalog] *)

Module Static.

Record state : Type := mk_state {
  collections : list json;
  to_fetch : list string;
  visited : list string;
  depth : Z;
  levels : list (Z * list string)
    (* ghost: the URLs requested at each depth, in request order *)
}.

Section Engine.

Variable fetch : string -> response.
Variable urljoin : string -> string -> option string.
Variable set_order : list string -> list string.

Definition is_catalog (data : json) : result bool :=
  t <- py_get data "type" JNull ;;
  sv <- py_get data "stac_version" JNull ;;
  Ok (match t with
      | JStr s => mem (lower s) ["catalog"; "collection"]
      | _ => false
      end || truthy sv).

(** One turn of [for link in data.get("links", [])]. *)
Definition add_link (base : string) (visited : list string) (link : json)
  (next_level : list string) : result (list string) :=
  rel <- py_get link "rel" JNull ;;
  if str_in rel ["child"; "collection"] then
    h <- py_get link "href" (JStr "") ;;
    href <- py_urljoin urljoin base h ;;
    if nonempty href && negb (mem href visited)
    then Ok (set_add href next_level)
    else Ok next_level
  else Ok next_level.

(** The [try] block for one response. *)
Definition process_body (base : string) (visited : list string) (b : body)
  (acc : list json * list string) : result (list json * list string) :=
  data <- res_json b ;;
  c <- is_catalog data ;;
  let collections' := if c then fst acc ++ [data] else fst acc in
  l <- py_get data "links" (JArr []) ;;
  links <- py_iter l ;;
  next_level <- foreach (add_link base visited) links (snd acc) ;;
  Ok (collections', next_level).

(** One turn of [for res in results]. *)
Definition process_result (visited : list string) (res : response)
  (acc : list json * list string) : result (list json * list string) :=
  match res with
  | Failed _ => Ok acc                      (* isinstance(res, Exception) *)
  | Resp u _ b =>
      match process_body u visited b acc with
      | Raise JSONDecodeError => Ok acc     (* except json.JSONDecodeError *)
      | r => r
      end
  end.

(** One turn of the [while] loop.  The requests of the level are all made
    (and logged) before any response is looked at. *)
Definition level (st : state) : state * option exn :=
  let urls := set_order (to_fetch st) in
  let results := map fetch urls in
  let visited' := visited st ++ to_fetch st in
  let logged := levels st ++ [(depth st, urls)] in
  match foreach (process_result visited') results (collections st, []) with
  | Ok (cs, next_level) =>
      (mk_state cs next_level visited' (depth st + 1) logged, None)
  | Raise e =>
      (mk_state (collections st) (to_fetch st) visited' (depth st) logged,
       Some e)
  end.

Definition loop_test (max_depth hard_limit : Z) (st : state) : bool :=
  match to_fetch st with [] => false | _ => true end
  && (len (collections st) <? hard_limit)
  && (depth st <? max_depth).

Fixpoint loop (fuel : nat) (max_depth hard_limit : Z) (st : state)
  : state * run unit :=
  match fuel with
  | O => (st, OutOfFuel)
  | S fuel' =>
      if loop_test max_depth hard_limit st then
        match level st with
        | (st', None) => loop fuel' max_depth hard_limit st'
        | (st', Some e) => (st', Raised e)
        end
      else (st, Returned tt)
  end.

Definition notes (max_depth hard_limit : Z) (st : state) : list string :=
  (if hard_limit <=? len (collections st)
   then [("Reached collection limit of " ++ str_of_int hard_limit ++ ".")%string]
   else [])
  ++
  (if max_depth <=? depth st
   then [("Reached depth limit of " ++ str_of_int max_depth ++ ".")%string]
   else []).

Definition initial (start_url : string) : state :=
  mk_state [] [start_url] [] 0 [].

(** The result is the [Optional[tuple]] of the signature; the final state
    is returned with it for its ghost log. *)
Definition harvest_static_catalog (start_url : string) (params : plan_entry)
  : state * run (option (list json * list string)) :=
  let max_depth := params_get params "STATIC_HARVEST_MAX_DEPTH" 3 in
  let hard_limit := params_get params "COLLECTION_HARD_LIMIT" 300 in
  match loop (S (Z.to_nat max_depth)) max_depth hard_limit (initial start_url) with
  | (st, Returned _) =>
      (st, Returned (Some (collections st, notes max_depth hard_limit st)))
  | (st, Raised e) => (st, Raised e)
  | (st, OutOfFuel) => (st, OutOfFuel)
  end.

(** The requests of a run, in order. *)
Definition requests (st : state) : list string :=
  List.concat (map snd (levels st)).

End Engine.

(** *** Vocabulary of the properties *)

Definition level_numbers (n : nat) : list Z := map Z.of_nat (seq 0 n).

Definition numbered (max_depth : Z) (st : state) : Prop :=
  map fst (levels st) = level_numbers (List.length (levels st))
  /\ len (levels st) <= Z.max 0 max_depth.

Definition max_fanout (levels : list (Z * list string)) : Z :=
  fold_right Z.max 0 (map (fun lv => len (snd lv)) levels).

(** A frontier that is duplicate-free and holds nothing visited. *)
Definition fresh (visited frontier : list string) : Prop :=
  NoDup frontier /\ forall u, In u frontier -> ~ In u visited.

(** What the loop keeps true from turn to turn. *)
Definition once (st : state) : Prop :=
  NoDup (requests st)
  /\ incl (requests st) (visited st).

(** A response that gives no document and that the engine passes over: an
    exception in place of the response, or a body of text that is not JSON
    (the one exception of [res.json()] that the engine catches). *)
Definition unusable (res : response) : bool :=
  match res with
  | Failed _ => true
  | Resp _ _ NotJson => true
  | Resp _ _ NotUtf8 => false
  | Resp _ _ (Json _) => false
  end.

(** A record that the engine's test takes for a catalog and that is the
    JSON body of the response to one of [urls]. *)
Definition sourced (fetch : string -> response) (urls : list string) (d : json)
  : Prop :=
  is_catalog d = Ok true
  /\ exists u ru code, In u urls /\ fetch u = Resp ru code (Json d).

End Static.

(** ** Statements that mutate local state and may raise

    What a statement has done to the state before it raises stays done: the
    state comes back with the exception. *)

Definition M (S A : Type) : Type := S -> S * result A.

Definition mret {S A : Type} (a : A) : M S A := fun s => (s, Ok a).

Definition mbind {S A B : Type} (m : M S A) (k : A -> M S B) : M S B :=
  fun s =>
    match m s with
    | (s', Ok a) => k a s'
    | (s', Raise e) => (s', Raise e)
    end.

Definition lift {S A : Type} (r : result A) : M S A := fun s => (s, r).

Definition modify {S : Type} (f : S -> S) : M S unit := fun s => (f s, Ok tt).

Definition gets {S A : Type} (f : S -> A) : M S A := fun s => (s, Ok (f s)).

Notation "x <~ m ;; k" := (mbind m (fun x => k))
  (at level 61, m at next level, right associativity).
Notation "m ;;; k" := (mbind m (fun _ => k))
  (at level 61, right associativity).

Fixpoint mforeach {X S : Type} (xs : list X) (body : X -> M S unit) : M S unit :=
  match xs with
  | [] => mret tt
  | x :: rest => body x ;;; mforeach rest body
  end.

Definition when {S : Type} (c : bool) (m : M S unit) : M S unit :=
  if c then m else mret tt.

(** [m] keeps [P]: the state [m] leaves satisfies [P] whether or not [m]
    raised. *)
Definition keeps {S A : Type} (P : S -> Prop) (m : M S A) : Prop :=
  forall s, P s -> P (fst (m s)).

(** ** Python dicts with parsed values as keys *)

(** Lists and dicts are not hashable. *)
Definition hashable (k : json) : bool :=
  match k with
  | JArr _ | JObj _ => false
  | _ => true
  end.

(** Equality of hashable keys; [True == 1] and [False == 0]. *)
Definition key_eqb (a b : json) : bool :=
  match a, b with
  | JNull, JNull => true
  | JStr s, JStr t => String.eqb s t
  | JNum n, JNum m => n =? m
  | JBool x, JBool y => Bool.eqb x y
  | JBool x, JNum n => n =? (if x then 1 else 0)
  | JNum n, JBool x => n =? (if x then 1 else 0)
  | _, _ => false
  end.

Fixpoint lookup (k : json) (d : list (json * json)) : option json :=
  match d with
  | [] => None
  | (k', v) :: rest => if key_eqb k' k then Some v else lookup k rest
  end.

(** [d[k] = v]: an existing key keeps its place, a new one goes last. *)
Fixpoint upsert (k v : json) (d : list (json * json)) : list (json * json) :=
  match d with
  | [] => [(k, v)]
  | (k', v') :: rest =>
      if key_eqb k' k then (k', v) :: rest else (k', v') :: upsert k v rest
  end.

(** [list(d.values())] *)
Definition values (d : list (json * json)) : list json := map snd d.

(** The keys of a dict are pairwise different. *)
Fixpoint distinct_keys (d : list (json * json)) : Prop :=
  match d with
  | [] => True
  | (k, _) :: rest =>
      (forall k' v', In (k', v') rest -> key_eqb k k' = false) /\ distinct_keys rest
  end.

(** The id of an item of a [collections] sequence, when it is a dict that
    has one. *)
Definition item_id (item : json) : option json :=
  match item with
  | JObj kv => dict_get kv "id"
  | _ => None
  end.

Definition ids_hashable (items : list json) : bool :=
  forallb (fun item => match item_id item with
                       | Some k => hashable k
                       | None => true
                       end) items.

(** The assignments [unique[item["id"]] = item] a sequence asks for. *)
Definition writes (items : list json) : list (json * json) :=
  flat_map (fun item => match item_id item with
                        | Some k => [(k, item)]
                        | None => []
                        end) items.

Definition apply_writes (ws : list (json * json)) (d : list (json * json))
  : list (json * json) :=
  fold_left (fun d w => upsert (fst w) (snd w) d) ws d.

(** The value the last assignment to a key equal to [k] stores. *)
Fixpoint last_write (k : json) (ws : list (json * json)) : option json :=
  match ws with
  | [] => None
  | (k', v) :: rest =>
      match last_write k rest with
      | Some v' => Some v'
      | None => if key_eqb k' k then Some v else None
      end
  end.

(** Every value of the dict sits under a key equal to its own id. *)
Definition keyed (d : list (json * json)) : Prop :=
  Forall (fun kv => exists k, item_id (snd kv) = Some k
                              /\ key_eqb (fst kv) k = true) d.

(** Two records with ids, and the ids different. *)
Definition ids_differ (a b : json) : Prop :=
  exists ka kb, item_id a = Some ka /\ item_id b = Some kb
                /\ key_eqb ka kb = false.

(** A property of [unique] that every assignment of a record under its own
    id keeps. *)
Definition kept_by_writes (P : list (json * json) -> Prop) : Prop :=
  forall k v d, hashable k = true -> item_id v = Some k -> P d -> P (upsert k v d).

(** [k in v] for a string literal [k] *)
Definition py_contains (v : json) (k : string) : result bool :=
  match v with
  | JObj kv => Ok (has_key kv k)
  | JArr l => Ok (existsb (fun x => is_str x k) l)
  | JStr s => Ok (contains k s)
  | _ => Raise TypeError
  end.

(** [v[k]] for a string literal [k] *)
Definition py_getitem (v : json) (k : string) : result json :=
  match v with
  | JObj kv => match dict_get kv k with
               | Some x => Ok x
               | None => Raise KeyError
               end
  | _ => Raise TypeError
  end.

(** ** Links of a document *)

(** A link as the data model has it: an object whose [href], when there is
    one, is a string. *)
Definition link_ok (l : json) : bool :=
  match l with
  | JObj kv =>
      match dict_get kv "href" with
      | Some (JStr _) | None => true
      | Some _ => false
      end
  | _ => false
  end.

Definition rel_of (l : json) : json :=
  match l with
  | JObj kv => match dict_get kv "rel" with Some v => v | None => JNull end
  | _ => JNull
  end.

Definition href_of (l : json) : string :=
  match l with
  | JObj kv => match dict_get kv "href" with Some (JStr s) => s | _ => "" end
  | _ => ""
  end.

(** The links of a document: the array under [links], none when the key is
    missing. *)
Definition doc_links (fields : list (string * json)) : option (list json) :=
  match dict_get fields "links" with
  | None => Some []
  | Some (JArr l) => Some l
  | Some _ => None
  end.

Definition is_child (l : json) : bool := is_str (rel_of l) "child".

Definition is_master (l : json) : bool :=
  endswith_any (href_of l) ["/collections"; "/collections/"].

(** At least one [child] link and no [/collections] link. *)
Definition federated (links : list json) : bool :=
  existsb is_child links && negb (existsb is_master links).

(** ** The Paginated/Federated engine *)

Module Dynamic.

Record wstate : Type := mk_wstate {
  unique : list (json * json);
  dynamic_limit : Z;
  queue : list string;
  visited : list string;
  fetched : list string       (* ghost: the URLs requested, in order *)
}.

Definition set_unique (f : list (json * json) -> list (json * json))
  (st : wstate) : wstate :=
  mk_wstate (f (unique st)) (dynamic_limit st) (queue st) (visited st) (fetched st).

Definition set_limit (n : Z) (st : wstate) : wstate :=
  mk_wstate (unique st) n (queue st) (visited st) (fetched st).

(** [visited.add(href); queue.append(href)] *)
Definition enqueue (href : string) (st : wstate) : wstate :=
  mk_wstate (unique st) (dynamic_limit st) (queue st ++ [href])
            (visited st ++ [href]) (fetched st).

(** [url = queue.pop(0)], with the request that follows logged *)
Definition dequeue (url : string) (rest : list string) (st : wstate) : wstate :=
  mk_wstate (unique st) (dynamic_limit st) rest (visited st) (fetched st ++ [url]).

Section Engine.

Variable fetch : string -> response.
Variable urljoin : string -> string -> option string.

(** [client.get(url)] *)
Definition client_get (url : string) : result (Z * body) :=
  match fetch url with
  | Failed name => Raise (TransportError name)
  | Resp _ code b => Ok (code, b)
  end.

(** [unique[k] = v] *)
Definition store (k v : json) : M wstate unit :=
  if hashable k then modify (set_unique (upsert k v))
  else lift (Raise TypeError).

(** [if isinstance(item, dict) and "id" in item: unique[item["id"]] = item] *)
Definition store_if_id (item : json) : M wstate unit :=
  match item with
  | JObj kv =>
      match dict_get kv "id" with
      | Some k => store k item
      | None => mret tt
      end
  | _ => mret tt
  end.

(** The [if "collections" in data and isinstance(..., list)] block. *)
Definition read_collections (data : json) : M wstate unit :=
  has <~ lift (py_contains data "collections") ;;
  if has then
    c <~ lift (py_getitem data "collections") ;;
    match c with
    | JArr items =>
        limit <~ gets dynamic_limit ;;
        when (limit =? 0) (modify (set_limit (len items))) ;;;
        mforeach items store_if_id
    | _ => mret tt
    end
  else mret tt.

(** The [if data.get("type") == "Collection" and "id" in data] block. *)
Definition read_self (data : json) : M wstate unit :=
  t <~ lift (py_get data "type" JNull) ;;
  if is_str t "Collection" then
    has <~ lift (py_contains data "id") ;;
    if has then
      k <~ lift (py_getitem data "id") ;;
      store k data
    else mret tt
  else mret tt.

(** One turn of [for link in data.get("links", [])]. *)
Definition follow_link (url : string) (link : json) : M wstate unit :=
  rel <~ lift (py_get link "rel" JNull) ;;
  if str_in rel ["child"; "data"; "collection"; "children"] then
    h <~ lift (py_get link "href" (JStr "")) ;;
    href <~ lift (py_urljoin urljoin url h) ;;
    seen <~ gets visited ;;
    when (nonempty href && negb (mem href seen) && negb (endswith href ".json"))
         (modify (enqueue href))
  else mret tt.

Definition follow_links (url : string) (data : json) : M wstate unit :=
  l <~ lift (py_get data "links" (JArr [])) ;;
  links <~ lift (py_iter l) ;;
  mforeach links (follow_link url).

(** The [try] block of the worker for a dequeued [url]. *)
Definition visit (url : string) : M wstate unit :=
  res <~ lift (client_get url) ;;
  lift (raise_for_status (fst res)) ;;;
  data <~ lift (res_json (snd res)) ;;
  read_collections data ;;;
  read_self data ;;;
  follow_links url data.

(** [if dynamic_limit > 0 and len(unique) >= dynamic_limit: break] *)
Definition limit_reached (st : wstate) : bool :=
  (0 <? dynamic_limit st) && (dynamic_limit st <=? len (unique st)).

(** The [while queue] loop; [except Exception: continue] drops whatever
    [visit] raised and keeps the state it left. *)
Fixpoint loop (fuel : nat) (st : wstate) : wstate * run unit :=
  match fuel with
  | O => (st, OutOfFuel)
  | S fuel' =>
      match queue st with
      | [] => (st, Returned tt)
      | url :: rest =>
          if limit_reached st then (st, Returned tt)
          else loop fuel' (fst (visit url (dequeue url rest st)))
      end
  end.

Definition initial (start_url : string) : wstate :=
  mk_wstate [] 0 [start_url] [start_url] [].

Definition _dynamic_worker (fuel : nat) (start_url : string)
  : wstate * run (list json) :=
  match loop fuel (initial start_url) with
  | (st, Returned _) => (st, Returned (values (unique st)))
  | (st, Raised e) => (st, Raised e)
  | (st, OutOfFuel) => (st, OutOfFuel)
  end.

(** *** [harvest_dynamic_catalog] *)

(** [[l for l in data.get("links", []) if l.get("rel") == "child"]] *)
Definition keep_child (l : json) (acc : list json) : result (list json) :=
  rel <- py_get l "rel" JNull ;;
  Ok (if is_str rel "child" then acc ++ [l] else acc).

Definition child_links (data : json) : result (list json) :=
  l <- py_get data "links" (JArr []) ;;
  links <- py_iter l ;;
  foreach keep_child links [].

(** [h.endswith((a, b))]: only a string has the method *)
Definition py_endswith (h : json) (suffixes : list string) : result bool :=
  match h with
  | JStr s => Ok (endswith_any s suffixes)
  | _ => Raise AttributeError
  end.

(** [any(...)] stops at the first link that qualifies. *)
Fixpoint any_master (links : list json) : result bool :=
  match links with
  | [] => Ok false
  | l :: rest =>
      h <- py_get l "href" (JStr "") ;;
      b <- py_endswith h ["/collections"; "/collections/"] ;;
      if b then Ok true else any_master rest
  end.

Definition has_master (data : json) : result bool :=
  l <- py_get data "links" (JArr []) ;;
  links <- py_iter l ;;
  any_master links.

Record dstate : Type := mk_dstate {
  collections : list json;
  crawl_notes : list string;
  requests : list string;  (* ghost: every URL requested, in order *)
  invoked : list string    (* ghost: the argument of every worker call *)
}.

(** [collections.extend(_dynamic_worker(root, client))] *)
Definition extend_with_worker (fuel : nat) (root : string) (st : dstate)
  : dstate * run unit :=
  let (w, r) := _dynamic_worker fuel root in
  let logged := requests st ++ fetched w in
  let called := invoked st ++ [root] in
  match r with
  | Returned found =>
      (mk_dstate (collections st ++ found) (crawl_notes st) logged called,
       Returned tt)
  | Raised e => (mk_dstate (collections st) (crawl_notes st) logged called, Raised e)
  | OutOfFuel => (mk_dstate (collections st) (crawl_notes st) logged called, OutOfFuel)
  end.

(** [for link in child_links] of the federated branch. *)
Fixpoint crawl_children (fuel : nat) (start_url : string) (links : list json)
  (st : dstate) : dstate * run unit :=
  match links with
  | [] => (st, Returned tt)
  | link :: rest =>
      match (h <- py_get link "href" (JStr "") ;; py_urljoin urljoin start_url h) with
      | Raise e => (st, Raised e)
      | Ok href =>
          if nonempty href && negb (endswith href ".json") then
            match extend_with_worker fuel href st with
            | (st', Returned _) => crawl_children fuel start_url rest st'
            | (st', r) => (st', r)
            end
          else crawl_children fuel start_url rest st
      end
  end.

Definition add_note (note : string) (st : dstate) : dstate :=
  mk_dstate (collections st) (crawl_notes st ++ [note]) (requests st) (invoked st).

(** The statements of the [try] block up to the branch. *)
Definition phase_a (start_url : string) : result (list json * bool) :=
  root <- client_get start_url ;;
  _ <- raise_for_status (fst root) ;;
  data <- res_json (snd root) ;;
  cl <- child_links data ;;
  hm <- has_master data ;;
  Ok (cl, hm).

Definition is_federated (cl : list json) (hm : bool) : bool :=
  match cl with [] => false | _ => true end && negb hm.

(** [except Exception: return None] turns every exception into [None];
    [fuel] bounds each worker call. *)
Definition harvest_dynamic_catalog (fuel : nat) (start_url : string)
  (params : plan_entry) : dstate * run (option (list json * list string)) :=
  let st0 := mk_dstate [] [] [start_url] [] in
  match phase_a start_url with
  | Raise _ => (st0, Returned None)
  | Ok (cl, hm) =>
      let (st, r) :=
        if is_federated cl hm then
          crawl_children fuel start_url cl
            (add_note ("Federated crawl with " ++ str_of_int (len cl)
                       ++ " children.")%string st0)
        else
          extend_with_worker fuel start_url
            (add_note "Single endpoint crawl." st0) in
      match r with
      | Returned _ => (st, Returned (Some (collections st, crawl_notes st)))
      | Raised _ => (st, Returned None)
      | OutOfFuel => (st, OutOfFuel)
      end
  end.

(** *** Vocabulary of the properties *)

Definition queued_once (st : wstate) : Prop :=
  NoDup (fetched st ++ queue st)
  /\ incl (fetched st ++ queue st) (visited st).

(** What a worker call returns, and what it requested. *)
Definition worker_result (fuel : nat) (root : string) : list json :=
  match snd (_dynamic_worker fuel root) with
  | Returned found => found
  | _ => []
  end.

Definition worker_log (fuel : nat) (root : string) : list string :=
  fetched (fst (_dynamic_worker fuel root)).

Definition halts (fuel : nat) (root : string) : Prop :=
  snd (_dynamic_worker fuel root) <> OutOfFuel.

(** [urljoin(start_url, l["href"])] for a link, where it returns. *)
Definition join_href (start_url : string) (l : json) : list string :=
  match urljoin start_url (href_of l) with
  | Some href => [href]
  | None => []
  end.

(** The child links that qualify as sub-catalog roots, resolved. *)
Definition qualifying (start_url : string) (links : list json) : list string :=
  filter (fun href => negb (endswith href ".json"))
         (flat_map (join_href start_url) (filter is_child links)).

(** The roots the workers are to be called on. *)
Definition sub_roots (start_url : string) (links : list json) : list string :=
  if federated links then qualifying start_url links else [start_url].

Definition branch_note (links : list json) : string :=
  if federated links
  then ("Federated crawl with " ++ str_of_int (len (filter is_child links))
        ++ " children.")%string
  else "Single endpoint crawl.".

Definition resolved (start_url : string) (links : list json) : list string :=
  filter (fun href => nonempty href && negb (endswith href ".json"))
         (flat_map (join_href start_url) links).

(** Every link has an [href] that [urljoin] resolves against [start_url],
    and to a URL that is not empty. *)
Definition resolves (start_url : string) (links : list json) : Prop :=
  forall l, In l links ->
    exists href, urljoin start_url (href_of l) = Some href /\ href <> "".

(** A request that gives no document: a transport error (an exception or a
    status outside 2xx) or a shape error (a body that is not UTF-8 text or
    not JSON, or JSON that is not an object). *)
Definition load_fails (url : string) : bool :=
  match fetch url with
  | Failed _ => true
  | Resp _ code b =>
      negb ((200 <=? code) && (code <=? 299))
      || match b with
         | NotUtf8 => true
         | NotJson => true
         | Json (JObj _) => false
         | Json _ => true
         end
  end.

(** A URL the worker may enqueue: not empty, not ending in [.json]. *)
Definition crawlable (u : string) : bool :=
  nonempty u && negb (endswith u ".json").

(** The URL a link of the document at [url] may add to the queue: the
    resolved [href] of a link whose relation the worker follows. *)
Definition link_target (url : string) (link : json) : list string :=
  match (rel <- py_get link "rel" JNull ;;
         if str_in rel ["child"; "data"; "collection"; "children"] then
           h <- py_get link "href" (JStr "") ;;
           href <- py_urljoin urljoin url h ;;
           Ok (if crawlable href then [href] else [])
         else Ok [])
  with
  | Ok targets => targets
  | Raise _ => []
  end.

(** The URLs the document at [url] links to, as the worker reads them. *)
Definition out_links (url : string) : list string :=
  match fetch url with
  | Resp _ _ (Json data) =>
      match (l <- py_get data "links" (JArr []) ;; py_iter l) with
      | Ok links => flat_map (link_target url) links
      | Raise _ => []
      end
  | _ => []
  end.

(** A set of URLs that the links of its documents do not lead out of. *)
Definition closed (U : list string) : Prop :=
  forall u, In u U -> incl (out_links u) U.

End Engine.
End Dynamic.

(** ** Stage 3: the dispatch of [build_knowledge_base] *)

Inductive verdict : Type :=
| ProcessingError                       (* [if not result] *)
| NoCollections                         (* [if not collections] *)
| Entry (collections : list json) (notes : list string).

Section Coordinator.

Variable fetch : string -> response.
Variable urljoin : string -> string -> option string.
Variable set_order : list string -> list string.

(** [plan.get('strategy') == s] with [plan = crawl_plan.get(slug, {})] *)
Definition strategy_is (plan : option plan_entry) (s : string) : bool :=
  match plan with
  | Some e => String.eqb (strategy e) s
  | None => false
  end.

Definition no_params : plan_entry := mk_entry "" [].

(** One turn of the loop over the profiles whose status is [OK]. *)
Definition process (fuel : nat) (crawl_plan : list (string * plan_entry))
  (p : profile) : run verdict :=
  let plan := dict_get crawl_plan (slug p) in
  let args := match plan with Some e => e | None => no_params end in
  let result :=
    if strategy_is plan "Static Harvest" then
      snd (Static.harvest_static_catalog fetch urljoin set_order (url p) args)
    else if strategy_is plan "Dynamic Harvest" then
      snd (Dynamic.harvest_dynamic_catalog fetch urljoin fuel (url p) args)
    else Returned None in
  match result with
  | Returned None => Returned ProcessingError
  | Returned (Some (found, notes)) =>
      match found with
      | [] => Returned NoCollections
      | _ => Returned (Entry found notes)
      end
  | Raised e => Raised e
  | OutOfFuel => OutOfFuel
  end.

(** The loop over [to_process]; an exception that leaves an engine leaves
    the loop with it. *)
Fixpoint process_all (fuel : nat) (crawl_plan : list (string * plan_entry))
  (to_process : list profile) : run (list verdict) :=
  match to_process with
  | [] => Returned []
  | p :: rest =>
      match process fuel crawl_plan p with
      | Returned v =>
          match process_all fuel crawl_plan rest with
          | Returned vs => Returned (v :: vs)
          | r => r
          end
      | Raised e => Raised e
      | OutOfFuel => OutOfFuel
      end
  end.

Definition build_knowledge_base (fuel : nat)
  (crawl_plan : list (string * plan_entry)) (profiles : list profile)
  : run (list verdict) :=
  process_all fuel crawl_plan
    (filter (fun p => String.eqb (status p) "OK") profiles).

End Coordinator.

(** ** Stage 1 in full: the catalog list of [run_reconnaissance]

    [Recon] above is the profiling loop on catalogs whose fields are
    strings.  Here the list is what the index answers: parsed values, with
    the exceptions of the [try] block turned into [None]. *)

Module Index.

Definition STAC_INDEX_CATALOGS_URL : string := "https://stacindex.org/api/catalogs".

(** [not cat.get("isPrivate", True) and cat.get("url")] *)
Definition is_public (cat : json) : result bool :=
  private <- py_get cat "isPrivate" (JBool true) ;;
  if truthy private then Ok false
  else u <- py_get cat "url" JNull ;; Ok (truthy u).

(** One turn of the list comprehension. *)
Definition keep_public (cat : json) (acc : list json) : result (list json) :=
  keep <- is_public cat ;;
  Ok (if keep then acc ++ [cat] else acc).

Record raw_profile : Type := mk_raw {
  raw_slug : json;
  raw_title : json;
  raw_url : json;
  raw_status : string
}.

(** [slug in MANUAL_OVERRIDES]: the key is hashed first. *)
Definition overridden (slug : json) : result bool :=
  match slug with
  | JStr s => Ok (mem s MANUAL_OVERRIDES)
  | _ => if hashable slug then Ok false else Raise TypeError
  end.

Section Index.

Variable fetch : string -> response.

(** The [try] block: the list of the index, filtered. *)
Definition public_catalogs : result (list json) :=
  match fetch STAC_INDEX_CATALOGS_URL with
  | Failed name => Raise (TransportError name)
  | Resp _ code b =>
      _ <- raise_for_status code ;;
      catalogs <- res_json b ;;
      cats <- py_iter catalogs ;;
      foreach keep_public cats []
  end.

(** [client.get(url).raise_for_status()] on a parsed value: a URL that is
    not a string is refused with [TypeError]. *)
Definition probe_raw (url : json) : option string :=
  match url with
  | JStr u => Recon.probe fetch u
  | _ => Some "TypeError"
  end.

(** One turn of the profiling loop. *)
Definition profile_raw (cat : json) (acc : list raw_profile)
  : result (list raw_profile) :=
  slug <- py_get cat "slug" JNull ;;
  title <- py_get cat "title" (JStr "N/A") ;;
  url <- py_get cat "url" JNull ;;
  skip <- overridden slug ;;
  let status :=
    if skip then "Skipped (Manual Override)"
    else match probe_raw url with
         | None => "OK"
         | Some name => ("Failed: " ++ name)%string
         end in
  Ok (acc ++ [mk_raw slug title url status]).

(** [None] when the [try] block raised; an exception of the profiling loop
    is not caught. *)
Definition run_reconnaissance : run (option (list raw_profile)) :=
  match public_catalogs with
  | Raise _ => Returned None
  | Ok cats =>
      match foreach profile_raw cats [] with
      | Ok profiles => Returned (Some profiles)
      | Raise e => Raised e
      end
  end.

(** *** Vocabulary of the properties *)

Definition field (cat : json) (k : string) (default : json) : json :=
  match cat with
  | JObj kv => match dict_get kv k with Some v => v | None => default end
  | _ => default
  end.

Definition is_object (v : json) : bool :=
  match v with JObj _ => true | _ => false end.

(** A catalog that is listed as not private and has a URL. *)
Definition public (cat : json) : bool :=
  negb (truthy (field cat "isPrivate" (JBool true)))
  && truthy (field cat "url" JNull).

(** The profile of a catalog whose slug can be hashed. *)
Definition snapshot (cat : json) : raw_profile :=
  let slug := field cat "slug" JNull in
  let url := field cat "url" JNull in
  mk_raw slug (field cat "title" (JStr "N/A")) url
    (if match slug with JStr s => mem s MANUAL_OVERRIDES | _ => false end
     then "Skipped (Manual Override)"
     else match probe_raw url with
          | None => "OK"
          | Some name => ("Failed: " ++ name)%string
          end).

(** The profile of [Recon], with its fields as parsed values. *)
Definition raw_of (p : profile) : raw_profile :=
  mk_raw (JStr (slug p)) (JStr (title p)) (JStr (url p)) (status p).

End Index.
End Index.

(** ** More vocabulary for the plan and the dispatch *)

(** The last profile of a list that has the slug [s]. *)
Fixpoint last_with_slug (s : string) (profiles : list profile) : option profile :=
  match profiles with
  | [] => None
  | p :: rest =>
      match last_with_slug s rest with
      | Some q => Some q
      | None => if String.eqb (slug p) s then Some p else None
      end
  end.

(** What the coordinator makes of the result of an engine. *)
Definition verdict_of (result : run (option (list json * list string)))
  : run verdict :=
  match result with
  | Returned None => Returned ProcessingError
  | Returned (Some ([], _)) => Returned NoCollections
  | Returned (Some (found, notes)) => Returned (Entry found notes)
  | Raised e => Raised e
  | OutOfFuel => OutOfFuel
  end.

(** ** Scenarios and sample data

    The documents of the scenarios of the specification, and concrete
    inputs on which the hypotheses of the theorems below are met. *)

Definition link (rel href : string) : json :=
  JObj [("rel", JStr rel); ("href", JStr href)].

(** [urljoin] on references that are absolute URLs, or empty. *)
Definition join_absolute (base href : string) : option string :=
  Some (if nonempty href then href else base).

(** A set iterated in the order its elements were added. *)
Definition in_order (s : list string) : list string := s.

Definition item_x : json := JObj [("id", JStr "x")].
Definition item_y : json := JObj [("id", JStr "y")].

(** A document with [collections] of two items and no links. *)
Definition doc_xy : json := JObj [("collections", JArr [item_x; item_y])].

Definition root_xy : string := "https://xy.example/api".

Definition fetch_xy (u : string) : response :=
  if String.eqb u root_xy then Resp u 200 (Json doc_xy)
  else Failed "ConnectError".

(** A first page whose [collections] is empty, linked to a second page of
    three items. *)
Definition root_e : string := "https://e.example/api".
Definition page_e : string := "https://e.example/api/collections".

Definition doc_e : json :=
  JObj [("collections", JArr []); ("links", JArr [link "data" page_e])].

Definition doc_e2 : json :=
  JObj [("collections",
         JArr [JObj [("id", JStr "a")]; JObj [("id", JStr "b")];
               JObj [("id", JStr "c")]])].

Definition fetch_e (u : string) : response :=
  if String.eqb u root_e then Resp u 200 (Json doc_e)
  else if String.eqb u page_e then Resp u 200 (Json doc_e2)
  else Failed "ConnectError".

(** The link graph of the Link-Graph scenario: [root_a] has child links to
    [url_b] and [url_c], whose documents declare a version and have no
    links. *)
Definition root_a : string := "https://a.example/catalog.json".
Definition url_b : string := "https://a.example/b/catalog.json".
Definition url_c : string := "https://a.example/c/catalog.json".

Definition doc_a : json :=
  JObj [("links", JArr [link "child" url_b; link "child" url_c])].
Definition doc_b : json := JObj [("stac_version", JStr "1.0.0"); ("id", JStr "b")].
Definition doc_c : json := JObj [("stac_version", JStr "1.0.0"); ("id", JStr "c")].

Definition fetch_abc (u : string) : response :=
  if String.eqb u root_a then Resp u 200 (Json doc_a)
  else if String.eqb u url_b then Resp u 200 (Json doc_b)
  else if String.eqb u url_c then Resp u 200 (Json doc_c)
  else Failed "ConnectError".

Definition static_entry (max_depth hard_limit : Z) : plan_entry :=
  mk_entry "Static Harvest"
    [("STATIC_HARVEST_MAX_DEPTH", max_depth); ("COLLECTION_HARD_LIMIT", hard_limit)].

(** The same graph, with [url_b] answering with a JSON array. *)
Definition fetch_array (u : string) : response :=
  if String.eqb u root_a then Resp u 200 (Json doc_a)
  else if String.eqb u url_b then Resp u 200 (Json (JArr []))
  else if String.eqb u url_c then Resp u 200 (Json doc_c)
  else Failed "ConnectError".

(** The same graph, with [url_b] answering with bytes that are not UTF-8. *)
Definition fetch_bytes (u : string) : response :=
  if String.eqb u root_a then Resp u 200 (Json doc_a)
  else if String.eqb u url_b then Resp u 200 NotUtf8
  else if String.eqb u url_c then Resp u 200 (Json doc_c)
  else Failed "ConnectError".

(** The same graph, with [url_b] answering 404 with a JSON body. *)
Definition fetch_404 (u : string) : response :=
  if String.eqb u root_a then Resp u 200 (Json doc_a)
  else if String.eqb u url_b then Resp u 404 (Json doc_b)
  else if String.eqb u url_c then Resp u 200 (Json doc_c)
  else Failed "ConnectError".

(** A graph of three levels: [root_a] links to [url_b] and [url_c], and the
    document of [url_b] links on to [url_d]. *)
Definition url_d : string := "https://a.example/b/d/catalog.json".

Definition doc_b_deep : json :=
  JObj [("stac_version", JStr "1.0.0"); ("id", JStr "b");
        ("links", JArr [link "child" url_d])].
Definition doc_d : json := JObj [("stac_version", JStr "1.0.0"); ("id", JStr "d")].

Definition fetch_deep (u : string) : response :=
  if String.eqb u root_a then Resp u 200 (Json doc_a)
  else if String.eqb u url_b then Resp u 200 (Json doc_b_deep)
  else if String.eqb u url_c then Resp u 200 (Json doc_c)
  else if String.eqb u url_d then Resp u 200 (Json doc_d)
  else Failed "ConnectError".

(** A server that answers every request with an empty JSON array. *)
Definition fetch_list (u : string) : response := Resp u 200 (Json (JArr [])).

(** A federated root: child links to two sub-catalogs that each hold one
    collection with the id [z], a child link to a [.json] document, and no
    [/collections] link. *)
Definition root_f : string := "https://f.example/api".
Definition sub_1 : string := "https://s1.example/api".
Definition sub_2 : string := "https://s2.example/api".

Definition doc_f : json :=
  JObj [("links",
         JArr [link "child" sub_1; link "child" sub_2;
               link "child" "https://s3.example/catalog.json";
               link "self" root_f])].

Definition doc_z1 : json :=
  JObj [("type", JStr "Collection"); ("id", JStr "z"); ("title", JStr "one")].
Definition doc_z2 : json :=
  JObj [("type", JStr "Collection"); ("id", JStr "z"); ("title", JStr "two")].

Definition fetch_fed (u : string) : response :=
  if String.eqb u root_f then Resp u 200 (Json doc_f)
  else if String.eqb u sub_1 then Resp u 200 (Json doc_z1)
  else if String.eqb u sub_2 then Resp u 200 (Json doc_z2)
  else Failed "ConnectError".

(** [urljoin] that refuses the reference [//[], as [urlsplit] does, and joins
    like [join_absolute] otherwise. *)
Definition join_checked (base href : string) : option string :=
  if String.eqb href "//[" then None else join_absolute base href.

(** A root with three child links and no [/collections] link; the second
    link has a reference that [urljoin] refuses. *)
Definition root_g : string := "https://g.example/api".

Definition links_g : list json :=
  [link "child" sub_1; link "child" "//["; link "child" sub_2].

Definition doc_g : json := JObj [("links", JArr links_g)].

Definition fetch_g (u : string) : response :=
  if String.eqb u root_g then Resp u 200 (Json doc_g)
  else if String.eqb u sub_1 then Resp u 200 (Json doc_z1)
  else if String.eqb u sub_2 then Resp u 200 (Json doc_z2)
  else Failed "ConnectError".

(** A root with two child links, the first to an endless chain: every URL
    but the root and [sub_2] answers with a document whose one child link
    leads a step further. *)
Definition root_h : string := "https://h.example/api".
Definition chain_1 : string := "https://h.example/chain".

Definition links_h : list json := [link "child" chain_1; link "child" sub_2].

Definition doc_h : json := JObj [("links", JArr links_h)].

Definition doc_chain (u : string) : json :=
  JObj [("links", JArr [link "child" (u ++ "/")%string])].

Definition fetch_chain (u : string) : response :=
  if String.eqb u root_h then Resp u 200 (Json doc_h)
  else if String.eqb u sub_2 then Resp u 200 (Json doc_z2)
  else Resp u 200 (Json (doc_chain u)).

(** The states a worker passes through on the chain: one URL in the queue,
    at least as long as every URL seen before, and no limit set. *)
Definition on_chain (st : Dynamic.wstate) : Prop :=
  exists u,
    Dynamic.queue st = [u]
    /\ Dynamic.dynamic_limit st = 0
    /\ (str_len chain_1 <= str_len u)%nat
    /\ Forall (fun v => (str_len v <= str_len u)%nat) (Dynamic.visited st).

(** An index of three catalogs: one public, one private, one that does not
    say; and an index with a public catalog whose slug is a list. *)
Definition cat_open : json :=
  JObj [("slug", JStr "open"); ("title", JStr "Open"); ("isPrivate", JBool false);
        ("url", JStr root_xy)].
Definition cat_private : json :=
  JObj [("slug", JStr "private"); ("isPrivate", JBool true); ("url", JStr root_e)].
Definition cat_silent : json :=
  JObj [("slug", JStr "silent"); ("url", JStr root_f)].
Definition cat_odd : json :=
  JObj [("slug", JArr []); ("isPrivate", JBool false); ("url", JStr root_f)].

Definition fetch_index (u : string) : response :=
  if String.eqb u Index.STAC_INDEX_CATALOGS_URL
  then Resp u 200 (Json (JArr [cat_open; cat_private; cat_silent]))
  else fetch_xy u.

Definition fetch_index_odd (u : string) : response :=
  if String.eqb u Index.STAC_INDEX_CATALOGS_URL
  then Resp u 200 (Json (JArr [cat_open; cat_odd]))
  else fetch_xy u.

(** The URLs of the federated sample. *)
Definition urls_fed : list string := [root_f; sub_1; sub_2].

Definition dynamic_entry : plan_entry :=
  mk_entry "Dynamic Harvest" DEFAULT_DYNAMIC_PARAMS.

Definition sample_profiles : list profile :=
  [ mk_profile "alpha" "Alpha" "https://alpha.example/catalog.json" "OK";
    mk_profile "beta" "Beta" "https://beta.example/stac" "OK";
    mk_profile "cbers" "CBERS" "https://cbers.example/catalog.json"
               "Skipped (Manual Override)" ].

(** * Properties *)

(** ** Membership, dicts *)

Lemma mem_true_iff (s : string) (l : list string) : mem s l = true <-> In s l.
Proof.
  unfold mem. rewrite existsb_exists. split.
  - intros [x [Hin Heq]]. apply String.eqb_eq in Heq. now subst.
  - intros Hin. exists s. split; [assumption | apply String.eqb_refl].
Qed.

Lemma mem_false_iff (s : string) (l : list string) : mem s l = false <-> ~ In s l.
Proof.
  rewrite <- mem_true_iff. destruct (mem s l); split; congruence.
Qed.

Lemma dict_get_set_same {V : Type} (k : string) (v : V) (kv : list (string * V)) :
  dict_get (dict_set k v kv) k = Some v.
Proof.
  induction kv as [| [k' v'] rest IH]; simpl.
  - now rewrite String.eqb_refl.
  - destruct (String.eqb k' k) eqn:E; simpl; rewrite E; [reflexivity | exact IH].
Qed.

Lemma dict_get_set_other {V : Type} (k k0 : string) (v : V) (kv : list (string * V)) :
  k <> k0 -> dict_get (dict_set k v kv) k0 = dict_get kv k0.
Proof.
  intros Hne. induction kv as [| [k' v'] rest IH]; simpl.
  - destruct (String.eqb_spec k k0); [contradiction | reflexivity].
  - destruct (String.eqb_spec k' k) as [-> | Hk]; simpl.
    + destruct (String.eqb_spec k k0); [contradiction | reflexivity].
    + destruct (String.eqb_spec k' k0); [reflexivity | exact IH].
Qed.

(** ** The strategy classifier *)

Lemma plan_lookup_aux (profiles : list profile) (p : profile)
  (plan : list (string * plan_entry)) :
  NoDup (map slug profiles) -> In p profiles ->
  dict_get
    (fold_left (fun pl q => dict_set (slug q) (plan_for q) pl) profiles plan)
    (slug p) = Some (plan_for p).
Proof.
  revert plan. induction profiles as [| q rest IH]; intros plan Hnd Hin.
  - contradiction.
  - simpl in Hnd. inversion Hnd as [| ? ? Hnotin Hnd']; subst.
    destruct Hin as [-> | Hin].
    + simpl. clear IH Hnd Hnd'.
      assert (Hkeep : forall l pl,
                 ~ In (slug p) (map slug l) ->
                 dict_get (fold_left (fun pl q => dict_set (slug q) (plan_for q) pl) l pl)
                          (slug p) = dict_get pl (slug p)).
      { induction l as [| r l IHl]; intros pl Hn; simpl.
        - reflexivity.
        - rewrite IHl.
          + apply dict_get_set_other. intros Heq. apply Hn. left. exact Heq.
          + intros Hc. apply Hn. right. exact Hc. }
      rewrite Hkeep by assumption. apply dict_get_set_same.
    + simpl. apply IH; assumption.
Qed.

Lemma overridden_status (fetch : string -> response) (c : catalog) :
  In (cat_slug c) MANUAL_OVERRIDES ->
  status (Recon.profile_catalog fetch c) = "Skipped (Manual Override)".
Proof.
  intros Hin. unfold Recon.profile_catalog.
  apply mem_true_iff in Hin. rewrite Hin. reflexivity.
Qed.

(** C9. Every profile of a list with distinct slugs gets its own plan entry,
    chosen in this order: [Skip] when the status is not [OK]; else
    [Static Harvest] with depth 3 and limit 300 when the URL ends in [.json]
    or [f=json]; else [Dynamic Harvest] with [max_depth] 10.  A slug of the
    override table has a status other than [OK] whatever its URL or its
    reachability, so its entry is [Skip]. *)
Theorem strategy_classifier_rule (profiles : list profile) (p : profile) :
  NoDup (map slug profiles) -> In p profiles ->
  exists e,
    dict_get (generate_crawl_plan profiles) (slug p) = Some e /\
    (status p <> "OK" -> e = mk_entry "Skip" []) /\
    (status p = "OK" -> endswith_any (url p) [".json"; "f=json"] = true ->
       strategy e = "Static Harvest" /\
       dict_get (params e) "STATIC_HARVEST_MAX_DEPTH" = Some 3 /\
       dict_get (params e) "COLLECTION_HARD_LIMIT" = Some 300) /\
    (status p = "OK" -> endswith_any (url p) [".json"; "f=json"] = false ->
       strategy e = "Dynamic Harvest" /\
       dict_get (params e) "max_depth" = Some 10) /\
    (forall fetch c, In (cat_slug c) MANUAL_OVERRIDES ->
       p = Recon.profile_catalog fetch c -> e = mk_entry "Skip" []).
Proof.
  intros Hnd Hin. exists (plan_for p). split.
  - unfold generate_crawl_plan. now apply plan_lookup_aux.
  - unfold plan_for. split; [| split; [| split]].
    + intros Hs.
      destruct (String.eqb_spec (status p) "OK"); [contradiction | reflexivity].
    + intros Hok Hend. rewrite Hok, Hend. repeat split; reflexivity.
    + intros Hok Hend. rewrite Hok, Hend. split; reflexivity.
    + intros fetch c Hov ->. rewrite (overridden_status fetch c Hov). reflexivity.
Qed.

Lemma strategy_classifier_rule_witness :
  exists e,
    dict_get (generate_crawl_plan sample_profiles) "alpha" = Some e /\
    strategy e = "Static Harvest".
Proof.
  destruct (strategy_classifier_rule sample_profiles
              (mk_profile "alpha" "Alpha" "https://alpha.example/catalog.json" "OK"))
    as [e [Hget [_ [Hstatic _]]]].
  - repeat constructor; simpl; intuition discriminate.
  - simpl. now left.
  - exists e. split; [exact Hget |]. now apply Hstatic.
Defined.

(** ** The Link-Graph engine *)

Section StaticFacts.

Variable fetch : string -> response.
Variable urljoin : string -> string -> option string.
Variable set_order : list string -> list string.

Abbreviation level := (Static.level fetch urljoin set_order).
Abbreviation loop := (Static.loop fetch urljoin set_order).
Abbreviation process_result := (Static.process_result urljoin).
Abbreviation add_link := (Static.add_link urljoin).

(** An invariant [I] of the turns that do not raise, with what is to hold
    of the state the loop is left in. *)
Lemma loop_rule (I F : Static.state -> Prop) (max_depth hard_limit : Z) :
  (forall st, I st -> Static.loop_test max_depth hard_limit st = true ->
              match level st with
              | (st', None) => I st'
              | (st', Some _) => F st'
              end) ->
  (forall st, I st -> F st) ->
  forall fuel st, I st -> F (fst (loop fuel max_depth hard_limit st)).
Proof.
  intros Hstep Hexit fuel. induction fuel as [| fuel IH]; intros st HI; simpl.
  - now apply Hexit.
  - destruct (Static.loop_test max_depth hard_limit st) eqn:Htest.
    + specialize (Hstep st HI Htest).
      destruct (level st) as [st' [e |]]; simpl.
      * exact Hstep.
      * now apply IH.
    + simpl. now apply Hexit.
Qed.

Lemma level_depth (st : Static.state) :
  match level st with
  | (st', None) => Static.depth st' = Static.depth st + 1
  | (st', Some _) => Static.depth st' = Static.depth st
  end.
Proof.
  unfold Static.level.
  destruct (foreach _ _ _) as [[cs nl] | e]; reflexivity.
Qed.

Lemma level_levels (st : Static.state) :
  Static.levels (fst (level st)) =
  Static.levels st ++ [(Static.depth st, set_order (Static.to_fetch st))].
Proof.
  unfold Static.level.
  destruct (foreach _ _ _) as [[cs nl] | e]; reflexivity.
Qed.

Lemma level_visited (st : Static.state) :
  Static.visited (fst (level st)) = Static.visited st ++ Static.to_fetch st.
Proof.
  unfold Static.level.
  destruct (foreach _ _ _) as [[cs nl] | e]; reflexivity.
Qed.

(** *** Enough fuel *)

Lemma loop_fuel (max_depth hard_limit : Z) (fuel : nat) (st : Static.state) :
  (Z.to_nat (max_depth - Static.depth st) < fuel)%nat ->
  snd (loop fuel max_depth hard_limit st) <> OutOfFuel.
Proof.
  revert st. induction fuel as [| fuel IH]; intros st Hlt; [lia |].
  simpl. destruct (Static.loop_test max_depth hard_limit st) eqn:Htest.
  - pose proof (level_depth st) as Hd.
    destruct (level st) as [st' [e |]]; simpl; [discriminate |].
    apply IH. unfold Static.loop_test in Htest.
    apply andb_prop in Htest as [_ Hdepth]. apply Z.ltb_lt in Hdepth. lia.
  - discriminate.
Qed.

Lemma harvest_static_total (start_url : string) (params : plan_entry) :
  snd (Static.harvest_static_catalog fetch urljoin set_order start_url params)
  <> OutOfFuel.
Proof.
  unfold Static.harvest_static_catalog.
  set (md := params_get params "STATIC_HARVEST_MAX_DEPTH" 3).
  set (hl := params_get params "COLLECTION_HARD_LIMIT" 300).
  assert (Hfuel : snd (loop (S (Z.to_nat md)) md hl (Static.initial start_url))
                  <> OutOfFuel).
  { apply loop_fuel. simpl. replace (md - 0) with md by lia. lia. }
  destruct (loop _ md hl _) as [st [u | e |]]; simpl in *;
    [discriminate | discriminate | contradiction].
Qed.

Lemma harvest_static_shape (start_url : string) (params : plan_entry) :
  let out := Static.harvest_static_catalog fetch urljoin set_order start_url params in
  (exists notes, snd out = Returned (Some (Static.collections (fst out), notes)))
  \/ (exists e, snd out = Raised e).
Proof.
  pose proof (harvest_static_total start_url params) as Htot.
  unfold Static.harvest_static_catalog in *.
  destruct (loop _ _ _ _) as [st [u | e |]]; simpl in *.
  - left. eexists. reflexivity.
  - right. eexists. reflexivity.
  - contradiction.
Qed.

Lemma harvest_static_final (start_url : string) (params : plan_entry) :
  fst (Static.harvest_static_catalog fetch urljoin set_order start_url params) =
  fst (loop (S (Z.to_nat (params_get params "STATIC_HARVEST_MAX_DEPTH" 3)))
            (params_get params "STATIC_HARVEST_MAX_DEPTH" 3)
            (params_get params "COLLECTION_HARD_LIMIT" 300)
            (Static.initial start_url)).
Proof.
  unfold Static.harvest_static_catalog.
  destruct (loop _ _ _ _) as [st [u | e |]]; reflexivity.
Qed.

(** *** Depth *)

Lemma level_numbers_succ (n : nat) :
  Static.level_numbers (S n) = Static.level_numbers n ++ [Z.of_nat n].
Proof.
  unfold Static.level_numbers. rewrite seq_S, map_app. reflexivity.
Qed.

Lemma loop_numbered (max_depth hard_limit : Z) (fuel : nat) (st : Static.state) :
  Static.numbered max_depth st -> Static.depth st = len (Static.levels st) ->
  Static.numbered max_depth (fst (loop fuel max_depth hard_limit st)).
Proof.
  intros Hnum Hdepth.
  apply (loop_rule
           (fun s => Static.numbered max_depth s /\ Static.depth s = len (Static.levels s))
           (Static.numbered max_depth) max_depth hard_limit); [| tauto | tauto].
  clear st Hnum Hdepth. intros st [[Hmap Hlen] Hdepth] Htest.
  unfold Static.loop_test in Htest. apply andb_prop in Htest as [_ Hlt].
  apply Z.ltb_lt in Hlt.
  pose proof (level_depth st) as Hd. pose proof (level_levels st) as Hl.
  assert (Hnum' : Static.numbered max_depth (fst (level st))).
  { unfold Static.numbered. rewrite Hl. unfold len in *.
    rewrite map_app, length_app, Nat.add_comm. simpl.
    rewrite level_numbers_succ, Hmap, Hdepth. split; [reflexivity | lia]. }
  destruct (level st) as [st' [e |]]; simpl in *; [exact Hnum' |].
  split; [exact Hnum' |]. rewrite Hd, Hl, Hdepth. unfold len.
  rewrite length_app. simpl. lia.
Qed.

Lemma level_numbers_bound (n : nat) (d : Z) :
  In d (Static.level_numbers n) -> 0 <= d < Z.of_nat n.
Proof.
  unfold Static.level_numbers. rewrite in_map_iff. intros [k [<- Hin]].
  apply in_seq in Hin. lia.
Qed.

(** C7. The k-th turn of the level loop requests level k; the loop makes at
    most [max_depth] turns, so every request is for a level below
    [max_depth] and none for a level beyond it. *)
Theorem depth_bound (start_url : string) (params : plan_entry) :
  let d := params_get params "STATIC_HARVEST_MAX_DEPTH" 3 in
  let st := fst (Static.harvest_static_catalog fetch urljoin set_order
                   start_url params) in
  map fst (Static.levels st) = Static.level_numbers (List.length (Static.levels st))
  /\ len (Static.levels st) <= Z.max 0 d
  /\ Forall (fun lv => 0 <= fst lv < d /\ ~ fst lv > d) (Static.levels st).
Proof.
  intros d st. subst st. rewrite harvest_static_final. fold d.
  destruct (loop_numbered d (params_get params "COLLECTION_HARD_LIMIT" 300)
              (S (Z.to_nat d)) (Static.initial start_url)) as [Hmap Hlen].
  - split; [reflexivity | unfold len; simpl; lia].
  - reflexivity.
  - split; [exact Hmap |]. split; [exact Hlen |].
    apply Forall_forall. intros lv Hin.
    assert (Hb : 0 <= fst lv < len (Static.levels
                   (fst (loop (S (Z.to_nat d)) d
                           (params_get params "COLLECTION_HARD_LIMIT" 300)
                           (Static.initial start_url))))).
    { apply level_numbers_bound. rewrite <- Hmap. now apply in_map. }
    lia.
Qed.

(** *** Record count *)

Lemma max_fanout_app (l1 l2 : list (Z * list string)) :
  Static.max_fanout (l1 ++ l2) = Z.max (Static.max_fanout l1) (Static.max_fanout l2).
Proof.
  unfold Static.max_fanout. induction l1 as [| lv l1 IH]; simpl.
  - assert (H : 0 <= fold_right Z.max 0 (map (fun lv => len (snd lv)) l2)).
    { induction l2; simpl; lia. }
    lia.
  - rewrite IH. lia.
Qed.

Lemma process_result_count (visited : list string) (res : response)
  (acc acc' : list json * list string) :
  process_result visited res acc = Ok acc' ->
  len (fst acc') <= len (fst acc) + 1.
Proof.
  unfold Static.process_result, Static.process_body. intros H.
  destruct res as [name | u code b].
  - inversion H; subst. lia.
  - destruct (res_json b) as [data |]; simpl in H.
    + destruct (Static.is_catalog data) as [c |]; simpl in H.
      * destruct (py_get data "links" (JArr [])) as [l |]; simpl in H.
        -- destruct (py_iter l) as [links |]; simpl in H.
           ++ destruct (foreach _ links (snd acc)) as [nl |]; simpl in H.
              ** inversion H; subst. simpl. unfold len.
                 destruct c; [rewrite length_app; simpl |]; lia.
              ** destruct e; inversion H; subst; lia.
           ++ destruct e; inversion H; subst; lia.
        -- destruct e; inversion H; subst; lia.
      * destruct e; inversion H; subst; lia.
    + destruct e; inversion H; subst; lia.
Qed.

Lemma foreach_process_count (visited : list string) (results : list response) :
  forall acc acc',
    foreach (process_result visited) results acc = Ok acc' ->
    len (fst acc') <= len (fst acc) + len results.
Proof.
  induction results as [| res rest IH]; intros acc acc' H; simpl in H.
  - inversion H; subst. unfold len. simpl. lia.
  - destruct (process_result visited res acc) as [acc1 |] eqn:E; simpl in H;
      [| discriminate].
    apply process_result_count in E. apply IH in H.
    unfold len in *. simpl. lia.
Qed.

Lemma level_count (st : Static.state) :
  len (Static.collections (fst (level st)))
  <= len (Static.collections st) + len (set_order (Static.to_fetch st)).
Proof.
  unfold Static.level.
  destruct (foreach _ _ _) as [[cs nl] |] eqn:E; simpl.
  - apply foreach_process_count in E. simpl in E.
    unfold len in *. rewrite length_map in E. exact E.
  - unfold len. lia.
Qed.

(** C8. With a hard limit that is not negative, the records never number
    more than the limit plus the widest level requested: the limit is
    tested between levels only and a response adds at most one record. *)
Theorem hard_limit_overshoot (start_url : string) (params : plan_entry) :
  let hard_limit := params_get params "COLLECTION_HARD_LIMIT" 300 in
  let out := Static.harvest_static_catalog fetch urljoin set_order
               start_url params in
  0 <= hard_limit ->
  len (Static.collections (fst out))
    <= hard_limit + Static.max_fanout (Static.levels (fst out))
  /\ forall records notes,
       snd out = Returned (Some (records, notes)) ->
       len records <= hard_limit + Static.max_fanout (Static.levels (fst out)).
Proof.
  intros hl out Hpos.
  assert (Hbound : len (Static.collections (fst out))
                   <= hl + Static.max_fanout (Static.levels (fst out))).
  { subst out. rewrite harvest_static_final. fold hl.
    apply (loop_rule
             (fun s => len (Static.collections s)
                       <= hl + Static.max_fanout (Static.levels s))
             (fun s => len (Static.collections s)
                       <= hl + Static.max_fanout (Static.levels s))).
    - intros st HI Htest.
      unfold Static.loop_test in Htest.
      apply andb_prop in Htest as [Htest _].
      apply andb_prop in Htest as [_ Hlt]. apply Z.ltb_lt in Hlt.
      pose proof (level_count st) as Hc. pose proof (level_levels st) as Hl.
      assert (H : len (Static.collections (fst (level st)))
                  <= hl + Static.max_fanout (Static.levels (fst (level st)))).
      { rewrite Hl, max_fanout_app. unfold Static.max_fanout at 2. simpl. lia. }
      destruct (level st) as [st' [e |]]; exact H.
    - tauto.
    - simpl. unfold Static.max_fanout, len. simpl. lia. }
  split; [exact Hbound |].
  intros records notes Hret.
  destruct (harvest_static_shape start_url params) as [[notes' H] | [e H]];
    fold out in H; rewrite H in Hret; [| discriminate].
  inversion Hret; subst. exact Hbound.
Qed.

End StaticFacts.

(** *** No URL is requested twice *)

Section StaticVisitedOnce.

Variable fetch : string -> response.
Variable urljoin : string -> string -> option string.
Variable set_order : list string -> list string.
Hypothesis set_order_perm : forall s, Permutation (set_order s) s.

Abbreviation level := (Static.level fetch urljoin set_order).
Abbreviation loop := (Static.loop fetch urljoin set_order).

Lemma set_add_fresh (visited frontier : list string) (href : string) :
  Static.fresh visited frontier -> ~ In href visited ->
  Static.fresh visited (set_add href frontier).
Proof.
  intros [Hnd Hout] Hnew. unfold set_add.
  destruct (mem href frontier) eqn:E; [now split |].
  apply mem_false_iff in E. split.
  - apply NoDup_app; [exact Hnd | repeat constructor; intros [] | ].
    intros x Hx [<- | []]. contradiction.
  - intros u Hin. apply in_app_or in Hin as [Hin | [<- | []]]; auto.
Qed.

Lemma add_link_fresh (base : string) (visited : list string) (link : json)
  (frontier frontier' : list string) :
  Static.add_link urljoin base visited link frontier = Ok frontier' ->
  Static.fresh visited frontier -> Static.fresh visited frontier'.
Proof.
  unfold Static.add_link. intros H Hf.
  destruct (py_get link "rel" JNull) as [rel |]; cbn [bind] in H; [| discriminate].
  destruct (str_in rel _).
  - destruct (py_get link "href" (JStr "")) as [h |]; cbn [bind] in H; [| discriminate].
    destruct (py_urljoin urljoin base h) as [href |]; cbn [bind] in H; [| discriminate].
    destruct (nonempty href && negb (mem href visited)) eqn:E;
      inversion H; subst; [| exact Hf].
    apply andb_prop in E as [_ E]. apply negb_true_iff in E.
    apply set_add_fresh; [exact Hf | now apply mem_false_iff].
  - inversion H; subst. exact Hf.
Qed.

Lemma foreach_add_link_fresh (base : string) (visited : list string)
  (links : list json) :
  forall frontier frontier',
    foreach (Static.add_link urljoin base visited) links frontier = Ok frontier' ->
    Static.fresh visited frontier -> Static.fresh visited frontier'.
Proof.
  induction links as [| link rest IH]; intros frontier frontier' H Hf; simpl in H.
  - inversion H; subst. exact Hf.
  - destruct (Static.add_link urljoin base visited link frontier) as [f1 |] eqn:E;
      simpl in H; [| discriminate].
    eapply IH; [exact H |]. eapply add_link_fresh; eassumption.
Qed.

Lemma process_result_fresh (visited : list string) (res : response)
  (acc acc' : list json * list string) :
  Static.process_result urljoin visited res acc = Ok acc' ->
  Static.fresh visited (snd acc) -> Static.fresh visited (snd acc').
Proof.
  unfold Static.process_result, Static.process_body. intros H Hf.
  destruct res as [name | u code b]; [inversion H; subst; exact Hf |].
  destruct (res_json b) as [data |]; simpl in H;
    [| destruct e; inversion H; subst; exact Hf].
  destruct (Static.is_catalog data) as [c |]; simpl in H;
    [| destruct e; inversion H; subst; exact Hf].
  destruct (py_get data "links" (JArr [])) as [l |]; simpl in H;
    [| destruct e; inversion H; subst; exact Hf].
  destruct (py_iter l) as [links |]; simpl in H;
    [| destruct e; inversion H; subst; exact Hf].
  destruct (foreach _ links (snd acc)) as [nl |] eqn:E; simpl in H;
    [| destruct e; inversion H; subst; exact Hf].
  inversion H; subst. simpl.
  eapply foreach_add_link_fresh; eassumption.
Qed.

Lemma foreach_process_fresh (visited : list string) (results : list response) :
  forall acc acc',
    foreach (Static.process_result urljoin visited) results acc = Ok acc' ->
    Static.fresh visited (snd acc) -> Static.fresh visited (snd acc').
Proof.
  induction results as [| res rest IH]; intros acc acc' H Hf; simpl in H.
  - inversion H; subst. exact Hf.
  - destruct (Static.process_result urljoin visited res acc) as [acc1 |] eqn:E;
      simpl in H; [| discriminate].
    eapply IH; [exact H |]. eapply process_result_fresh; eassumption.
Qed.

Lemma requests_level (st : Static.state) :
  Static.requests (fst (level st)) =
  Static.requests st ++ set_order (Static.to_fetch st).
Proof.
  unfold Static.requests. rewrite level_levels, map_app, concat_app.
  simpl. now rewrite app_nil_r.
Qed.

Lemma level_once (st : Static.state) :
  Static.once st -> Static.fresh (Static.visited st) (Static.to_fetch st) ->
  Static.once (fst (level st)).
Proof.
  intros [Hnd Hincl] [Hfnd Hfout]. unfold Static.once.
  rewrite requests_level, level_visited. split.
  - apply NoDup_app.
    + exact Hnd.
    + apply (Permutation_NoDup (Permutation_sym (set_order_perm _))). exact Hfnd.
    + intros u Hreq Hord. apply (Hfout u).
      * apply (Permutation_in _ (set_order_perm _)). exact Hord.
      * now apply Hincl.
  - intros u Hin. apply in_app_or in Hin as [Hin | Hin]; apply in_or_app.
    + left. now apply Hincl.
    + right. apply (Permutation_in _ (set_order_perm _)). exact Hin.
Qed.

Lemma level_next_fresh (st st' : Static.state) :
  level st = (st', None) ->
  Static.fresh (Static.visited st') (Static.to_fetch st').
Proof.
  unfold Static.level.
  destruct (foreach _ _ _) as [[cs nl] |] eqn:E; intros H; inversion H; subst.
  simpl. apply foreach_process_fresh in E; [exact E |].
  split; [constructor | intros u []].
Qed.

Lemma loop_once (max_depth hard_limit : Z) (fuel : nat) (st : Static.state) :
  Static.once st -> Static.fresh (Static.visited st) (Static.to_fetch st) ->
  NoDup (Static.requests (fst (loop fuel max_depth hard_limit st))).
Proof.
  intros Ho Hf.
  apply (loop_rule fetch urljoin set_order
           (fun s => Static.once s /\ Static.fresh (Static.visited s) (Static.to_fetch s))
           (fun s => NoDup (Static.requests s)) max_depth hard_limit).
  - clear st Ho Hf. intros st [Ho Hf] _.
    pose proof (level_once st Ho Hf) as Hnext.
    destruct (level st) as [st' [e |]] eqn:E; simpl in Hnext.
    + apply Hnext.
    + split; [exact Hnext | now apply (level_next_fresh st)].
  - intros s [[Hnd _] _]. exact Hnd.
  - split; assumption.
Qed.

Lemma static_requests_nodup (start_url : string) (params : plan_entry) :
  NoDup (Static.requests
           (fst (Static.harvest_static_catalog fetch urljoin set_order
                   start_url params))).
Proof.
  rewrite harvest_static_final. apply loop_once.
  - split; [constructor | intros u []].
  - split; [repeat constructor; intros [] | intros u _ []].
Qed.

End StaticVisitedOnce.

(** ** Stateful statements: what a statement keeps true *)

Section Keeps.

Context {S : Type}.

Lemma keeps_ret {A : Type} (P : S -> Prop) (a : A) : keeps P (mret a).
Proof. intros s Hs. exact Hs. Qed.

Lemma keeps_lift {A : Type} (P : S -> Prop) (r : result A) : keeps P (lift r).
Proof. intros s Hs. exact Hs. Qed.

Lemma keeps_gets {A : Type} (P : S -> Prop) (f : S -> A) : keeps P (gets f).
Proof. intros s Hs. exact Hs. Qed.

Lemma keeps_modify (P : S -> Prop) (f : S -> S) :
  (forall s, P s -> P (f s)) -> keeps P (modify f).
Proof. intros Hf s Hs. now apply Hf. Qed.

Lemma keeps_bind {A B : Type} (P : S -> Prop) (m : M S A) (k : A -> M S B) :
  keeps P m -> (forall a, keeps P (k a)) -> keeps P (mbind m k).
Proof.
  intros Hm Hk s Hs. unfold mbind. specialize (Hm s Hs).
  destruct (m s) as [s' [a | e]]; simpl in *; [now apply Hk | exact Hm].
Qed.

Lemma keeps_gets_bind {A B : Type} (P : S -> Prop) (f : S -> A) (k : A -> M S B) :
  (forall s, P s -> P (fst (k (f s) s))) -> keeps P (mbind (gets f) k).
Proof. intros Hk s Hs. unfold mbind, gets. now apply Hk. Qed.

Lemma keeps_when (P : S -> Prop) (c : bool) (m : M S unit) :
  keeps P m -> keeps P (when c m).
Proof. intros Hm. destruct c; [exact Hm | apply keeps_ret]. Qed.

Lemma keeps_foreach {X : Type} (P : S -> Prop) (xs : list X) (body : X -> M S unit) :
  (forall x, keeps P (body x)) -> keeps P (mforeach xs body).
Proof.
  intros Hb. induction xs as [| x rest IH]; simpl.
  - apply keeps_ret.
  - apply keeps_bind; [apply Hb | intros _; exact IH].
Qed.

End Keeps.

(** ** The worker *)

Section WorkerFacts.

Variable fetch : string -> response.
Variable urljoin : string -> string -> option string.

Abbreviation visit := (Dynamic.visit fetch urljoin).
Abbreviation wloop := (Dynamic.loop fetch urljoin).

Lemma wloop_rule (I : Dynamic.wstate -> Prop) :
  (forall url rest st,
      I st -> Dynamic.queue st = url :: rest ->
      Dynamic.limit_reached st = false ->
      I (fst (visit url (Dynamic.dequeue url rest st)))) ->
  forall fuel st, I st -> I (fst (wloop fuel st)).
Proof.
  intros Hstep fuel. induction fuel as [| fuel IH]; intros st HI; simpl.
  - exact HI.
  - destruct (Dynamic.queue st) as [| url rest] eqn:Hq; [exact HI |].
    destruct (Dynamic.limit_reached st) eqn:Hl; [exact HI |].
    apply IH. now apply Hstep.
Qed.

(** The worker never raises. *)
Lemma wloop_never_raises (fuel : nat) (st : Dynamic.wstate) (e : exn) :
  snd (wloop fuel st) <> Raised e.
Proof.
  revert st. induction fuel as [| fuel IH]; intros st; simpl; [discriminate |].
  destruct (Dynamic.queue st); [discriminate |].
  destruct (Dynamic.limit_reached st); [discriminate | apply IH].
Qed.

(** More fuel changes nothing for a loop that ended. *)
Lemma wloop_more_fuel (fuel more : nat) :
  forall st,
    snd (wloop fuel st) = Returned tt ->
    wloop (fuel + more) st = wloop fuel st.
Proof.
  induction fuel as [| fuel IH]; intros st H; simpl in *; [discriminate |].
  destruct (Dynamic.queue st); [reflexivity |].
  destruct (Dynamic.limit_reached st); [reflexivity | now apply IH].
Qed.

Lemma worker_final (fuel : nat) (start_url : string) :
  fst (Dynamic._dynamic_worker fetch urljoin fuel start_url) =
  fst (wloop fuel (Dynamic.initial start_url)).
Proof.
  unfold Dynamic._dynamic_worker.
  destruct (wloop fuel _) as [st [u | e |]]; reflexivity.
Qed.

(** *** Statements that leave the queue alone *)

Lemma store_keeps_crawl (P : Dynamic.wstate -> Prop) (k v : json) :
  (forall st f, P st -> P (Dynamic.set_unique f st)) ->
  keeps P (Dynamic.store k v).
Proof.
  intros HP. unfold Dynamic.store. destruct (hashable k).
  - apply keeps_modify. intros s. apply HP.
  - apply keeps_lift.
Qed.

Lemma store_if_id_keeps (P : Dynamic.wstate -> Prop) (item : json) :
  (forall st f, P st -> P (Dynamic.set_unique f st)) ->
  keeps P (Dynamic.store_if_id item).
Proof.
  intros HP. unfold Dynamic.store_if_id.
  destruct item; try apply keeps_ret.
  destruct (dict_get fields "id"); [now apply store_keeps_crawl | apply keeps_ret].
Qed.

Lemma read_collections_keeps (P : Dynamic.wstate -> Prop) (data : json) :
  (forall st f, P st -> P (Dynamic.set_unique f st)) ->
  (forall st n, P st -> P (Dynamic.set_limit n st)) ->
  keeps P (Dynamic.read_collections data).
Proof.
  intros HPu HPl. unfold Dynamic.read_collections.
  apply keeps_bind; [apply keeps_lift |]. intros [|]; [| apply keeps_ret].
  apply keeps_bind; [apply keeps_lift |]. intros c.
  destruct c; try apply keeps_ret.
  apply keeps_bind; [apply keeps_gets |]. intros limit.
  apply keeps_bind.
  - apply keeps_when, keeps_modify. intros s. apply HPl.
  - intros _. apply keeps_foreach. intros x. now apply store_if_id_keeps.
Qed.

Lemma read_self_keeps (P : Dynamic.wstate -> Prop) (data : json) :
  (forall st f, P st -> P (Dynamic.set_unique f st)) ->
  keeps P (Dynamic.read_self data).
Proof.
  intros HPu. unfold Dynamic.read_self.
  apply keeps_bind; [apply keeps_lift |]. intros t.
  destruct (is_str t "Collection"); [| apply keeps_ret].
  apply keeps_bind; [apply keeps_lift |]. intros [|]; [| apply keeps_ret].
  apply keeps_bind; [apply keeps_lift |]. intros k.
  now apply store_keeps_crawl.
Qed.

(** *** No URL is requested twice by one worker *)

Lemma enqueue_once (href : string) (st : Dynamic.wstate) :
  Dynamic.queued_once st -> ~ In href (Dynamic.visited st) ->
  Dynamic.queued_once (Dynamic.enqueue href st).
Proof.
  intros [Hnd Hincl] Hnew. unfold Dynamic.queued_once, Dynamic.enqueue. simpl.
  rewrite app_assoc. split.
  - apply NoDup_app; [exact Hnd | repeat constructor; intros [] |].
    intros x Hx [<- | []]. apply Hnew. now apply Hincl.
  - intros u Hin. apply in_app_or in Hin as [Hin | Hin]; apply in_or_app.
    + left. now apply Hincl.
    + now right.
Qed.

Lemma follow_link_once (url : string) (link : json) :
  keeps Dynamic.queued_once (Dynamic.follow_link urljoin url link).
Proof.
  unfold Dynamic.follow_link.
  apply keeps_bind; [apply keeps_lift |]. intros rel.
  destruct (str_in rel _); [| apply keeps_ret].
  apply keeps_bind; [apply keeps_lift |]. intros h.
  apply keeps_bind; [apply keeps_lift |]. intros href.
  apply keeps_gets_bind. intros s Hs.
  destruct (nonempty href && negb (mem href (Dynamic.visited s))
            && negb (endswith href ".json")) eqn:E; simpl; [| exact Hs].
  apply andb_prop in E as [E _]. apply andb_prop in E as [_ E].
  apply negb_true_iff, mem_false_iff in E. now apply enqueue_once.
Qed.

Lemma visit_once (url : string) : keeps Dynamic.queued_once (visit url).
Proof.
  unfold Dynamic.visit.
  apply keeps_bind; [apply keeps_lift |]. intros res.
  apply keeps_bind; [apply keeps_lift |]. intros _.
  apply keeps_bind; [apply keeps_lift |]. intros data.
  apply keeps_bind; [| intros _; apply keeps_bind].
  - apply read_collections_keeps; intros st f H; exact H.
  - apply read_self_keeps; intros st f H; exact H.
  - intros _. unfold Dynamic.follow_links.
    apply keeps_bind; [apply keeps_lift |]. intros l.
    apply keeps_bind; [apply keeps_lift |]. intros links.
    apply keeps_foreach. intros link. apply follow_link_once.
Qed.

Lemma dequeue_once (url : string) (rest : list string) (st : Dynamic.wstate) :
  Dynamic.queued_once st -> Dynamic.queue st = url :: rest ->
  Dynamic.queued_once (Dynamic.dequeue url rest st).
Proof.
  unfold Dynamic.queued_once, Dynamic.dequeue. simpl. intros H Hq.
  rewrite Hq in H. rewrite <- app_assoc. exact H.
Qed.

Lemma worker_requests_nodup (fuel : nat) (start_url : string) :
  NoDup (Dynamic.fetched (fst (Dynamic._dynamic_worker fetch urljoin fuel start_url))).
Proof.
  rewrite worker_final.
  assert (H : Dynamic.queued_once (fst (wloop fuel (Dynamic.initial start_url)))).
  { apply wloop_rule.
    - intros url rest st HI Hq _. apply visit_once. now apply dequeue_once.
    - split; simpl.
      + repeat constructor. intros [].
      + apply incl_refl. }
  destruct H as [Hnd _]. now apply NoDup_app_remove_r in Hnd.
Qed.

End WorkerFacts.

(** ** The Paginated/Federated engine *)

Section EngineFacts.

Variable fetch : string -> response.
Variable urljoin : string -> string -> option string.

Abbreviation worker := (Dynamic._dynamic_worker fetch urljoin).
Abbreviation crawl_children := (Dynamic.crawl_children fetch urljoin).
Abbreviation extend_with_worker := (Dynamic.extend_with_worker fetch urljoin).
Abbreviation harvest_dynamic_catalog :=
  (Dynamic.harvest_dynamic_catalog fetch urljoin).
Abbreviation worker_result := (Dynamic.worker_result fetch urljoin).
Abbreviation worker_log := (Dynamic.worker_log fetch urljoin).
Abbreviation halts := (Dynamic.halts fetch urljoin).
Abbreviation qualifying := (Dynamic.qualifying urljoin).
Abbreviation sub_roots := (Dynamic.sub_roots urljoin).
Abbreviation resolved := (Dynamic.resolved urljoin).
Abbreviation resolves := (Dynamic.resolves urljoin).

Lemma worker_never_raises (fuel : nat) (root : string) (e : exn) :
  snd (worker fuel root) <> Raised e.
Proof.
  unfold Dynamic._dynamic_worker.
  pose proof (wloop_never_raises fetch urljoin fuel (Dynamic.initial root)) as H.
  destruct (Dynamic.loop _ _ _ _) as [st [u | e' |]]; simpl in *;
    [discriminate | exfalso; now apply (H e') | discriminate].
Qed.

Lemma worker_more_fuel (fuel more : nat) (root : string) :
  halts fuel root -> worker (fuel + more) root = worker fuel root.
Proof.
  unfold Dynamic.halts, Dynamic._dynamic_worker. intros Hh.
  pose proof (wloop_more_fuel fetch urljoin fuel more (Dynamic.initial root)) as Hm.
  pose proof (wloop_never_raises fetch urljoin fuel (Dynamic.initial root)) as Hr.
  destruct (Dynamic.loop fetch urljoin fuel (Dynamic.initial root))
    as [st [[] | e |]]; simpl in *.
  - now rewrite Hm.
  - exfalso. now apply (Hr e).
  - contradiction.
Qed.

Lemma extend_halting (fuel : nat) (root : string) (st : Dynamic.dstate) :
  halts fuel root ->
  extend_with_worker fuel root st =
  (Dynamic.mk_dstate (Dynamic.collections st ++ worker_result fuel root)
                     (Dynamic.crawl_notes st)
                     (Dynamic.requests st ++ worker_log fuel root)
                     (Dynamic.invoked st ++ [root]),
   Returned tt).
Proof.
  unfold Dynamic.halts, Dynamic.extend_with_worker, Dynamic.worker_result, Dynamic.worker_log.
  intros Hh. pose proof (worker_never_raises fuel root) as Hr.
  destruct (worker fuel root) as [w [found | e |]]; simpl in *.
  - reflexivity.
  - exfalso. now apply (Hr e).
  - contradiction.
Qed.

Lemma extend_never_raises (fuel : nat) (root : string) (st : Dynamic.dstate)
  (e : exn) :
  snd (extend_with_worker fuel root st) <> Raised e.
Proof.
  unfold Dynamic.extend_with_worker.
  pose proof (worker_never_raises fuel root) as Hr.
  destruct (worker fuel root) as [w [found | e' |]]; simpl in *;
    [discriminate | exfalso; now apply (Hr e') | discriminate].
Qed.

(** *** Phase A on a well-formed root *)

Lemma link_ok_rel (l : json) :
  link_ok l = true -> py_get l "rel" JNull = Ok (rel_of l).
Proof.
  destruct l; simpl; try discriminate. reflexivity.
Qed.

Lemma link_ok_href (l : json) :
  link_ok l = true -> py_get l "href" (JStr "") = Ok (JStr (href_of l)).
Proof.
  destruct l; simpl; try discriminate.
  destruct (dict_get fields "href") as [[] |]; try discriminate; reflexivity.
Qed.

Lemma keep_child_filter (links : list json) :
  forallb link_ok links = true ->
  forall acc,
    foreach Dynamic.keep_child links acc = Ok (acc ++ filter is_child links).
Proof.
  induction links as [| l rest IH]; intros Hok acc; simpl.
  - now rewrite app_nil_r.
  - simpl in Hok. apply andb_prop in Hok as [Hl Hrest].
    unfold Dynamic.keep_child at 1. rewrite (link_ok_rel l Hl). cbn [bind].
    unfold is_child at 1.
    destruct (is_str (rel_of l) "child").
    + rewrite (IH Hrest). now rewrite <- app_assoc.
    + now apply IH.
Qed.

Lemma any_master_exists (links : list json) :
  forallb link_ok links = true ->
  Dynamic.any_master links = Ok (existsb is_master links).
Proof.
  induction links as [| l rest IH]; intros Hok; simpl.
  - reflexivity.
  - simpl in Hok. apply andb_prop in Hok as [Hl Hrest].
    rewrite (link_ok_href l Hl). cbn [bind Dynamic.py_endswith].
    fold (is_master l). destruct (is_master l); [reflexivity | now apply IH].
Qed.

Lemma doc_links_iter (fields : list (string * json)) (links : list json) :
  doc_links fields = Some links ->
  (l <- py_get (JObj fields) "links" (JArr []) ;; py_iter l) = Ok links.
Proof.
  unfold doc_links, py_get.
  destruct (dict_get fields "links") as [[] |]; intros H; inversion H; reflexivity.
Qed.

Lemma phase_a_well_formed (start_url u : string) (code : Z)
  (fields : list (string * json)) (links : list json) :
  fetch start_url = Resp u code (Json (JObj fields)) ->
  200 <= code <= 299 ->
  doc_links fields = Some links ->
  forallb link_ok links = true ->
  Dynamic.phase_a fetch start_url =
  Ok (filter is_child links, existsb is_master links).
Proof.
  intros Hresp Hcode Hlinks Hok.
  unfold Dynamic.phase_a, Dynamic.client_get. rewrite Hresp. cbn [bind fst snd].
  unfold raise_for_status.
  replace ((200 <=? code) && (code <=? 299)) with true
    by (symmetry; apply andb_true_intro; split; apply Z.leb_le; lia).
  cbn [bind res_json].
  unfold Dynamic.child_links, Dynamic.has_master.
  pose proof (doc_links_iter fields links Hlinks) as Hiter.
  unfold bind in Hiter |- *.
  destruct (py_get (JObj fields) "links" (JArr [])) as [l |]; [| discriminate].
  rewrite Hiter.
  rewrite (keep_child_filter links Hok []). simpl.
  rewrite (any_master_exists links Hok). reflexivity.
Qed.

Lemma is_federated_spec (links : list json) :
  Dynamic.is_federated (filter is_child links) (existsb is_master links)
  = federated links.
Proof.
  unfold Dynamic.is_federated, federated. f_equal.
  induction links as [| l rest IH]; simpl; [reflexivity |].
  destruct (is_child l); simpl; [reflexivity | exact IH].
Qed.

(** *** The federated loop *)

Lemma resolves_tail (start_url : string) (l : json) (rest : list json) :
  resolves start_url (l :: rest) -> resolves start_url rest.
Proof.
  intros H x Hx. apply H. now right.
Qed.

Lemma resolved_cons (start_url href : string) (l : json) (rest : list json) :
  urljoin start_url (href_of l) = Some href ->
  resolved start_url (l :: rest) =
  if nonempty href && negb (endswith href ".json")
  then href :: resolved start_url rest
  else resolved start_url rest.
Proof.
  intros Hj. unfold Dynamic.resolved. cbn [flat_map].
  unfold Dynamic.join_href at 1. rewrite Hj. reflexivity.
Qed.

Lemma crawl_children_halting (fuel : nat) (start_url : string) (links : list json) :
  forallb link_ok links = true ->
  resolves start_url links ->
  (forall root, In root (resolved start_url links) -> halts fuel root) ->
  forall st,
    crawl_children fuel start_url links st =
    (Dynamic.mk_dstate
       (Dynamic.collections st
          ++ flat_map (worker_result fuel) (resolved start_url links))
       (Dynamic.crawl_notes st)
       (Dynamic.requests st
          ++ flat_map (worker_log fuel) (resolved start_url links))
       (Dynamic.invoked st ++ resolved start_url links),
     Returned tt).
Proof.
  induction links as [| l rest IH]; intros Hok Hres Hhalt st.
  - simpl. rewrite !app_nil_r. now destruct st.
  - simpl in Hok. apply andb_prop in Hok as [Hl Hrest].
    destruct (Hres l (or_introl eq_refl)) as [href [Hj _]].
    cbn [Dynamic.crawl_children].
    rewrite (link_ok_href l Hl). cbn [bind py_urljoin]. rewrite Hj.
    rewrite (resolved_cons start_url href l rest Hj) in *.
    apply resolves_tail in Hres.
    destruct (nonempty href && negb (endswith href ".json")) eqn:E.
    + rewrite extend_halting by (apply Hhalt; now left).
      rewrite IH; [| exact Hrest | exact Hres | intros root Hin; apply Hhalt; now right].
      simpl. now rewrite <- !app_assoc.
    + now apply IH.
Qed.

(** The loop calls the worker on the resolved links in their order, and
    stops where a call does not return or a link does not resolve. *)
Lemma crawl_children_prefix (fuel : nat) (start_url : string) (links : list json) :
  forallb link_ok links = true ->
  forall st,
    exists called rest,
      Dynamic.invoked (fst (crawl_children fuel start_url links st))
      = Dynamic.invoked st ++ called
      /\ resolved start_url links = called ++ rest.
Proof.
  induction links as [| l tl IH]; intros Hok st.
  - exists [], []. simpl. now rewrite app_nil_r.
  - simpl in Hok. apply andb_prop in Hok as [Hl Htl].
    cbn [Dynamic.crawl_children].
    rewrite (link_ok_href l Hl). cbn [bind py_urljoin].
    destruct (urljoin start_url (href_of l)) as [href |] eqn:Hj.
    + rewrite (resolved_cons start_url href l tl Hj).
      destruct (nonempty href && negb (endswith href ".json")).
      * pose proof (extend_never_raises fuel href st) as Hr.
        assert (Hinv : Dynamic.invoked (fst (extend_with_worker fuel href st))
                       = Dynamic.invoked st ++ [href]).
        { unfold Dynamic.extend_with_worker.
          destruct (worker fuel href) as [w [found | e |]]; reflexivity. }
        destruct (extend_with_worker fuel href st) as [st1 [u | e |]];
          cbn [fst snd] in *.
        -- destruct (IH Htl st1) as [called [rest [Hi Hre]]].
           exists (href :: called), rest. rewrite Hi, Hinv, Hre, <- app_assoc.
           split; reflexivity.
        -- exists [href], (resolved start_url tl). now split.
        -- exists [href], (resolved start_url tl). now split.
      * apply (IH Htl).
    + exists [], (resolved start_url (l :: tl)). cbn [fst].
      now rewrite app_nil_r.
Qed.

(** The loop raises only where [urljoin] raised on the [href] of a link. *)
Lemma crawl_children_raised (fuel : nat) (start_url : string)
  (links : list json) (e : exn) :
  forallb link_ok links = true ->
  forall st,
    snd (crawl_children fuel start_url links st) = Raised e ->
    e = ValueError
    /\ exists l, In l links /\ urljoin start_url (href_of l) = None.
Proof.
  induction links as [| l rest IH]; intros Hok st; simpl; [discriminate |].
  simpl in Hok. apply andb_prop in Hok as [Hl Hrest].
  rewrite (link_ok_href l Hl). cbn [bind py_urljoin].
  destruct (urljoin start_url (href_of l)) as [href |] eqn:Hj.
  - assert (Hgo : forall st', snd (crawl_children fuel start_url rest st') = Raised e ->
                    e = ValueError
                    /\ exists l0, In l0 (l :: rest)
                                  /\ urljoin start_url (href_of l0) = None).
    { intros st' H. destruct (IH Hrest st' H) as [He [l0 [Hin H0]]].
      split; [exact He |]. exists l0. split; [now right | exact H0]. }
    destruct (nonempty href && negb (endswith href ".json")); [| apply Hgo].
    pose proof (extend_never_raises fuel href st) as Hr.
    destruct (extend_with_worker fuel href st) as [st' [u | e'' |]]; simpl in *.
    + apply Hgo.
    + intros _. exfalso. now apply (Hr e'').
    + discriminate.
  - simpl. intros H. inversion H; subst. split; [reflexivity |].
    exists l. split; [now left | exact Hj].
Qed.

(** A link that does not resolve ends the loop with the exception, unless a
    call before it did not return. *)
Lemma crawl_children_unresolved (fuel : nat) (start_url : string)
  (links : list json) :
  forallb link_ok links = true ->
  (exists l, In l links /\ urljoin start_url (href_of l) = None) ->
  forall st,
    snd (crawl_children fuel start_url links st) <> Returned tt.
Proof.
  induction links as [| l rest IH]; intros Hok [l0 [Hin Hj]] st;
    [destruct Hin |].
  simpl in Hok. apply andb_prop in Hok as [Hl Hrest].
  cbn [Dynamic.crawl_children].
  rewrite (link_ok_href l Hl). cbn [bind py_urljoin].
  destruct (urljoin start_url (href_of l)) as [href |] eqn:Hl0;
    [| simpl; discriminate].
  assert (Hrest' : exists l, In l rest /\ urljoin start_url (href_of l) = None).
  { destruct Hin as [<- | Hin]; [congruence |]. now exists l0. }
  destruct (nonempty href && negb (endswith href ".json")); [| now apply IH].
  destruct (extend_with_worker fuel href st) as [st' [u | e'' |]]; simpl;
    [now apply IH | discriminate | discriminate].
Qed.

Lemma resolved_qualifying (start_url : string) (links : list json) :
  resolves start_url (filter is_child links) ->
  resolved start_url (filter is_child links) = qualifying start_url links.
Proof.
  intros Hne. unfold Dynamic.resolved, Dynamic.qualifying.
  apply filter_ext_in. intros href Hin.
  apply in_flat_map in Hin as [l [Hl Hin]].
  destruct (Hne l Hl) as [h [Hj Hh]].
  unfold Dynamic.join_href in Hin. rewrite Hj in Hin.
  destruct Hin as [<- | []].
  destruct h; [contradiction | reflexivity].
Qed.

Lemma forallb_filter (f g : json -> bool) (l : list json) :
  forallb f l = true -> forallb f (filter g l) = true.
Proof.
  rewrite !forallb_forall. intros H x Hin.
  apply filter_In in Hin as [Hin _]. now apply H.
Qed.

Lemma sub_roots_branches (start_url : string) (links : list json) :
  (existsb is_child links = true -> existsb is_master links = false ->
   sub_roots start_url links = qualifying start_url links)
  /\ (existsb is_child links = false \/ existsb is_master links = true ->
      sub_roots start_url links = [start_url]).
Proof.
  unfold Dynamic.sub_roots, federated. split.
  - intros -> ->. reflexivity.
  - intros [-> | ->]; [reflexivity |]. now rewrite andb_false_r.
Qed.

Lemma dynamic_run_well_formed (fuel : nat) (start_url u : string)
  (code : Z) (fields : list (string * json)) (links : list json)
  (params : plan_entry) :
  fetch start_url = Resp u code (Json (JObj fields)) ->
  200 <= code <= 299 ->
  doc_links fields = Some links ->
  forallb link_ok links = true ->
  resolves start_url (filter is_child links) ->
  (forall root, In root (sub_roots start_url links) -> halts fuel root) ->
  let out := harvest_dynamic_catalog fuel start_url params in
  Dynamic.invoked (fst out) = sub_roots start_url links
  /\ snd out = Returned (Some (flat_map (worker_result fuel)
                                        (sub_roots start_url links),
                              [Dynamic.branch_note links])).
Proof.
  intros Hresp Hcode Hlinks Hok Hne Hhalt out.
  subst out. unfold Dynamic.harvest_dynamic_catalog.
  rewrite (phase_a_well_formed start_url u code fields links Hresp Hcode Hlinks Hok).
  rewrite is_federated_spec.
  unfold Dynamic.sub_roots, Dynamic.branch_note in *.
  destruct (federated links) eqn:Hfed.
  - rewrite <- (resolved_qualifying start_url links Hne) in *.
    rewrite crawl_children_halting;
      [simpl; split; reflexivity | now apply forallb_filter
       | exact Hne | exact Hhalt].
  - rewrite extend_halting by (apply Hhalt; now left).
    simpl. rewrite app_nil_r. split; reflexivity.
Qed.

(** Whether the calls return or not, the roots the worker was called on are
    an initial part of [sub_roots]. *)
Lemma dynamic_run_prefix (fuel : nat) (start_url u : string)
  (code : Z) (fields : list (string * json)) (links : list json)
  (params : plan_entry) :
  fetch start_url = Resp u code (Json (JObj fields)) ->
  200 <= code <= 299 ->
  doc_links fields = Some links ->
  forallb link_ok links = true ->
  resolves start_url (filter is_child links) ->
  exists rest,
    sub_roots start_url links =
    Dynamic.invoked (fst (harvest_dynamic_catalog fuel start_url params)) ++ rest.
Proof.
  intros Hresp Hcode Hlinks Hok Hne.
  unfold Dynamic.harvest_dynamic_catalog.
  rewrite (phase_a_well_formed start_url u code fields links Hresp Hcode Hlinks Hok).
  rewrite is_federated_spec.
  unfold Dynamic.sub_roots.
  destruct (federated links) eqn:Hfed.
  - rewrite <- (resolved_qualifying start_url links Hne).
    match goal with
    | |- context [crawl_children fuel start_url ?cl ?s] =>
        destruct (crawl_children_prefix fuel start_url cl
                    (forallb_filter link_ok is_child links Hok) s)
          as [called [rest [Hi Hre]]];
        destruct (crawl_children fuel start_url cl s) as [st [x | e |]]
    end; cbn [fst snd] in *; simpl in Hi; rewrite Hi; now exists rest.
  - match goal with
    | |- context [extend_with_worker fuel start_url ?s] =>
        assert (Hi : Dynamic.invoked (fst (extend_with_worker fuel start_url s))
                     = [start_url])
          by (unfold Dynamic.extend_with_worker;
              destruct (worker fuel start_url) as [w [found | e |]]; reflexivity);
        destruct (extend_with_worker fuel start_url s) as [st [x | e |]]
    end; cbn [fst snd] in *; rewrite Hi; now exists [].
Qed.

(** *** Which requests the engine makes *)

Lemma extend_log (fuel : nat) (root : string) (st : Dynamic.dstate) :
  let st' := fst (extend_with_worker fuel root st) in
  Dynamic.requests st' = Dynamic.requests st ++ worker_log fuel root
  /\ Dynamic.invoked st' = Dynamic.invoked st ++ [root].
Proof.
  unfold Dynamic.extend_with_worker, Dynamic.worker_log.
  destruct (worker fuel root) as [w [found | e |]]; simpl; split; reflexivity.
Qed.

Lemma crawl_children_log (fuel : nat) (start_url : string) (links : list json) :
  forall st,
    let st' := fst (crawl_children fuel start_url links st) in
    exists called,
      Dynamic.invoked st' = Dynamic.invoked st ++ called
      /\ Dynamic.requests st' =
         Dynamic.requests st ++ flat_map (worker_log fuel) called.
Proof.
  induction links as [| l rest IH]; intros st; simpl.
  - exists []. simpl. now rewrite !app_nil_r.
  - destruct (h <- py_get l "href" (JStr "") ;; py_urljoin urljoin start_url h)
      as [href |]; simpl.
    + destruct (nonempty href && negb (endswith href ".json")).
      * destruct (extend_log fuel href st) as [Hreq Hinv].
        destruct (extend_with_worker fuel href st) as [st1 [u | e |]] eqn:E;
          simpl in *.
        -- destruct (IH st1) as [called [Hi Hr]].
           exists (href :: called). simpl.
           rewrite Hi, Hr, Hinv, Hreq, <- !app_assoc. split; reflexivity.
        -- exists [href]. simpl. rewrite app_nil_r. now split.
        -- exists [href]. simpl. rewrite app_nil_r. now split.
      * apply IH.
    + exists []. simpl. now rewrite !app_nil_r.
Qed.

(** The engine requests its root, then whatever each worker call requests. *)
Lemma dynamic_requests (fuel : nat) (start_url : string) (params : plan_entry) :
  let st := fst (harvest_dynamic_catalog fuel start_url params) in
  Dynamic.requests st =
  start_url :: flat_map (worker_log fuel) (Dynamic.invoked st).
Proof.
  unfold Dynamic.harvest_dynamic_catalog.
  destruct (Dynamic.phase_a fetch start_url) as [[cl hm] |]; [| reflexivity].
  destruct (Dynamic.is_federated cl hm).
  - match goal with
    | |- context [crawl_children fuel start_url cl ?s] =>
        destruct (crawl_children_log fuel start_url cl s) as [called [Hi Hr]];
        destruct (crawl_children fuel start_url cl s) as [st [x | e |]]
    end; simpl in *; rewrite Hi, Hr; reflexivity.
  - match goal with
    | |- context [extend_with_worker fuel start_url ?s] =>
        destruct (extend_log fuel start_url s) as [Hr Hi];
        destruct (extend_with_worker fuel start_url s) as [st [x | e |]]
    end; simpl in *; rewrite Hi, Hr; simpl; now rewrite app_nil_r.
Qed.

End EngineFacts.

(** ** Dict keys *)

Lemma key_eqb_sym (a b : json) : key_eqb a b = key_eqb b a.
Proof.
  destruct a, b; simpl; try reflexivity.
  - now destruct b, b0.
  - apply Z.eqb_sym.
  - apply String.eqb_sym.
Qed.

Lemma key_eqb_trans (a b c : json) :
  key_eqb a b = true -> key_eqb b c = true -> key_eqb a c = true.
Proof.
  destruct a, b, c; simpl; try discriminate; try reflexivity;
    rewrite ?Z.eqb_eq, ?String.eqb_eq, ?Bool.eqb_true_iff;
    try congruence;
    repeat match goal with b : bool |- _ => destruct b end; lia.
Qed.

Lemma key_eqb_congr (a b c : json) :
  key_eqb a b = true -> key_eqb a c = key_eqb b c.
Proof.
  intros Hab. destruct (key_eqb b c) eqn:Hbc.
  - now apply (key_eqb_trans a b c).
  - destruct (key_eqb a c) eqn:Hac; [| reflexivity].
    rewrite <- Hbc. symmetry. apply (key_eqb_trans b a c); [| exact Hac].
    now rewrite key_eqb_sym.
Qed.

Lemma lookup_upsert (k k0 v : json) (d : list (json * json)) :
  lookup k0 (upsert k v d) = if key_eqb k k0 then Some v else lookup k0 d.
Proof.
  induction d as [| [k' v'] rest IH]; simpl.
  - reflexivity.
  - destruct (key_eqb k' k) eqn:E; simpl.
    + rewrite (key_eqb_congr k' k k0 E). now destruct (key_eqb k k0).
    + destruct (key_eqb k' k0) eqn:E0.
      * destruct (key_eqb k k0) eqn:E1; [exfalso | reflexivity].
        rewrite (key_eqb_sym k k0) in E1.
        rewrite (key_eqb_trans k' k0 k E0 E1) in E. discriminate.
      * exact IH.
Qed.

Lemma upsert_keys (k v : json) (d : list (json * json)) (k1 v1 : json) :
  In (k1, v1) (upsert k v d) -> (exists v0, In (k1, v0) d) \/ k1 = k.
Proof.
  induction d as [| [k' v'] rest IH]; simpl.
  - intros [H | []]. inversion H. now right.
  - destruct (key_eqb k' k); simpl.
    + intros [H | H].
      * inversion H; subst. left. exists v'. now left.
      * left. exists v1. now right.
    + intros [H | H].
      * inversion H; subst. left. exists v1. now left.
      * destruct (IH H) as [[v0 H0] | ->]; [left; exists v0; now right | now right].
Qed.

Lemma upsert_distinct (k v : json) (d : list (json * json)) :
  distinct_keys d -> distinct_keys (upsert k v d).
Proof.
  induction d as [| [k' v'] rest IH]; simpl.
  - intros _. split; [intros ? ? [] | exact I].
  - intros [Hhead Hrest]. destruct (key_eqb k' k) eqn:E; simpl.
    + split; assumption.
    + split; [| now apply IH].
      intros k1 v1 Hin. apply upsert_keys in Hin as [[v0 H0] | ->].
      * now apply (Hhead k1 v0).
      * exact E.
Qed.

(** ** The soft limit and the accumulated ids *)

Lemma lookup_apply_writes (k : json) (ws : list (json * json)) :
  forall d,
    lookup k (apply_writes ws d) =
    match last_write k ws with
    | Some v => Some v
    | None => lookup k d
    end.
Proof.
  induction ws as [| [k' v] rest IH]; intros d; simpl.
  - reflexivity.
  - unfold apply_writes in *. simpl. rewrite IH.
    destruct (last_write k rest); [reflexivity |].
    rewrite lookup_upsert. now destruct (key_eqb k' k).
Qed.

Lemma apply_writes_distinct (ws : list (json * json)) :
  forall d, distinct_keys d -> distinct_keys (apply_writes ws d).
Proof.
  unfold apply_writes.
  induction ws as [| w rest IH]; intros d Hd; simpl; [exact Hd |].
  apply IH. now apply upsert_distinct.
Qed.

Section SoftLimit.

Variable fetch : string -> response.
Variable urljoin : string -> string -> option string.

Abbreviation visit := (Dynamic.visit fetch urljoin).
Abbreviation wloop := (Dynamic.loop fetch urljoin).

Lemma store_items (items : list json) :
  ids_hashable items = true ->
  forall st,
    mforeach items Dynamic.store_if_id st =
    (Dynamic.set_unique (apply_writes (writes items)) st, Ok tt).
Proof.
  induction items as [| item rest IH]; intros Hh st; simpl.
  - now destruct st.
  - simpl in Hh. apply andb_prop in Hh as [Hitem Hrest].
    unfold mbind. unfold Dynamic.store_if_id at 1. unfold item_id in *.
    destruct item; simpl; try (now apply IH).
    destruct (dict_get fields "id") as [k |]; simpl; [| now apply IH].
    unfold Dynamic.store. rewrite Hitem. unfold modify.
    rewrite (IH Hrest). reflexivity.
Qed.

(** What the [collections] block does on a document that carries a
    sequence. *)
Lemma read_collections_list (fields : list (string * json)) (items : list json) :
  dict_get fields "collections" = Some (JArr items) ->
  ids_hashable items = true ->
  forall st,
    Dynamic.read_collections (JObj fields) st =
    (Dynamic.set_unique (apply_writes (writes items))
       (if Dynamic.dynamic_limit st =? 0
        then Dynamic.set_limit (len items) st else st),
     Ok tt).
Proof.
  intros Hget Hh st.
  unfold Dynamic.read_collections, mbind, lift, gets, py_contains, has_key,
    py_getitem, when.
  rewrite Hget.
  destruct (Dynamic.dynamic_limit st =? 0); unfold modify, mret;
    now rewrite store_items.
Qed.

Lemma follow_links_keeps (P : Dynamic.wstate -> Prop) (url : string) (data : json) :
  (forall st href, P st -> P (Dynamic.enqueue href st)) ->
  keeps P (Dynamic.follow_links urljoin url data).
Proof.
  intros HP. unfold Dynamic.follow_links.
  apply keeps_bind; [apply keeps_lift |]. intros l.
  apply keeps_bind; [apply keeps_lift |]. intros links.
  apply keeps_foreach. intros link. unfold Dynamic.follow_link.
  apply keeps_bind; [apply keeps_lift |]. intros rel.
  destruct (str_in rel _); [| apply keeps_ret].
  apply keeps_bind; [apply keeps_lift |]. intros h.
  apply keeps_bind; [apply keeps_lift |]. intros href.
  apply keeps_bind; [apply keeps_gets |]. intros seen.
  apply keeps_when, keeps_modify. intros s. apply HP.
Qed.

(** A limit that is set stays as it is. *)
Lemma visit_limit_fixed (limit : Z) (url : string) :
  limit <> 0 ->
  keeps (fun s => Dynamic.dynamic_limit s = limit) (visit url).
Proof.
  intros Hset. unfold Dynamic.visit.
  apply keeps_bind; [apply keeps_lift |]. intros res.
  apply keeps_bind; [apply keeps_lift |]. intros _.
  apply keeps_bind; [apply keeps_lift |]. intros data.
  apply keeps_bind; [| intros _; apply keeps_bind].
  - unfold Dynamic.read_collections.
    apply keeps_bind; [apply keeps_lift |]. intros [|]; [| apply keeps_ret].
    apply keeps_bind; [apply keeps_lift |]. intros c.
    destruct c; try apply keeps_ret.
    apply keeps_gets_bind. intros s Hs.
    replace (Dynamic.dynamic_limit s =? 0) with false
      by (symmetry; apply Z.eqb_neq; congruence).
    apply keeps_bind; [apply keeps_ret | | exact Hs].
    intros _. apply keeps_foreach. intros item.
    apply store_if_id_keeps. intros st f H. exact H.
  - apply read_self_keeps. intros st f H. exact H.
  - intros _. apply follow_links_keeps. intros st href H. exact H.
Qed.

Lemma wloop_limit_fixed (limit : Z) (fuel : nat) (st : Dynamic.wstate) :
  limit <> 0 -> Dynamic.dynamic_limit st = limit ->
  Dynamic.dynamic_limit (fst (wloop fuel st)) = limit.
Proof.
  intros Hset Hst.
  apply (wloop_rule fetch urljoin (fun s => Dynamic.dynamic_limit s = limit));
    [| exact Hst].
  intros url rest s Hs _ _. now apply visit_limit_fixed.
Qed.

(** The test at the head of the loop. *)
Lemma wloop_stops (fuel : nat) (st : Dynamic.wstate) :
  0 < Dynamic.dynamic_limit st ->
  Dynamic.dynamic_limit st <= len (Dynamic.unique st) ->
  wloop (S fuel) st = (st, Returned tt).
Proof.
  intros Hpos Hfull. simpl.
  destruct (Dynamic.queue st); [reflexivity |].
  unfold Dynamic.limit_reached.
  replace (0 <? Dynamic.dynamic_limit st) with true
    by (symmetry; now apply Z.ltb_lt).
  replace (Dynamic.dynamic_limit st <=? len (Dynamic.unique st)) with true
    by (symmetry; now apply Z.leb_le).
  reflexivity.
Qed.

Lemma wloop_goes_on (fuel : nat) (st : Dynamic.wstate) (url : string)
  (rest : list string) :
  Dynamic.queue st = url :: rest ->
  Dynamic.dynamic_limit st = 0 \/ len (Dynamic.unique st) < Dynamic.dynamic_limit st ->
  wloop (S fuel) st = wloop fuel (fst (visit url (Dynamic.dequeue url rest st))).
Proof.
  intros Hq Hroom. simpl. rewrite Hq. unfold Dynamic.limit_reached.
  destruct Hroom as [Hzero | Hlt].
  - rewrite Hzero. reflexivity.
  - replace (Dynamic.dynamic_limit st <=? len (Dynamic.unique st)) with false
      by (symmetry; apply Z.leb_gt; exact Hlt).
    now rewrite andb_false_r.
Qed.

End SoftLimit.

Section SoftLimitClaim.

Variable fetch : string -> response.
Variable urljoin : string -> string -> option string.

Abbreviation visit := (Dynamic.visit fetch urljoin).
Abbreviation wloop := (Dynamic.loop fetch urljoin).
Abbreviation worker := (Dynamic._dynamic_worker fetch urljoin).

(** The scenario: a root that answers with [doc_xy]. *)
Lemma worker_on_doc_xy (fuel : nat) (root u : string) (code : Z) :
  fetch root = Resp u code (Json doc_xy) ->
  200 <= code <= 299 ->
  worker (S (S fuel)) root =
  (Dynamic.mk_wstate [(JStr "x", item_x); (JStr "y", item_y)] 2 [] [root] [root],
   Returned [item_x; item_y]).
Proof.
  intros Hresp Hcode.
  unfold Dynamic._dynamic_worker.
  rewrite (wloop_goes_on fetch urljoin (S fuel) (Dynamic.initial root) root [])
    by (simpl; auto).
  unfold Dynamic.visit, Dynamic.client_get, mbind, lift. rewrite Hresp.
  unfold raise_for_status. cbn [fst snd].
  replace ((200 <=? code) && (code <=? 299)) with true
    by (symmetry; apply andb_true_intro; split; apply Z.leb_le; lia).
  reflexivity.
Qed.

(** C4, as the code has it.  Whenever the limit is still 0, and so the first
    time, a document that carries a [collections] sequence sets the limit to
    the length of the sequence; a limit that is not 0 is never changed.  Every
    item with an id is stored under it, the last one stored under equal ids
    winning, and the keys of [unique] stay pairwise different, so that its
    length is the number of distinct ids.  The worker leaves its loop without
    another request as soon as a positive limit is reached by the number of
    ids, and goes on while the limit is 0.  A root that answers with [doc_xy]
    gives the records [x] and [y], with the limit at 2. *)
Theorem soft_limit_heuristic (fuel : nat) (st : Dynamic.wstate)
  (fields : list (string * json)) (items : list json) :
  dict_get fields "collections" = Some (JArr items) ->
  ids_hashable items = true ->
  let st' := fst (Dynamic.read_collections (JObj fields) st) in
  (Dynamic.dynamic_limit st = 0 -> Dynamic.dynamic_limit st' = len items)
  /\ (Dynamic.dynamic_limit st <> 0 ->
      Dynamic.dynamic_limit st' = Dynamic.dynamic_limit st)
  /\ (forall k,
        lookup k (Dynamic.unique st') =
        match last_write k (writes items) with
        | Some v => Some v
        | None => lookup k (Dynamic.unique st)
        end)
  /\ (distinct_keys (Dynamic.unique st) -> distinct_keys (Dynamic.unique st'))
  /\ (forall limit n s,
        limit <> 0 -> Dynamic.dynamic_limit s = limit ->
        Dynamic.dynamic_limit (fst (wloop n s)) = limit)
  /\ (forall s,
        0 < Dynamic.dynamic_limit s ->
        Dynamic.dynamic_limit s <= len (Dynamic.unique s) ->
        wloop (S fuel) s = (s, Returned tt))
  /\ (forall s url rest,
        Dynamic.queue s = url :: rest -> Dynamic.dynamic_limit s = 0 ->
        wloop (S fuel) s =
        wloop fuel (fst (visit url (Dynamic.dequeue url rest s))))
  /\ (forall root u code params,
        fetch root = Resp u code (Json doc_xy) -> 200 <= code <= 299 ->
        snd (worker (S (S fuel)) root) = Returned [item_x; item_y]
        /\ Dynamic.dynamic_limit (fst (worker (S (S fuel)) root)) = 2
        /\ snd (Dynamic.harvest_dynamic_catalog fetch urljoin (S (S fuel)) root params)
           = Returned (Some ([item_x; item_y], ["Single endpoint crawl."]))).
Proof.
  intros Hget Hh st'. subst st'.
  rewrite (read_collections_list fields items Hget Hh st). cbn [fst].
  refine (conj _ (conj _ (conj _ (conj _ (conj _ (conj _ (conj _ _))))))).
  - intros ->. reflexivity.
  - intros Hset. apply Z.eqb_neq in Hset. now rewrite Hset.
  - intros k. simpl.
    rewrite lookup_apply_writes.
    now destruct (Dynamic.dynamic_limit st =? 0).
  - intros Hd. simpl. apply apply_writes_distinct.
    now destruct (Dynamic.dynamic_limit st =? 0).
  - intros limit n s Hset Hs. now apply wloop_limit_fixed.
  - intros s Hpos Hfull. now apply wloop_stops.
  - intros s url rest Hq Hzero. apply wloop_goes_on; auto.
  - intros root u code params Hresp Hcode.
    rewrite (worker_on_doc_xy fuel root u code Hresp Hcode). cbn [fst snd].
    split; [reflexivity |]. split; [reflexivity |].
    destruct (dynamic_run_well_formed fetch urljoin (S (S fuel)) root u code
                [("collections", JArr [item_x; item_y])] [] params)
      as [_ Hres]; try assumption; try reflexivity.
    + intros l [].
    + intros r [<- | []]. unfold Dynamic.halts.
      now rewrite (worker_on_doc_xy fuel root u code).
    + rewrite Hres. unfold Dynamic.sub_roots, Dynamic.branch_note. simpl.
      unfold Dynamic.worker_result.
      now rewrite (worker_on_doc_xy fuel root u code).
Qed.

End SoftLimitClaim.

Lemma soft_limit_heuristic_witness :
  Dynamic.dynamic_limit
    (fst (Dynamic.read_collections (JObj [("collections", JArr [item_x; item_y])])
            (Dynamic.initial root_xy))) = 2
  /\ snd (Dynamic.harvest_dynamic_catalog fetch_xy join_absolute 2 root_xy dynamic_entry)
     = Returned (Some ([item_x; item_y], ["Single endpoint crawl."])).
Proof.
  destruct (soft_limit_heuristic fetch_xy join_absolute 0 (Dynamic.initial root_xy)
              [("collections", JArr [item_x; item_y])] [item_x; item_y])
    as [Hlimit [_ [_ [_ [_ [_ [_ Hscenario]]]]]]].
  - reflexivity.
  - reflexivity.
  - split.
    + now apply Hlimit.
    + destruct (Hscenario root_xy root_xy 200 dynamic_entry) as [_ [_ Hres]].
      * reflexivity.
      * lia.
      * exact Hres.
Defined.

(** The claim as the specification words it fails when the first sequence is
    empty: the number of ids (none) has reached its length, yet the worker
    requests the next page, and the limit ends at the length of the second
    sequence. *)
Lemma soft_limit_counterexample :
  let first := fst (Dynamic.visit fetch_e join_absolute root_e
                      (Dynamic.dequeue root_e [] (Dynamic.initial root_e))) in
  let final := fst (Dynamic._dynamic_worker fetch_e join_absolute 5 root_e) in
  fetch_e root_e = Resp root_e 200 (Json doc_e)
  /\ py_getitem doc_e "collections" = Ok (JArr [])
  /\ Dynamic.dynamic_limit first = len (@nil json)
  /\ len (@nil json) <= len (Dynamic.unique first)
  /\ Dynamic.fetched final = [root_e; page_e]
  /\ Dynamic.dynamic_limit final = 3
  /\ Dynamic.dynamic_limit final <> len (@nil json).
Proof.
  vm_compute. repeat split; try reflexivity; discriminate.
Qed.

(** ** Failures *)

Section Failures.

Variable fetch : string -> response.
Variable urljoin : string -> string -> option string.

Abbreviation visit := (Dynamic.visit fetch urljoin).
Abbreviation wloop := (Dynamic.loop fetch urljoin).
Abbreviation load_fails := (Dynamic.load_fails fetch).
Abbreviation phase_a := (Dynamic.phase_a fetch).

Lemma phase_a_load_fails (start_url : string) :
  load_fails start_url = true -> exists e, phase_a start_url = Raise e.
Proof.
  unfold Dynamic.load_fails, Dynamic.phase_a, Dynamic.client_get.
  destruct (fetch start_url) as [name | u code b]; intros H; cbn [bind fst snd].
  - eexists. reflexivity.
  - unfold raise_for_status.
    destruct ((200 <=? code) && (code <=? 299)); cbn [bind negb orb] in *.
    + destruct b as [| | data]; cbn [bind res_json]; try (eexists; reflexivity).
      destruct data; try discriminate; eexists; reflexivity.
    + eexists. reflexivity.
Qed.

(** A request of the worker that gives no document changes nothing. *)
Lemma visit_load_fails (url : string) (st : Dynamic.wstate) :
  load_fails url = true -> exists e, visit url st = (st, Raise e).
Proof.
  unfold Dynamic.load_fails, Dynamic.visit, Dynamic.client_get, mbind, lift.
  destruct (fetch url) as [name | u code b]; intros H; cbn [fst snd].
  - eexists. reflexivity.
  - unfold raise_for_status.
    destruct ((200 <=? code) && (code <=? 299)); cbn [negb orb] in *.
    + destruct b as [| | data]; cbn [res_json]; try (eexists; reflexivity).
      unfold Dynamic.read_collections, Dynamic.read_self, mbind, lift.
      destruct data; try discriminate; cbn [py_contains py_getitem py_get];
        try (eexists; reflexivity).
      * destruct (contains "collections" s); eexists; reflexivity.
      * destruct (existsb _ items); eexists; reflexivity.
    + eexists. reflexivity.
Qed.

Lemma wloop_skips (fuel : nat) (st : Dynamic.wstate) (url : string)
  (rest : list string) :
  load_fails url = true ->
  Dynamic.queue st = url :: rest ->
  Dynamic.limit_reached st = false ->
  wloop (S fuel) st = wloop fuel (Dynamic.dequeue url rest st).
Proof.
  intros Hfail Hq Hl. simpl. rewrite Hq, Hl.
  destruct (visit_load_fails url (Dynamic.dequeue url rest st) Hfail) as [e He].
  now rewrite He.
Qed.

Lemma any_master_false_ok (links : list json) :
  Dynamic.any_master links = Ok false -> forallb link_ok links = true.
Proof.
  induction links as [| l rest IH]; simpl; [reflexivity |].
  destruct (py_get l "href" (JStr "")) as [h |] eqn:Hh; cbn [bind]; [| discriminate].
  destruct h; cbn [Dynamic.py_endswith bind]; try discriminate.
  destruct (endswith_any s _); [discriminate |].
  intros H. rewrite (IH H), andb_true_r.
  destruct l; simpl in *; try discriminate.
  destruct (dict_get fields "href") as [[] |]; try reflexivity; discriminate.
Qed.

Lemma keep_child_incl (links : list json) :
  forall acc cl,
    foreach Dynamic.keep_child links acc = Ok cl ->
    forall l, In l cl -> In l acc \/ In l links.
Proof.
  induction links as [| x rest IH]; intros acc cl H l Hin; simpl in H.
  - inversion H; subst. now left.
  - unfold Dynamic.keep_child at 1 in H.
    destruct (py_get x "rel" JNull) as [rel |]; cbn [bind] in H; [| discriminate].
    destruct (IH _ _ H l Hin) as [Hacc | Hrest]; [| right; now right].
    destruct (is_str rel "child"); [| now left].
    apply in_app_or in Hacc as [Hacc | [<- | []]]; [now left | right; now left].
Qed.

Lemma phase_a_children_ok (start_url : string) (cl : list json) :
  phase_a start_url = Ok (cl, false) -> forallb link_ok cl = true.
Proof.
  unfold Dynamic.phase_a, Dynamic.child_links, Dynamic.has_master.
  destruct (Dynamic.client_get fetch start_url) as [root |]; cbn [bind]; [| discriminate].
  destruct (raise_for_status (fst root)); cbn [bind]; [| discriminate].
  destruct (res_json (snd root)) as [data |]; cbn [bind]; [| discriminate].
  destruct (py_get data "links" (JArr [])) as [l |]; cbn [bind]; [| discriminate].
  destruct (py_iter l) as [links |]; cbn [bind]; [| discriminate].
  destruct (foreach Dynamic.keep_child links []) as [cl' |] eqn:Hcl; cbn [bind];
    [| discriminate].
  destruct (Dynamic.any_master links) as [hm |] eqn:Hm; cbn [bind]; [| discriminate].
  intros H. inversion H; subst.
  apply any_master_false_ok in Hm. rewrite forallb_forall in *.
  intros x Hx. destruct (keep_child_incl links [] cl Hcl x Hx) as [[] | Hin].
  now apply Hm.
Qed.

Lemma is_federated_no_master (cl : list json) (hm : bool) :
  Dynamic.is_federated cl hm = true -> hm = false /\ cl <> [].
Proof.
  unfold Dynamic.is_federated. intros H. apply andb_prop in H as [Hc Hn].
  split; [now destruct hm | now destruct cl].
Qed.

(** The engine fails only when Phase A raised, or when [urljoin] raised on
    the [href] of a child link of the root document. *)
Lemma dynamic_none_cause (fuel : nat) (start_url : string) (params : plan_entry) :
  snd (Dynamic.harvest_dynamic_catalog fetch urljoin fuel start_url params)
  = Returned None ->
  (exists e, phase_a start_url = Raise e)
  \/ (exists cl l,
        phase_a start_url = Ok (cl, false)
        /\ In l cl /\ urljoin start_url (href_of l) = None).
Proof.
  unfold Dynamic.harvest_dynamic_catalog.
  destruct (phase_a start_url) as [[cl hm] | e] eqn:Ha; [| intros _; left; now exists e].
  intros H. right.
  destruct (Dynamic.is_federated cl hm) eqn:Hfed.
  - apply is_federated_no_master in Hfed as [-> _].
    pose proof (phase_a_children_ok start_url cl Ha) as Hok.
    match type of H with
    | context [Dynamic.crawl_children fetch urljoin fuel start_url cl ?s] =>
        pose proof (fun e => crawl_children_raised fetch urljoin fuel
                               start_url cl e Hok s) as Hr;
        destruct (Dynamic.crawl_children fetch urljoin fuel start_url cl s)
          as [st [x | e |]]
    end; simpl in *; try discriminate.
    destruct (Hr e eq_refl) as [_ [l [Hin Hj]]]. now exists cl, l.
  - exfalso.
    match type of H with
    | context [Dynamic.extend_with_worker fetch urljoin fuel start_url ?s] =>
        pose proof (fun e => extend_never_raises fetch urljoin fuel
                               start_url s e) as Hr;
        destruct (Dynamic.extend_with_worker fetch urljoin fuel start_url s)
          as [st [x | e |]]
    end; simpl in *; try discriminate. now apply (Hr e).
Qed.

(** With such a child link the engine returns no result. *)
Lemma dynamic_unresolved_child (fuel : nat) (start_url : string)
  (params : plan_entry) (cl : list json) (l : json) :
  phase_a start_url = Ok (cl, false) ->
  In l cl -> urljoin start_url (href_of l) = None ->
  forall found,
    snd (Dynamic.harvest_dynamic_catalog fetch urljoin fuel start_url params)
    <> Returned (Some found).
Proof.
  intros Ha Hin Hj found. unfold Dynamic.harvest_dynamic_catalog. rewrite Ha.
  replace (Dynamic.is_federated cl false) with true
    by (unfold Dynamic.is_federated; destruct cl; [destruct Hin | reflexivity]).
  pose proof (phase_a_children_ok start_url cl Ha) as Hok.
  match goal with
  | |- context [Dynamic.crawl_children fetch urljoin fuel start_url cl ?s] =>
      pose proof (crawl_children_unresolved fetch urljoin fuel start_url cl Hok
                    (ex_intro _ l (conj Hin Hj)) s) as Hr;
      destruct (Dynamic.crawl_children fetch urljoin fuel start_url cl s)
        as [st [[] | e' |]]
  end; simpl in *; [now elim Hr | discriminate | discriminate].
Qed.

(** C6. A transport or shape error on the root request makes the engine
    return [None], after that one request and no worker call.  In a worker,
    a request that fails in one of these ways leaves the state as the
    dequeue left it: the URL is gone from the queue, nothing else changed,
    and the loop goes on with the rest.  A worker never raises.  The engine
    returns [None] whenever Phase A raised, and otherwise only when
    [urljoin] raised on the [href] of a child link of the root document, in
    the engine's own loop; with such a link it returns no result. *)
Theorem failure_escalation (fuel : nat) (start_url : string) (params : plan_entry) :
  (load_fails start_url = true ->
   Dynamic.harvest_dynamic_catalog fetch urljoin fuel start_url params
   = (Dynamic.mk_dstate [] [] [start_url] [], Returned None))
  /\ (forall url rest st,
        load_fails url = true ->
        Dynamic.queue st = url :: rest ->
        Dynamic.limit_reached st = false ->
        fst (visit url (Dynamic.dequeue url rest st)) = Dynamic.dequeue url rest st
        /\ Dynamic.queue (Dynamic.dequeue url rest st) = rest
        /\ wloop (S fuel) st = wloop fuel (Dynamic.dequeue url rest st))
  /\ (forall root e,
        snd (Dynamic._dynamic_worker fetch urljoin fuel root) <> Raised e)
  /\ ((exists e, phase_a start_url = Raise e) ->
      snd (Dynamic.harvest_dynamic_catalog fetch urljoin fuel start_url params)
      = Returned None)
  /\ (snd (Dynamic.harvest_dynamic_catalog fetch urljoin fuel start_url params)
      = Returned None ->
      (exists e, phase_a start_url = Raise e)
      \/ (exists cl l,
            phase_a start_url = Ok (cl, false)
            /\ In l cl /\ urljoin start_url (href_of l) = None))
  /\ (forall cl l found,
        phase_a start_url = Ok (cl, false) ->
        In l cl -> urljoin start_url (href_of l) = None ->
        snd (Dynamic.harvest_dynamic_catalog fetch urljoin fuel start_url params)
        <> Returned (Some found)).
Proof.
  refine (conj _ (conj _ (conj _ (conj _ (conj _ _))))).
  - intros Hfail. destruct (phase_a_load_fails start_url Hfail) as [e He].
    unfold Dynamic.harvest_dynamic_catalog. now rewrite He.
  - intros url rest st Hfail Hq Hl.
    destruct (visit_load_fails url (Dynamic.dequeue url rest st) Hfail) as [e He].
    rewrite He. split; [reflexivity |]. split; [reflexivity |].
    now apply wloop_skips.
  - intros root e. apply worker_never_raises.
  - intros [e He]. unfold Dynamic.harvest_dynamic_catalog. now rewrite He.
  - apply dynamic_none_cause.
  - intros cl l found Ha Hin Hj. now apply (dynamic_unresolved_child _ _ _ cl l).
Qed.

End Failures.

(** ** Runs of the Link-Graph engine on given graphs *)

Section StaticRuns.

Variable fetch : string -> response.
Variable urljoin : string -> string -> option string.
Variable set_order : list string -> list string.
Hypothesis set_order_perm : forall s, Permutation (set_order s) s.

Abbreviation level := (Static.level fetch urljoin set_order).
Abbreviation loop := (Static.loop fetch urljoin set_order).
Abbreviation process_result := (Static.process_result urljoin).

Lemma set_order_single (a : string) : set_order [a] = [a].
Proof.
  apply Permutation_length_1_inv, Permutation_sym, set_order_perm.
Qed.

Lemma set_order_pair (a b : string) :
  set_order [a; b] = [a; b] \/ set_order [a; b] = [b; a].
Proof.
  apply Permutation_length_2_inv, Permutation_sym, set_order_perm.
Qed.

Lemma level_ok (st : Static.state) (urls : list string) (cs : list json)
  (nl : list string) :
  set_order (Static.to_fetch st) = urls ->
  foreach (process_result (Static.visited st ++ Static.to_fetch st))
          (map fetch urls) (Static.collections st, []) = Ok (cs, nl) ->
  level st =
  (Static.mk_state cs nl (Static.visited st ++ Static.to_fetch st)
                   (Static.depth st + 1)
                   (Static.levels st ++ [(Static.depth st, urls)]),
   None).
Proof.
  intros Ho Hf. unfold Static.level. now rewrite Ho, Hf.
Qed.

Lemma level_raises (st : Static.state) (urls : list string) (e : exn) :
  set_order (Static.to_fetch st) = urls ->
  foreach (process_result (Static.visited st ++ Static.to_fetch st))
          (map fetch urls) (Static.collections st, []) = Raise e ->
  snd (level st) = Some e.
Proof.
  intros Ho Hf. unfold Static.level. now rewrite Ho, Hf.
Qed.

Lemma loop_step (fuel : nat) (max_depth hard_limit : Z) (st st' : Static.state) :
  Static.loop_test max_depth hard_limit st = true ->
  level st = (st', None) ->
  loop (S fuel) max_depth hard_limit st = loop fuel max_depth hard_limit st'.
Proof.
  intros Ht Hl. simpl. now rewrite Ht, Hl.
Qed.

Lemma loop_raises (fuel : nat) (max_depth hard_limit : Z) (st : Static.state)
  (e : exn) :
  Static.loop_test max_depth hard_limit st = true ->
  snd (level st) = Some e ->
  snd (loop (S fuel) max_depth hard_limit st) = Raised e.
Proof.
  intros Ht Hl. simpl. rewrite Ht.
  destruct (level st) as [st' o]. simpl in Hl. now subst o.
Qed.

Lemma loop_exit (fuel : nat) (max_depth hard_limit : Z) (st : Static.state) :
  Static.loop_test max_depth hard_limit st = false ->
  loop (S fuel) max_depth hard_limit st = (st, Returned tt).
Proof.
  intros Ht. simpl. now rewrite Ht.
Qed.

Lemma harvest_static_raises (start_url : string) (params : plan_entry) (e : exn) :
  snd (loop (S (Z.to_nat (params_get params "STATIC_HARVEST_MAX_DEPTH" 3)))
            (params_get params "STATIC_HARVEST_MAX_DEPTH" 3)
            (params_get params "COLLECTION_HARD_LIMIT" 300)
            (Static.initial start_url)) = Raised e ->
  snd (Static.harvest_static_catalog fetch urljoin set_order start_url params)
  = Raised e.
Proof.
  unfold Static.harvest_static_catalog.
  destruct (loop _ _ _ _) as [st [u | e' |]]; simpl; intros H;
    [discriminate | now inversion H | discriminate].
Qed.

(** The root of the scenario: no record, and the two child links. *)
Lemma process_doc_a (ua : string) (ca : Z) (visited : list string) :
  urljoin ua url_b = Some url_b -> urljoin ua url_c = Some url_c ->
  mem url_b visited = false -> mem url_c visited = false ->
  process_result visited (Resp ua ca (Json doc_a)) ([], [])
  = Ok ([], [url_b; url_c]).
Proof.
  intros Hb Hc Hvb Hvc.
  unfold Static.process_result, Static.process_body, doc_a, link.
  cbn [res_json bind Static.is_catalog py_get dict_get String.eqb Ascii.eqb
       Bool.eqb truthy orb fst snd py_iter foreach Static.add_link str_in
       existsb is_str py_urljoin].
  rewrite Hb. cbn [bind]. rewrite Hvb. cbn [nonempty url_b negb andb bind].
  rewrite Hc. cbn [bind]. rewrite Hvc. reflexivity.
Qed.

(** A document of the scenario that declares a version and has no links. *)
Lemma process_leaf (u : string) (code : Z) (visited : list string)
  (id : string) (cs : list json) (nl : list string) :
  let doc := JObj [("stac_version", JStr "1.0.0"); ("id", JStr id)] in
  process_result visited (Resp u code (Json doc)) (cs, nl) = Ok (cs ++ [doc], nl).
Proof.
  reflexivity.
Qed.

(** A body that is JSON but not an object: the exception is not the one the
    [try] block catches. *)
Lemma process_array (u : string) (code : Z) (visited : list string)
  (items : list json) (acc : list json * list string) :
  process_result visited (Resp u code (Json (JArr items))) acc
  = Raise AttributeError.
Proof.
  reflexivity.
Qed.

Lemma first_level (start_url : string) (ua : string) (ca : Z) (data : json)
  (cs : list json) (nl : list string) :
  fetch start_url = Resp ua ca (Json data) ->
  process_result [start_url] (Resp ua ca (Json data)) ([], []) = Ok (cs, nl) ->
  level (Static.initial start_url) =
  (Static.mk_state cs nl [start_url] 1 [(0, [start_url])], None).
Proof.
  intros Hf Hp.
  rewrite (level_ok (Static.initial start_url) [start_url] cs nl).
  - reflexivity.
  - apply set_order_single.
  - simpl. rewrite Hf, Hp. reflexivity.
Qed.

(** C2, as the code has it.  On the graph of the scenario, with depth 2
    and limit 300, the records are those of [url_b] and [url_c], in the
    order the set of the second level is iterated; and since the loop ends
    with the depth at 2, the notes hold the depth-limit note. *)
Theorem link_graph_scenario (ua ub uc : string) (ca cb cc : Z) :
  fetch root_a = Resp ua ca (Json doc_a) ->
  fetch url_b = Resp ub cb (Json doc_b) ->
  fetch url_c = Resp uc cc (Json doc_c) ->
  urljoin ua url_b = Some url_b ->
  urljoin ua url_c = Some url_c ->
  exists records,
    snd (Static.harvest_static_catalog fetch urljoin set_order root_a
           (static_entry 2 300))
    = Returned (Some (records, ["Reached depth limit of 2."]))
    /\ Permutation [doc_b; doc_c] records
    /\ List.length records = 2%nat.
Proof.
  intros HA HB HC Hb Hc.
  unfold Static.harvest_static_catalog.
  change (params_get (static_entry 2 300) "STATIC_HARVEST_MAX_DEPTH" 3) with 2.
  change (params_get (static_entry 2 300) "COLLECTION_HARD_LIMIT" 300) with 300.
  change (Z.to_nat 2) with 2%nat.
  rewrite (loop_step 2 2 300 (Static.initial root_a)
             (Static.mk_state [] [url_b; url_c] [root_a] 1 [(0, [root_a])]));
    [| reflexivity
     | apply (first_level root_a ua ca doc_a); [exact HA |];
       apply process_doc_a; auto].
  destruct (set_order_pair url_b url_c) as [Ho | Ho].
  - rewrite (loop_step 1 2 300 _
               (Static.mk_state [doc_b; doc_c] [] [root_a; url_b; url_c] 2
                  [(0, [root_a]); (1, [url_b; url_c])]));
      [| reflexivity
       | rewrite (level_ok _ [url_b; url_c] [doc_b; doc_c] []);
         [reflexivity | exact Ho | simpl; rewrite HB, HC; reflexivity]].
    rewrite loop_exit by reflexivity.
    exists [doc_b; doc_c]. repeat split. apply Permutation_refl.
  - rewrite (loop_step 1 2 300 _
               (Static.mk_state [doc_c; doc_b] [] [root_a; url_b; url_c] 2
                  [(0, [root_a]); (1, [url_c; url_b])]));
      [| reflexivity
       | rewrite (level_ok _ [url_c; url_b] [doc_c; doc_b] []);
         [reflexivity | exact Ho | simpl; rewrite HB, HC; reflexivity]].
    rewrite loop_exit by reflexivity.
    exists [doc_c; doc_b]. repeat split. apply perm_swap.
Qed.

End StaticRuns.

Lemma link_graph_scenario_witness :
  exists records,
    snd (Static.harvest_static_catalog fetch_abc join_absolute in_order root_a
           (static_entry 2 300))
    = Returned (Some (records, ["Reached depth limit of 2."]))
    /\ Permutation [doc_b; doc_c] records
    /\ List.length records = 2%nat.
Proof.
  apply (link_graph_scenario fetch_abc join_absolute in_order
           (fun s => Permutation_refl s) root_a url_b url_c 200 200 200);
    reflexivity.
Defined.

(** The scenario as the specification words it fails: the notes are not
    empty. *)
Lemma link_graph_scenario_counterexample :
  snd (Static.harvest_static_catalog fetch_abc join_absolute in_order root_a
         (static_entry 2 300))
  = Returned (Some ([doc_b; doc_c], ["Reached depth limit of 2."]))
  /\ ["Reached depth limit of 2."] <> @nil string.
Proof.
  split; [vm_compute; reflexivity | discriminate].
Qed.

(** ** Faults in the Link-Graph engine *)

Section StaticFaults.

Variable fetch : string -> response.
Variable urljoin : string -> string -> option string.
Variable set_order : list string -> list string.
Hypothesis set_order_perm : forall s, Permutation (set_order s) s.

Abbreviation harvest_static_catalog :=
  (Static.harvest_static_catalog fetch urljoin set_order).

(** An exception in place of a response, or a body of text that is not
    JSON, is passed over: the level is processed as if the response were not
    there. *)
Lemma unusable_skipped (visited : list string) (rs1 rs2 : list response)
  (r : response) :
  Static.unusable r = true ->
  forall acc,
    foreach (Static.process_result urljoin visited) (rs1 ++ r :: rs2) acc =
    foreach (Static.process_result urljoin visited) (rs1 ++ rs2) acc.
Proof.
  intros Hr. induction rs1 as [| r1 rest IH]; intros acc; simpl.
  - destruct r as [name | u code [| | data]]; try discriminate; reflexivity.
  - destruct (Static.process_result urljoin visited r1 acc); simpl;
      [apply IH | reflexivity].
Qed.

(** A start URL that answers with a JSON array ends the run with the
    exception. *)
Lemma array_root_raises (start_url u : string) (code : Z) (items : list json)
  (params : plan_entry) :
  fetch start_url = Resp u code (Json (JArr items)) ->
  0 < params_get params "STATIC_HARVEST_MAX_DEPTH" 3 ->
  0 < params_get params "COLLECTION_HARD_LIMIT" 300 ->
  snd (harvest_static_catalog start_url params) = Raised AttributeError.
Proof.
  intros Hf Hd Hl. apply harvest_static_raises.
  apply loop_raises.
  - unfold Static.loop_test. simpl.
    apply andb_true_intro; split; apply Z.ltb_lt; assumption.
  - apply (level_raises fetch urljoin set_order _ [start_url]).
    + now apply set_order_single.
    + simpl. now rewrite Hf.
Qed.

Lemma static_never_none (start_url : string) (params : plan_entry) :
  snd (harvest_static_catalog start_url params) <> Returned None.
Proof.
  destruct (harvest_static_shape fetch urljoin set_order start_url params)
    as [[notes H] | [e H]]; rewrite H; discriminate.
Qed.

(** The array answer at the second level: the run of [fetch_array]. *)
Lemma array_child_raises :
  snd (Static.harvest_static_catalog fetch_array join_absolute set_order root_a
         (static_entry 3 300)) = Raised AttributeError.
Proof.
  apply harvest_static_raises.
  change (params_get (static_entry 3 300) "STATIC_HARVEST_MAX_DEPTH" 3) with 3.
  change (params_get (static_entry 3 300) "COLLECTION_HARD_LIMIT" 300) with 300.
  change (Z.to_nat 3) with 3%nat.
  rewrite (loop_step fetch_array join_absolute set_order 3 3 300
             (Static.initial root_a)
             (Static.mk_state [] [url_b; url_c] [root_a] 1 [(0, [root_a])]));
    [| reflexivity
     | apply (first_level fetch_array join_absolute set_order set_order_perm
                root_a root_a 200 doc_a); reflexivity].
  apply loop_raises; [reflexivity |].
  destruct (set_order_pair set_order set_order_perm url_b url_c) as [Ho | Ho].
  - apply (level_raises _ _ _ _ [url_b; url_c]); [exact Ho | reflexivity].
  - apply (level_raises _ _ _ _ [url_c; url_b]); [exact Ho | reflexivity].
Qed.

(** The answer that is not UTF-8, at the second level: the run of
    [fetch_bytes]. *)
Lemma bytes_child_raises :
  snd (Static.harvest_static_catalog fetch_bytes join_absolute set_order root_a
         (static_entry 3 300)) = Raised UnicodeDecodeError.
Proof.
  apply harvest_static_raises.
  change (params_get (static_entry 3 300) "STATIC_HARVEST_MAX_DEPTH" 3) with 3.
  change (params_get (static_entry 3 300) "COLLECTION_HARD_LIMIT" 300) with 300.
  change (Z.to_nat 3) with 3%nat.
  rewrite (loop_step fetch_bytes join_absolute set_order 3 3 300
             (Static.initial root_a)
             (Static.mk_state [] [url_b; url_c] [root_a] 1 [(0, [root_a])]));
    [| reflexivity
     | apply (first_level fetch_bytes join_absolute set_order set_order_perm
                root_a root_a 200 doc_a); reflexivity].
  apply loop_raises; [reflexivity |].
  destruct (set_order_pair set_order set_order_perm url_b url_c) as [Ho | Ho].
  - apply (level_raises _ _ _ _ [url_b; url_c]); [exact Ho | reflexivity].
  - apply (level_raises _ _ _ _ [url_c; url_b]); [exact Ho | reflexivity].
Qed.

(** A link whose [href] makes [urljoin] raise: the exception is not the one
    the [try] block catches either. *)
Lemma process_unresolved (visited : list string) (u href : string) (code : Z)
  (acc : list json * list string) :
  urljoin u href = None ->
  Static.process_result urljoin visited
    (Resp u code (Json (JObj [("links", JArr [link "child" href])]))) acc
  = Raise ValueError.
Proof.
  intros Hj. unfold Static.process_result, Static.process_body, link.
  cbn [res_json bind Static.is_catalog py_get dict_get String.eqb Ascii.eqb
       Bool.eqb truthy orb fst snd py_iter foreach Static.add_link str_in
       existsb is_str py_urljoin].
  rewrite Hj. reflexivity.
Qed.

(** The 404 answer with a JSON body: the run of [fetch_404]. *)
Lemma status_ignored :
  exists records,
    snd (Static.harvest_static_catalog fetch_404 join_absolute set_order root_a
           (static_entry 3 300)) = Returned (Some (records, []))
    /\ In doc_b records.
Proof.
  unfold Static.harvest_static_catalog.
  change (params_get (static_entry 3 300) "STATIC_HARVEST_MAX_DEPTH" 3) with 3.
  change (params_get (static_entry 3 300) "COLLECTION_HARD_LIMIT" 300) with 300.
  change (Z.to_nat 3) with 3%nat.
  rewrite (loop_step fetch_404 join_absolute set_order 3 3 300
             (Static.initial root_a)
             (Static.mk_state [] [url_b; url_c] [root_a] 1 [(0, [root_a])]));
    [| reflexivity
     | apply (first_level fetch_404 join_absolute set_order set_order_perm
                root_a root_a 200 doc_a); reflexivity].
  destruct (set_order_pair set_order set_order_perm url_b url_c) as [Ho | Ho].
  - rewrite (loop_step fetch_404 join_absolute set_order 2 3 300 _
               (Static.mk_state [doc_b; doc_c] [] [root_a; url_b; url_c] 2
                  [(0, [root_a]); (1, [url_b; url_c])]));
      [| reflexivity
       | rewrite (level_ok _ _ _ _ [url_b; url_c] [doc_b; doc_c] []);
         [reflexivity | exact Ho | reflexivity]].
    rewrite loop_exit by reflexivity.
    exists [doc_b; doc_c]. split; [reflexivity | now left].
  - rewrite (loop_step fetch_404 join_absolute set_order 2 3 300 _
               (Static.mk_state [doc_c; doc_b] [] [root_a; url_b; url_c] 2
                  [(0, [root_a]); (1, [url_c; url_b])]));
      [| reflexivity
       | rewrite (level_ok _ _ _ _ [url_c; url_b] [doc_c; doc_b] []);
         [reflexivity | exact Ho | reflexivity]].
    rewrite loop_exit by reflexivity.
    exists [doc_c; doc_b]. split; [reflexivity | right; now left].
Qed.

(** C5. What the code does with the faults of a level.  An exception in
    place of a response and a body of text that is not JSON are passed over,
    and the other responses of the level are processed as if these were
    absent.  A body that is JSON but not an object is not passed over: on
    [fetch_array] the run ends with [AttributeError] and the record of
    [url_c] is lost.  Nor is a status outside 2xx: on [fetch_404] the body
    sent with the 404 becomes a record.  Nor is a body that is not UTF-8,
    which ends the run of [fetch_bytes] with [UnicodeDecodeError], nor a
    link that [urljoin] refuses. *)
Theorem per_fetch_fault_tolerance :
  (forall visited rs1 r rs2 acc,
      Static.unusable r = true ->
      foreach (Static.process_result urljoin visited) (rs1 ++ r :: rs2) acc =
      foreach (Static.process_result urljoin visited) (rs1 ++ rs2) acc)
  /\ snd (Static.harvest_static_catalog fetch_array join_absolute set_order
            root_a (static_entry 3 300)) = Raised AttributeError
  /\ (exists records,
       snd (Static.harvest_static_catalog fetch_404 join_absolute set_order
              root_a (static_entry 3 300)) = Returned (Some (records, []))
       /\ In doc_b records)
  /\ snd (Static.harvest_static_catalog fetch_bytes join_absolute set_order
            root_a (static_entry 3 300)) = Raised UnicodeDecodeError
  /\ (forall visited u code acc,
        Static.process_result urljoin visited (Resp u code NotUtf8) acc
        = Raise UnicodeDecodeError)
  /\ (forall visited u href code acc,
        urljoin u href = None ->
        Static.process_result urljoin visited
          (Resp u code (Json (JObj [("links", JArr [link "child" href])]))) acc
        = Raise ValueError).
Proof.
  refine (conj _ (conj _ (conj _ (conj _ (conj _ _))))).
  - intros visited rs1 r rs2 acc Hr. now apply unusable_skipped.
  - apply array_child_raises.
  - apply status_ignored.
  - apply bytes_child_raises.
  - reflexivity.
  - intros visited u href code acc. apply process_unresolved.
Qed.

(** C10. The engine never returns [None] and never runs out of fuel, and a
    plan entry [Static Harvest] never leads the coordinator to its
    processing-error branch.  But the engine does not return a pair on every
    input: a start URL that answers with a JSON array, with a positive depth
    and limit, ends the call with [AttributeError]. *)
Theorem static_engine_result :
  (forall start_url params,
      snd (harvest_static_catalog start_url params) <> Returned None
      /\ snd (harvest_static_catalog start_url params) <> OutOfFuel)
  /\ (forall fuel crawl_plan p e,
        dict_get crawl_plan (slug p) = Some e ->
        strategy e = "Static Harvest" ->
        process fetch urljoin set_order fuel crawl_plan p
        <> Returned ProcessingError)
  /\ (forall start_url u code items params,
        fetch start_url = Resp u code (Json (JArr items)) ->
        0 < params_get params "STATIC_HARVEST_MAX_DEPTH" 3 ->
        0 < params_get params "COLLECTION_HARD_LIMIT" 300 ->
        snd (harvest_static_catalog start_url params) = Raised AttributeError).
Proof.
  split; [| split].
  - intros start_url params. split.
    + apply static_never_none.
    + apply harvest_static_total.
  - intros fuel crawl_plan p e Hget Hs. unfold process.
    rewrite Hget. unfold strategy_is. rewrite Hs. cbn [String.eqb].
    replace ("Static Harvest" =? "Static Harvest")%string with true
      by (symmetry; apply String.eqb_refl).
    destruct (harvest_static_shape fetch urljoin set_order (url p) e)
      as [[notes H] | [x H]]; rewrite H.
    + destruct (Static.collections _); discriminate.
    + discriminate.
  - intros start_url u code items params. apply array_root_raises.
Qed.

End StaticFaults.

Lemma per_fetch_fault_tolerance_witness :
  snd (Static.harvest_static_catalog fetch_array join_absolute in_order
         root_a (static_entry 3 300)) = Raised AttributeError.
Proof.
  apply (per_fetch_fault_tolerance join_absolute in_order
           (fun s => Permutation_refl s)).
Defined.

Lemma static_engine_result_witness :
  snd (Static.harvest_static_catalog fetch_list join_absolute in_order
         root_a (static_entry 3 300)) = Raised AttributeError.
Proof.
  apply (static_engine_result fetch_list join_absolute in_order
           (fun s => Permutation_refl s))
    with (u := root_a) (code := 200) (items := @nil json);
    [reflexivity | reflexivity | reflexivity].
Defined.

(** ** Requests made more than once *)

Section VisitedOnce.

Variable fetch : string -> response.
Variable urljoin : string -> string -> option string.
Variable set_order : list string -> list string.
Hypothesis set_order_perm : forall s, Permutation (set_order s) s.

Abbreviation visit := (Dynamic.visit fetch urljoin).
Abbreviation wloop := (Dynamic.loop fetch urljoin).
Abbreviation worker_log := (Dynamic.worker_log fetch urljoin).

Lemma visit_keeps (P : Dynamic.wstate -> Prop) (url : string) :
  (forall st f, P st -> P (Dynamic.set_unique f st)) ->
  (forall st n, P st -> P (Dynamic.set_limit n st)) ->
  (forall st href, P st -> P (Dynamic.enqueue href st)) ->
  keeps P (visit url).
Proof.
  intros Hu Hl He. unfold Dynamic.visit.
  apply keeps_bind; [apply keeps_lift |]. intros res.
  apply keeps_bind; [apply keeps_lift |]. intros _.
  apply keeps_bind; [apply keeps_lift |]. intros data.
  apply keeps_bind; [| intros _; apply keeps_bind].
  - now apply read_collections_keeps.
  - now apply read_self_keeps.
  - intros _. now apply follow_links_keeps.
Qed.

(** A worker with fuel begins by requesting its own root. *)
Lemma worker_log_head (fuel : nat) (root : string) :
  exists rest, worker_log (S fuel) root = root :: rest.
Proof.
  unfold Dynamic.worker_log. rewrite worker_final.
  rewrite (wloop_goes_on fetch urljoin fuel (Dynamic.initial root) root [])
    by (simpl; auto).
  apply (wloop_rule fetch urljoin
           (fun s => exists rest, Dynamic.fetched s = root :: rest)).
  - intros url rest st [l Hl] _ _.
    apply visit_keeps; try (intros s x H; exact H).
    exists (l ++ [url]). simpl. now rewrite Hl.
  - apply visit_keeps; try (intros s x H; exact H).
    exists []. reflexivity.
Qed.

(** C1, as the code has it.  No URL is requested twice by one call of the
    Link-Graph engine, nor by one call of a worker.  The
    Paginated/Federated engine requests its root and then whatever each
    worker call requests; a worker begins with its own root and shares no
    visited set with Phase A or with another worker. *)
Theorem visited_once :
  (forall start_url params,
      NoDup (Static.requests
               (fst (Static.harvest_static_catalog fetch urljoin set_order
                       start_url params))))
  /\ (forall fuel root, NoDup (worker_log fuel root))
  /\ (forall fuel start_url params,
        let st := fst (Dynamic.harvest_dynamic_catalog fetch urljoin fuel
                         start_url params) in
        Dynamic.requests st =
        start_url :: flat_map (worker_log fuel) (Dynamic.invoked st))
  /\ (forall fuel root, exists rest, worker_log (S fuel) root = root :: rest).
Proof.
  refine (conj _ (conj _ (conj _ _))).
  - intros start_url params. now apply static_requests_nodup.
  - intros fuel root. apply worker_requests_nodup.
  - intros fuel start_url params. apply dynamic_requests.
  - apply worker_log_head.
Qed.

End VisitedOnce.

Lemma visited_once_witness :
  NoDup (Static.requests
           (fst (Static.harvest_static_catalog fetch_abc join_absolute in_order
                   root_a (static_entry 2 300)))).
Proof.
  apply (visited_once fetch_abc join_absolute in_order
           (fun s => Permutation_refl s)).
Defined.

(** The claim as the specification words it fails on the single-endpoint
    branch: the root is requested in Phase A and again by the worker. *)
Lemma visited_once_counterexample :
  Dynamic.requests
    (fst (Dynamic.harvest_dynamic_catalog fetch_xy join_absolute 2 root_xy
            dynamic_entry)) = [root_xy; root_xy]
  /\ ~ NoDup [root_xy; root_xy].
Proof.
  split; [vm_compute; reflexivity |].
  intros H. inversion H as [| x l Hnotin Hnd]; subst.
  apply Hnotin. now left.
Qed.

(** ** The theorems on concrete inputs *)

Lemma hard_limit_overshoot_witness :
  0 <= 300 /\
  len (Static.collections
         (fst (Static.harvest_static_catalog fetch_abc join_absolute in_order
                 root_a (static_entry 2 300))))
  <= 300 + Static.max_fanout
             (Static.levels
                (fst (Static.harvest_static_catalog fetch_abc join_absolute
                        in_order root_a (static_entry 2 300)))).
Proof.
  split; [lia |].
  apply (hard_limit_overshoot fetch_abc join_absolute in_order root_a
           (static_entry 2 300)).
  change (0 <= 300). lia.
Defined.

Lemma failure_escalation_witness :
  Dynamic.harvest_dynamic_catalog fetch_xy join_absolute 2
    "https://down.example/api" dynamic_entry
  = (Dynamic.mk_dstate [] [] ["https://down.example/api"] [], Returned None).
Proof.
  apply (failure_escalation fetch_xy join_absolute 2 "https://down.example/api"
           dynamic_entry).
  reflexivity.
Defined.

(** * Further properties of the code *)

(** ** The Link-Graph engine: what the result holds *)

Section StaticResult.

Variable fetch : string -> response.
Variable urljoin : string -> string -> option string.
Variable set_order : list string -> list string.

Abbreviation level := (Static.level fetch urljoin set_order).
Abbreviation loop := (Static.loop fetch urljoin set_order).
Abbreviation harvest_static_catalog :=
  (Static.harvest_static_catalog fetch urljoin set_order).

Lemma sourced_more (urls urls' : list string) (d : json) :
  incl urls urls' -> Static.sourced fetch urls d -> Static.sourced fetch urls' d.
Proof.
  intros Hincl [Hcat [u [ru [code [Hin Hf]]]]].
  split; [exact Hcat |]. exists u, ru, code. split; [now apply Hincl | exact Hf].
Qed.

(** A response adds nothing, or its own body when the test takes it. *)
Lemma process_result_record (visited : list string) (res : response)
  (acc acc' : list json * list string) :
  Static.process_result urljoin visited res acc = Ok acc' ->
  fst acc' = fst acc
  \/ exists ru code d,
       res = Resp ru code (Json d) /\ Static.is_catalog d = Ok true
       /\ fst acc' = fst acc ++ [d].
Proof.
  unfold Static.process_result, Static.process_body. intros H.
  destruct res as [name | u code b]; [inversion H; now left |].
  destruct b as [| | data]; cbn [res_json bind] in H;
    [discriminate | inversion H; now left |].
  destruct (Static.is_catalog data) as [c |] eqn:Hc; cbn [bind] in H;
    [| destruct e; inversion H; now left].
  destruct (py_get data "links" (JArr [])) as [l |]; cbn [bind] in H;
    [| destruct e; inversion H; now left].
  destruct (py_iter l) as [links |]; cbn [bind] in H;
    [| destruct e; inversion H; now left].
  destruct (foreach _ links (snd acc)) as [nl |]; cbn [bind] in H;
    [| destruct e; inversion H; now left].
  inversion H; subst. simpl. destruct c; [right | now left].
  exists u, code, data. repeat split. exact Hc.
Qed.

Lemma foreach_process_sourced (visited : list string) (seen urls : list string) :
  forall acc acc',
    foreach (Static.process_result urljoin visited) (map fetch urls) acc = Ok acc' ->
    Forall (Static.sourced fetch (seen ++ urls)) (fst acc) ->
    Forall (Static.sourced fetch (seen ++ urls)) (fst acc').
Proof.
  revert seen. induction urls as [| u rest IH]; intros seen acc acc' H Hall;
    simpl in H.
  - inversion H; subst. exact Hall.
  - destruct (Static.process_result urljoin visited (fetch u) acc) as [acc1 |] eqn:E;
      cbn [bind] in H; [| discriminate].
    replace (seen ++ u :: rest) with ((seen ++ [u]) ++ rest) in *
      by (now rewrite <- app_assoc).
    apply (IH (seen ++ [u]) acc1 acc' H).
    destruct (process_result_record visited (fetch u) acc acc1 E)
      as [Hsame | [ru [code [d [Hres [Hcat Hadd]]]]]].
    + now rewrite Hsame.
    + rewrite Hadd. apply Forall_app. split; [exact Hall |].
      constructor; [| constructor]. split; [exact Hcat |].
      exists u, ru, code. split; [| exact Hres].
      apply in_or_app. left. apply in_or_app. right. now left.
Qed.

Lemma level_sourced (st : Static.state) :
  Forall (Static.sourced fetch (Static.requests st)) (Static.collections st) ->
  Forall (Static.sourced fetch (Static.requests (fst (level st))))
         (Static.collections (fst (level st))).
Proof.
  intros Hall.
  assert (Hreq : Static.requests (fst (level st)) =
                 Static.requests st ++ set_order (Static.to_fetch st)).
  { unfold Static.requests. rewrite level_levels, map_app, concat_app.
    simpl. now rewrite app_nil_r. }
  rewrite Hreq.
  assert (Hall' : Forall (Static.sourced fetch
                            (Static.requests st ++ set_order (Static.to_fetch st)))
                         (Static.collections st)).
  { eapply Forall_impl; [| exact Hall]. intros d. apply sourced_more.
    apply incl_appl, incl_refl. }
  unfold Static.level.
  destruct (foreach _ _ _) as [[cs nl] |] eqn:E; simpl; [| exact Hall'].
  apply (foreach_process_sourced _ _ _ _ _ E Hall').
Qed.

(** X1. Every record of the result is the JSON body of the response to a
    URL the run requested, and a document the engine's test takes for a
    catalog: nothing is made up and nothing else slips in. *)
Theorem static_records_sourced (start_url : string) (params : plan_entry)
  (records : list json) (notes : list string) :
  snd (harvest_static_catalog start_url params) = Returned (Some (records, notes)) ->
  Forall (Static.sourced fetch
            (Static.requests (fst (harvest_static_catalog start_url params))))
         records.
Proof.
  intros Hret.
  assert (Hall : Forall (Static.sourced fetch
                           (Static.requests (fst (harvest_static_catalog start_url params))))
                        (Static.collections (fst (harvest_static_catalog start_url params)))).
  { rewrite harvest_static_final.
    apply (loop_rule fetch urljoin set_order
             (fun s => Forall (Static.sourced fetch (Static.requests s))
                              (Static.collections s))
             (fun s => Forall (Static.sourced fetch (Static.requests s))
                              (Static.collections s))).
    - intros st HI _. pose proof (level_sourced st HI) as H.
      destruct (level st) as [st' [e |]]; exact H.
    - tauto.
    - constructor. }
  destruct (harvest_static_shape fetch urljoin set_order start_url params)
    as [[notes' H] | [e H]]; rewrite H in Hret; [| discriminate].
  inversion Hret; subst. exact Hall.
Qed.

(** *** How the loop is left *)

Lemma loop_returned_test (max_depth hard_limit : Z) (fuel : nat) :
  forall st,
    snd (loop fuel max_depth hard_limit st) = Returned tt ->
    Static.loop_test max_depth hard_limit (fst (loop fuel max_depth hard_limit st))
    = false.
Proof.
  induction fuel as [| fuel IH]; intros st H; simpl in *; [discriminate |].
  destruct (Static.loop_test max_depth hard_limit st) eqn:Ht.
  - destruct (level st) as [st' [e |]]; simpl in *; [discriminate | now apply IH].
  - exact Ht.
Qed.

(** X2. A result without notes comes from a crawl that ran dry: the frontier
    is empty when the loop is left, so every link the run found was
    followed, and both budgets were left unspent. *)
Theorem static_no_notes_exhaustive (start_url : string) (params : plan_entry)
  (records : list json) :
  snd (harvest_static_catalog start_url params) = Returned (Some (records, [])) ->
  let st := fst (harvest_static_catalog start_url params) in
  Static.to_fetch st = []
  /\ len records < params_get params "COLLECTION_HARD_LIMIT" 300
  /\ Static.depth st < params_get params "STATIC_HARVEST_MAX_DEPTH" 3.
Proof.
  unfold Static.harvest_static_catalog.
  set (md := params_get params "STATIC_HARVEST_MAX_DEPTH" 3).
  set (hl := params_get params "COLLECTION_HARD_LIMIT" 300).
  pose proof (loop_returned_test md hl (S (Z.to_nat md)) (Static.initial start_url))
    as Htest.
  destruct (loop (S (Z.to_nat md)) md hl (Static.initial start_url))
    as [st [[] | e |]]; cbn [fst snd] in *; try discriminate.
  intros H. injection H as Hrec Hnotes.
  specialize (Htest eq_refl).
  unfold Static.notes in Hnotes. apply app_eq_nil in Hnotes as [Hn1 Hn2].
  destruct (hl <=? len (Static.collections st)) eqn:E1; [discriminate |].
  destruct (md <=? Static.depth st) eqn:E2; [discriminate |].
  apply Z.leb_gt in E1, E2.
  split; [| split; [now rewrite <- Hrec | assumption]].
  unfold Static.loop_test in Htest.
  destruct (Static.to_fetch st); [reflexivity |].
  apply Z.ltb_lt in E1, E2. rewrite E1, E2 in Htest. discriminate.
Qed.

(** X3. With a depth or a limit that is not positive the engine requests
    nothing: it returns no record, and a note for each budget that was
    already spent. *)
Theorem static_no_budget (start_url : string) (params : plan_entry) :
  let max_depth := params_get params "STATIC_HARVEST_MAX_DEPTH" 3 in
  let hard_limit := params_get params "COLLECTION_HARD_LIMIT" 300 in
  max_depth <= 0 \/ hard_limit <= 0 ->
  Static.requests (fst (harvest_static_catalog start_url params)) = []
  /\ exists notes,
       snd (harvest_static_catalog start_url params) = Returned (Some ([], notes))
       /\ notes <> []
       /\ (hard_limit <= 0 ->
           In ("Reached collection limit of " ++ str_of_int hard_limit ++ ".")%string
              notes)
       /\ (max_depth <= 0 ->
           In ("Reached depth limit of " ++ str_of_int max_depth ++ ".")%string
              notes).
Proof.
  intros md hl Hspent. unfold Static.harvest_static_catalog. fold md hl.
  assert (Htest : Static.loop_test md hl (Static.initial start_url) = false).
  { unfold Static.loop_test. simpl. unfold len. simpl.
    destruct Hspent as [H | H].
    - replace (0 <? md) with false by (symmetry; apply Z.ltb_ge; exact H).
      apply andb_false_r.
    - replace (0 <? hl) with false by (symmetry; apply Z.ltb_ge; exact H).
      reflexivity. }
  rewrite (loop_exit fetch urljoin set_order _ md hl _ Htest). cbn [fst snd].
  split; [reflexivity |].
  exists (Static.notes md hl (Static.initial start_url)).
  split; [reflexivity |].
  unfold Static.notes. simpl. unfold len. simpl.
  destruct (hl <=? 0) eqn:E1; destruct (md <=? 0) eqn:E2;
    apply Z.leb_le in E1 || apply Z.leb_gt in E1;
    apply Z.leb_le in E2 || apply Z.leb_gt in E2;
    (split; [try discriminate; lia | split; intros H; simpl; auto; lia]).
Qed.

End StaticResult.

(** ** The worker: what it requests and what it returns *)

Section KeepsMore.

Context {S : Type}.

Lemma keeps_lift_bind {A B : Type} (P : S -> Prop) (r : result A)
  (k : A -> M S B) :
  (forall a, r = Ok a -> keeps P (k a)) -> keeps P (mbind (lift r) k).
Proof.
  intros Hk s Hs. unfold mbind, lift.
  destruct r as [a | e]; [now apply Hk | exact Hs].
Qed.

Lemma keeps_foreach_in {X : Type} (P : S -> Prop) (xs : list X)
  (body : X -> M S unit) :
  (forall x, In x xs -> keeps P (body x)) -> keeps P (mforeach xs body).
Proof.
  induction xs as [| x rest IH]; intros Hb; simpl.
  - apply keeps_ret.
  - apply keeps_bind; [apply Hb; now left |].
    intros _. apply IH. intros y Hy. apply Hb. now right.
Qed.

End KeepsMore.

Section WorkerResult.

Variable fetch : string -> response.
Variable urljoin : string -> string -> option string.

Abbreviation visit := (Dynamic.visit fetch urljoin).
Abbreviation wloop := (Dynamic.loop fetch urljoin).
Abbreviation worker := (Dynamic._dynamic_worker fetch urljoin).
Abbreviation out_links := (Dynamic.out_links fetch urljoin).

Lemma link_target_crawlable (url : string) (link : json) (href : string) :
  In href (Dynamic.link_target urljoin url link) ->
  Dynamic.crawlable href = true.
Proof.
  unfold Dynamic.link_target.
  destruct (py_get link "rel" JNull) as [rel |]; cbn [bind]; [| intros []].
  destruct (str_in rel _); [| intros []].
  destruct (py_get link "href" (JStr "")) as [h |]; cbn [bind]; [| intros []].
  destruct (py_urljoin urljoin url h) as [x |]; cbn [bind]; [| intros []].
  destruct (Dynamic.crawlable x) eqn:E; [| intros []].
  intros [<- | []]. exact E.
Qed.

Lemma out_links_crawlable (url href : string) :
  In href (out_links url) -> Dynamic.crawlable href = true.
Proof.
  unfold Dynamic.out_links.
  destruct (fetch url) as [| ru code [| | data]]; try (intros []).
  destruct (l <- py_get data "links" (JArr []) ;; py_iter l) as [links |];
    [| intros []].
  intros Hin. apply in_flat_map in Hin as [link [_ Hin]].
  now apply (link_target_crawlable url link).
Qed.

(** What [visit] keeps true: anything that the writes to [unique] and to
    the limit keep, and that survives adding to the queue a URL the
    document at [url] links to and that was not seen before. *)
Lemma visit_rule (P : Dynamic.wstate -> Prop) (url : string) :
  (forall st f, P st -> P (Dynamic.set_unique f st)) ->
  (forall st n, P st -> P (Dynamic.set_limit n st)) ->
  (forall st href,
      P st -> In href (out_links url) ->
      mem href (Dynamic.visited st) = false ->
      P (Dynamic.enqueue href st)) ->
  keeps P (visit url).
Proof.
  intros Hu Hl He. unfold Dynamic.visit.
  apply keeps_lift_bind. intros res Hres.
  apply keeps_bind; [apply keeps_lift |]. intros _.
  apply keeps_lift_bind. intros data Hdata.
  apply keeps_bind; [now apply read_collections_keeps |]. intros _.
  apply keeps_bind; [now apply read_self_keeps |]. intros _.
  unfold Dynamic.follow_links.
  apply keeps_lift_bind. intros l Hlinks.
  apply keeps_lift_bind. intros links Hiter.
  assert (Hout : out_links url = flat_map (Dynamic.link_target urljoin url) links).
  { unfold Dynamic.out_links. unfold Dynamic.client_get in Hres.
    destruct (fetch url) as [| ru code b]; [discriminate |].
    inversion Hres; subst. cbn [snd] in Hdata.
    destruct b as [| | d]; try discriminate. inversion Hdata; subst.
    rewrite Hlinks. cbn [bind]. now rewrite Hiter. }
  apply keeps_foreach_in. intros link Hlink. unfold Dynamic.follow_link.
  apply keeps_lift_bind. intros rel Hrel.
  destruct (str_in rel _) eqn:Hfollow; [| apply keeps_ret].
  apply keeps_lift_bind. intros h Hh.
  apply keeps_lift_bind. intros href Hhref.
  apply keeps_gets_bind. intros s Hs.
  destruct (nonempty href && negb (mem href (Dynamic.visited s))
            && negb (endswith href ".json")) eqn:E; simpl; [| exact Hs].
  apply andb_prop in E as [E Hjson]. apply andb_prop in E as [Hne Hnew].
  apply He; [exact Hs | | now apply negb_true_iff in Hnew].
  rewrite Hout. apply in_flat_map. exists link. split; [exact Hlink |].
  unfold Dynamic.link_target. rewrite Hrel. cbn [bind]. rewrite Hfollow, Hh.
  cbn [bind]. rewrite Hhref. cbn [bind].
  unfold Dynamic.crawlable. rewrite Hne, Hjson. now left.
Qed.

(** *** The URLs a worker requests *)

Lemma worker_log_crawlable (fuel : nat) (root : string) :
  Forall (fun u => u = root \/ Dynamic.crawlable u = true)
         (Dynamic.worker_log fetch urljoin fuel root).
Proof.
  unfold Dynamic.worker_log. rewrite worker_final.
  assert (H : Forall (fun u => u = root \/ Dynamic.crawlable u = true)
                (Dynamic.fetched (fst (wloop fuel (Dynamic.initial root)))
                 ++ Dynamic.queue (fst (wloop fuel (Dynamic.initial root))))).
  { apply (wloop_rule fetch urljoin
             (fun s => Forall (fun u => u = root \/ Dynamic.crawlable u = true)
                              (Dynamic.fetched s ++ Dynamic.queue s))).
    - intros url rest st HI Hq _.
      apply visit_rule; try (intros s x H; exact H).
      + intros s href Hs Hin _. simpl. rewrite app_assoc.
        apply Forall_app. split; [exact Hs |].
        constructor; [| constructor]. right. now apply (out_links_crawlable url).
      + simpl. rewrite Hq in HI. now rewrite <- app_assoc.
    - simpl. constructor; [now left | constructor]. }
  apply Forall_app in H as [H _]. exact H.
Qed.

Lemma crawlable_spec (u : string) :
  Dynamic.crawlable u = true <-> u <> "" /\ endswith u ".json" = false.
Proof.
  unfold Dynamic.crawlable. rewrite andb_true_iff, negb_true_iff.
  destruct u; simpl; split; intros [H1 H2]; split; congruence.
Qed.

(** X4. Apart from its own root, a worker never requests an empty URL nor
    a URL that ends in [.json], whatever the documents link to. *)
Theorem worker_never_requests_json (fuel : nat) (root u : string) :
  In u (Dynamic.worker_log fetch urljoin fuel root) ->
  u = root \/ (u <> "" /\ endswith u ".json" = false).
Proof.
  intros Hin. pose proof (worker_log_crawlable fuel root) as H.
  rewrite Forall_forall in H. destruct (H u Hin) as [-> | Hc]; [now left |].
  right. now apply crawlable_spec.
Qed.

End WorkerResult.

(** *** The ids of the records a worker returns *)

Lemma key_eqb_hashable (a b : json) :
  key_eqb a b = true -> hashable a = true /\ hashable b = true.
Proof.
  destruct a, b; simpl; try discriminate; auto.
Qed.

Lemma key_eqb_refl (k : json) : hashable k = true -> key_eqb k k = true.
Proof.
  destruct k; simpl; try discriminate; intros _.
  - reflexivity.
  - now destruct b.
  - apply Z.eqb_refl.
  - apply String.eqb_refl.
Qed.

Lemma upsert_keyed (k v : json) (d : list (json * json)) :
  hashable k = true -> item_id v = Some k -> keyed d -> keyed (upsert k v d).
Proof.
  intros Hh Hid. unfold keyed.
  induction d as [| [k' v'] rest IH]; intros Hd; simpl.
  - constructor; [| constructor]. exists k. split; [exact Hid |].
    now apply key_eqb_refl.
  - inversion Hd as [| x l Hhead Hrest]; subst.
    destruct (key_eqb k' k) eqn:E.
    + constructor; [| exact Hrest]. exists k. now split.
    + constructor; [exact Hhead | now apply IH].
Qed.

Lemma values_ids_differ (d : list (json * json)) :
  keyed d -> distinct_keys d -> ForallOrdPairs ids_differ (values d).
Proof.
  unfold keyed, values.
  induction d as [| [k v] rest IH]; intros Hk Hd; simpl.
  - constructor.
  - inversion Hk as [| x l [kv [Hid Hkv]] Hrest]; subst.
    destruct Hd as [Hhead Hd]. simpl in *.
    constructor; [| now apply IH].
    apply Forall_forall. intros v' Hin.
    apply in_map_iff in Hin as [[k' v''] [Heq Hin]]. simpl in Heq. subst v''.
    rewrite Forall_forall in Hrest.
    destruct (Hrest (k', v') Hin) as [kv' [Hid' Hkv']]. simpl in *.
    exists kv, kv'. split; [exact Hid |]. split; [exact Hid' |].
    rewrite <- (key_eqb_congr k kv kv' Hkv).
    rewrite key_eqb_sym, <- (key_eqb_congr k' kv' k Hkv'), key_eqb_sym.
    now apply (Hhead k' v').
Qed.

Lemma lookup_in_values (k v : json) (d : list (json * json)) :
  lookup k d = Some v -> exists k', In (k', v) d /\ key_eqb k' k = true.
Proof.
  induction d as [| [k' v'] rest IH]; simpl; [discriminate |].
  destruct (key_eqb k' k) eqn:E.
  - intros H. inversion H; subst. exists k'. split; [now left | exact E].
  - intros H. destruct (IH H) as [k'' [Hin Hk]]. exists k''. split; [now right | exact Hk].
Qed.

Section WorkerIds.

Variable fetch : string -> response.
Variable urljoin : string -> string -> option string.

Abbreviation visit := (Dynamic.visit fetch urljoin).
Abbreviation wloop := (Dynamic.loop fetch urljoin).
Abbreviation worker := (Dynamic._dynamic_worker fetch urljoin).

Lemma store_unique_rule (P : list (json * json) -> Prop) (k v : json) :
  kept_by_writes P -> item_id v = Some k ->
  keeps (fun s => P (Dynamic.unique s)) (Dynamic.store k v).
Proof.
  intros HP Hid. unfold Dynamic.store.
  destruct (hashable k) eqn:Hh; [| apply keeps_lift].
  apply keeps_modify. intros s Hs. simpl. now apply HP.
Qed.

Lemma read_collections_unique_rule (P : list (json * json) -> Prop) (data : json) :
  kept_by_writes P ->
  keeps (fun s => P (Dynamic.unique s)) (Dynamic.read_collections data).
Proof.
  intros HP. unfold Dynamic.read_collections.
  apply keeps_bind; [apply keeps_lift |]. intros [|]; [| apply keeps_ret].
  apply keeps_bind; [apply keeps_lift |]. intros c.
  destruct c; try apply keeps_ret.
  apply keeps_bind; [apply keeps_gets |]. intros limit.
  apply keeps_bind.
  - apply keeps_when, keeps_modify. intros s Hs. exact Hs.
  - intros _. apply keeps_foreach. intros item. unfold Dynamic.store_if_id.
    destruct item; try apply keeps_ret.
    destruct (dict_get fields "id") as [k |] eqn:Hid; [| apply keeps_ret].
    now apply store_unique_rule.
Qed.

Lemma read_self_unique_rule (P : list (json * json) -> Prop) (data : json) :
  kept_by_writes P ->
  keeps (fun s => P (Dynamic.unique s)) (Dynamic.read_self data).
Proof.
  intros HP. unfold Dynamic.read_self.
  apply keeps_bind; [apply keeps_lift |]. intros t.
  destruct (is_str t "Collection"); [| apply keeps_ret].
  apply keeps_bind; [apply keeps_lift |]. intros [|]; [| apply keeps_ret].
  apply keeps_lift_bind. intros k Hk.
  apply store_unique_rule; [exact HP |].
  destruct data; simpl in Hk; try discriminate. simpl.
  destruct (dict_get fields "id"); now inversion Hk.
Qed.

Lemma visit_unique_rule (P : list (json * json) -> Prop) (url : string) :
  kept_by_writes P -> keeps (fun s => P (Dynamic.unique s)) (visit url).
Proof.
  intros HP. unfold Dynamic.visit.
  apply keeps_bind; [apply keeps_lift |]. intros res.
  apply keeps_bind; [apply keeps_lift |]. intros _.
  apply keeps_bind; [apply keeps_lift |]. intros data.
  apply keeps_bind; [now apply read_collections_unique_rule |]. intros _.
  apply keeps_bind; [now apply read_self_unique_rule |]. intros _.
  apply follow_links_keeps. intros st href H. exact H.
Qed.

Lemma wloop_unique_rule (P : list (json * json) -> Prop) (fuel : nat)
  (st : Dynamic.wstate) :
  kept_by_writes P -> P (Dynamic.unique st) ->
  P (Dynamic.unique (fst (wloop fuel st))).
Proof.
  intros HP Hst.
  apply (wloop_rule fetch urljoin (fun s => P (Dynamic.unique s))); [| exact Hst].
  intros url rest s Hs _ _. now apply visit_unique_rule.
Qed.

Lemma keyed_distinct_kept :
  kept_by_writes (fun d => keyed d /\ distinct_keys d).
Proof.
  intros k v d Hh Hid [Hk Hd]. split.
  - now apply upsert_keyed.
  - now apply upsert_distinct.
Qed.

Lemma worker_returns_unique (fuel : nat) (root : string) (records : list json) :
  snd (worker fuel root) = Returned records ->
  records = values (Dynamic.unique (fst (wloop fuel (Dynamic.initial root)))).
Proof.
  unfold Dynamic._dynamic_worker.
  destruct (wloop fuel (Dynamic.initial root)) as [st [[] | e |]]; simpl;
    intros H; now inversion H.
Qed.

(** X5. The records a worker returns are objects with an id, and no two of
    them have the same id: the worker deduplicates by id, with Python's
    equality of keys. *)
Theorem worker_ids_distinct (fuel : nat) (root : string) (records : list json) :
  snd (worker fuel root) = Returned records ->
  ForallOrdPairs ids_differ records
  /\ Forall (fun r => exists k, item_id r = Some k /\ hashable k = true) records.
Proof.
  intros Hret. rewrite (worker_returns_unique fuel root records Hret).
  destruct (wloop_unique_rule (fun d => keyed d /\ distinct_keys d) fuel
              (Dynamic.initial root) keyed_distinct_kept) as [Hk Hd].
  { split; [constructor | exact I]. }
  split; [now apply values_ids_differ |].
  unfold keyed, values in *. apply Forall_forall. intros r Hin.
  apply in_map_iff in Hin as [[k' v] [Heq Hin]]. simpl in Heq. subst v.
  rewrite Forall_forall in Hk. destruct (Hk (k', r) Hin) as [k [Hid Hkk]].
  exists k. split; [exact Hid |]. now apply (key_eqb_hashable k' k).
Qed.

(** *** Nothing stored is lost *)

Lemma lookup_kept (k : json) :
  kept_by_writes (fun d => lookup k d <> None).
Proof.
  intros k' v d _ _ H. rewrite lookup_upsert.
  destruct (key_eqb k' k); [discriminate | exact H].
Qed.

Lemma last_write_found (k : json) (item : json) (items : list json) :
  In item items -> item_id item = Some k -> hashable k = true ->
  last_write k (writes items) <> None.
Proof.
  intros Hin Hid Hh. unfold writes.
  induction items as [| x rest IH]; [contradiction |]. simpl.
  assert (Happ : forall ws1 ws2,
             last_write k ws2 <> None \/
             (last_write k ws2 = None /\ last_write k ws1 <> None) ->
             last_write k (ws1 ++ ws2) <> None).
  { induction ws1 as [| [k1 v1] ws1 IH1]; intros ws2 H; simpl.
    - destruct H as [H | [_ H]]; [exact H | now simpl in H].
    - destruct (last_write k (ws1 ++ ws2)) eqn:E; [discriminate |].
      destruct H as [H | [Hnone H]].
      + exfalso. apply (IH1 ws2); [now left | exact E].
      + simpl in H. destruct (last_write k ws1) eqn:E1.
        * exfalso. apply (IH1 ws2); [right; split; [exact Hnone | congruence] | exact E].
        * exact H. }
  apply Happ.
  destruct (last_write k (flat_map _ rest)) eqn:E; [left; discriminate |].
  right. split; [reflexivity |].
  destruct Hin as [-> | Hin].
  - rewrite Hid. simpl. now rewrite key_eqb_refl.
  - exfalso. now apply IH.
Qed.

(** X6. No id of the first page is lost: when the root answers with a
    document whose [collections] is a sequence, every item of it that has
    an id has a record with that id in what the worker returns, whatever is
    crawled afterwards. *)
Theorem worker_keeps_first_page (fuel : nat) (root ru : string) (code : Z)
  (fields : list (string * json)) (items records : list json)
  (item k : json) :
  fetch root = Resp ru code (Json (JObj fields)) ->
  200 <= code <= 299 ->
  dict_get fields "collections" = Some (JArr items) ->
  ids_hashable items = true ->
  In item items -> item_id item = Some k ->
  snd (worker (S fuel) root) = Returned records ->
  exists r k', In r records /\ item_id r = Some k' /\ key_eqb k k' = true.
Proof.
  intros Hresp Hcode Hget Hh Hin Hid Hret.
  assert (Hk : hashable k = true).
  { unfold ids_hashable in Hh. rewrite forallb_forall in Hh.
    specialize (Hh item Hin). now rewrite Hid in Hh. }
  rewrite (worker_returns_unique (S fuel) root records Hret).
  rewrite (wloop_goes_on fetch urljoin fuel (Dynamic.initial root) root [])
    by (simpl; auto).
  set (st0 := Dynamic.dequeue root [] (Dynamic.initial root)).
  assert (Hfirst : lookup k (Dynamic.unique (fst (visit root st0))) <> None).
  { unfold Dynamic.visit, Dynamic.client_get, mbind at 1 2 3, lift.
    rewrite Hresp. cbn [fst snd]. unfold raise_for_status.
    replace ((200 <=? code) && (code <=? 299)) with true
      by (symmetry; apply andb_true_intro; split; apply Z.leb_le; lia).
    cbn [res_json]. unfold mbind at 1.
    rewrite (read_collections_list fields items Hget Hh st0).
    apply (keeps_bind (fun s => lookup k (Dynamic.unique s) <> None)).
    - apply (read_self_unique_rule (fun d => lookup k d <> None)), lookup_kept.
    - intros _. apply follow_links_keeps. intros st href H. exact H.
    - simpl. rewrite lookup_apply_writes.
      pose proof (last_write_found k item items Hin Hid Hk) as Hlw.
      destruct (last_write k (writes items)); [discriminate | contradiction]. }
  pose proof (wloop_unique_rule (fun d => lookup k d <> None) fuel
                (fst (visit root st0)) (lookup_kept k) Hfirst) as Hfinal.
  destruct (wloop_unique_rule (fun d => keyed d /\ distinct_keys d) fuel
              (fst (visit root st0)) keyed_distinct_kept) as [Hkeyed _].
  { apply (visit_unique_rule (fun d => keyed d /\ distinct_keys d) root
             keyed_distinct_kept st0).
    split; [constructor | exact I]. }
  destruct (lookup k (Dynamic.unique (fst (wloop fuel (fst (visit root st0))))))
    as [v |] eqn:Hl; [| contradiction].
  apply lookup_in_values in Hl as [k' [Hinv Hkk]].
  unfold keyed in Hkeyed. rewrite Forall_forall in Hkeyed.
  destruct (Hkeyed (k', v) Hinv) as [kv [Hidv Hkv]]. simpl in *.
  exists v, kv. split; [| split; [exact Hidv |]].
  - unfold values. apply in_map_iff. exists (k', v). now split.
  - rewrite <- (key_eqb_congr k' k kv Hkk). exact Hkv.
Qed.

End WorkerIds.

(** ** Termination on a finite graph *)

Section Halting.

Variable fetch : string -> response.
Variable urljoin : string -> string -> option string.
Variable U : list string.
Hypothesis U_closed : Dynamic.closed fetch urljoin U.

Abbreviation visit := (Dynamic.visit fetch urljoin).
Abbreviation wloop := (Dynamic.loop fetch urljoin).
Abbreviation worker := (Dynamic._dynamic_worker fetch urljoin).
Abbreviation halts := (Dynamic.halts fetch urljoin).
Abbreviation crawl_children := (Dynamic.crawl_children fetch urljoin).

Lemma visit_stays_inside (url : string) :
  In url U -> keeps (fun s => incl (Dynamic.visited s) U) (visit url).
Proof.
  intros Hin. apply visit_rule; try (intros s x H; exact H).
  intros s href Hs Hout _. simpl.
  apply incl_app; [exact Hs |].
  intros x [<- | []]. now apply (U_closed url).
Qed.

Lemma wloop_halts (fuel : nat) :
  forall st,
    Dynamic.queued_once st -> incl (Dynamic.visited st) U ->
    (List.length U - List.length (Dynamic.fetched st) < fuel)%nat ->
    snd (wloop fuel st) <> OutOfFuel.
Proof.
  induction fuel as [| fuel IH]; intros st Honce Hin Hfuel; [lia |].
  simpl. destruct (Dynamic.queue st) as [| url rest] eqn:Hq; [discriminate |].
  destruct (Dynamic.limit_reached st); [discriminate |].
  assert (Hurl : In url U).
  { apply Hin. destruct Honce as [_ Hincl]. apply Hincl.
    rewrite Hq. apply in_or_app. right. now left. }
  assert (Hroom : (List.length (Dynamic.fetched st) < List.length U)%nat).
  { destruct Honce as [Hnd Hincl]. rewrite Hq in *.
    assert (Hle : (List.length (Dynamic.fetched st ++ url :: rest)
                   <= List.length U)%nat).
    { apply NoDup_incl_length; [exact Hnd |].
      intros x Hx. apply Hin, Hincl, Hx. }
    rewrite length_app in Hle. simpl in Hle. lia. }
  pose proof (dequeue_once url rest st Honce Hq) as Honce'.
  apply IH.
  - now apply visit_once.
  - apply (visit_stays_inside url Hurl). exact Hin.
  - assert (Hlen : Dynamic.fetched (fst (visit url (Dynamic.dequeue url rest st)))
                   = Dynamic.fetched st ++ [url]).
    { apply (visit_rule fetch urljoin
               (fun s => Dynamic.fetched s = Dynamic.fetched st ++ [url]) url);
        try (intros s x H; exact H).
      - intros s href H _ _. exact H.
      - reflexivity. }
    rewrite Hlen, length_app. simpl. lia.
Qed.

Lemma initial_inside (root : string) :
  In root U ->
  Dynamic.queued_once (Dynamic.initial root)
  /\ incl (Dynamic.visited (Dynamic.initial root)) U.
Proof.
  intros Hroot. split.
  - split; simpl; [repeat constructor; intros [] | apply incl_refl].
  - intros x [<- | []]. exact Hroot.
Qed.

Lemma worker_halts_inside (root : string) :
  In root U -> halts (S (List.length U)) root.
Proof.
  intros Hroot. destruct (initial_inside root Hroot) as [Honce Hin].
  unfold Dynamic.halts, Dynamic._dynamic_worker.
  assert (H : snd (wloop (S (List.length U)) (Dynamic.initial root)) <> OutOfFuel).
  { apply wloop_halts; [exact Honce | exact Hin | simpl; lia]. }
  destruct (wloop _ _) as [st [[] | e |]]; simpl in *;
    [discriminate | discriminate | contradiction].
Qed.

(** X7. On a finite set of URLs that the links of its documents do not lead
    out of, a worker started inside the set halts, after at most as many
    requests as the set has URLs. *)
Theorem worker_halts_on_closed_set (root : string) :
  In root U ->
  halts (S (List.length U)) root
  /\ (List.length (Dynamic.worker_log fetch urljoin (S (List.length U)) root)
      <= List.length U)%nat.
Proof.
  intros Hroot. split; [now apply worker_halts_inside |].
  destruct (initial_inside root Hroot) as [Honce Hin].
  unfold Dynamic.worker_log. rewrite worker_final.
  assert (H : Dynamic.queued_once (fst (wloop (S (List.length U)) (Dynamic.initial root)))
              /\ incl (Dynamic.visited
                         (fst (wloop (S (List.length U)) (Dynamic.initial root)))) U).
  { apply (wloop_rule fetch urljoin
             (fun s => Dynamic.queued_once s /\ incl (Dynamic.visited s) U));
      [| now split].
    intros url rest st [Ho Hi] Hq _.
    assert (Hurl : In url U).
    { apply Hi. destruct Ho as [_ Hincl]. apply Hincl.
      rewrite Hq. apply in_or_app. right. now left. }
    split.
    - apply visit_once. now apply dequeue_once.
    - apply (visit_stays_inside url Hurl). exact Hi. }
  destruct H as [[Hnd Hincl] Hi].
  apply NoDup_incl_length.
  - now apply NoDup_app_remove_r in Hnd.
  - intros x Hx. apply Hi, Hincl. apply in_or_app. now left.
Qed.

(** *** The engine on a finite graph *)

Lemma keep_child_rel (links : list json) :
  forall acc cl,
    foreach Dynamic.keep_child links acc = Ok cl ->
    forall l, In l cl ->
      In l acc
      \/ (In l links
          /\ exists rel, py_get l "rel" JNull = Ok rel /\ is_str rel "child" = true).
Proof.
  induction links as [| x rest IH]; intros acc cl H l Hin; simpl in H.
  - inversion H; subst. now left.
  - unfold Dynamic.keep_child at 1 in H.
    destruct (py_get x "rel" JNull) as [rel |] eqn:Hrel; cbn [bind] in H;
      [| discriminate].
    destruct (IH _ _ H l Hin) as [Hacc | [Hrest Hr]];
      [| right; split; [now right | exact Hr]].
    destruct (is_str rel "child") eqn:Hc; [| now left].
    apply in_app_or in Hacc as [Hacc | [<- | []]]; [now left |].
    right. split; [now left |]. exists rel. now split.
Qed.

Lemma child_targets_inside (start_url : string) (cl : list json) (hm : bool) :
  In start_url U ->
  Dynamic.phase_a fetch start_url = Ok (cl, hm) ->
  forall link href,
    In link cl ->
    (h <- py_get link "href" (JStr "") ;; py_urljoin urljoin start_url h) = Ok href ->
    Dynamic.crawlable href = true ->
    In href U.
Proof.
  intros Hstart Ha link href Hin Hhref Hc.
  apply (U_closed start_url Hstart).
  unfold Dynamic.phase_a, Dynamic.client_get, Dynamic.child_links in Ha.
  unfold Dynamic.out_links.
  destruct (fetch start_url) as [| ru code b]; [discriminate |].
  cbn [bind fst snd] in Ha.
  destruct (raise_for_status code); cbn [bind] in Ha; [| discriminate].
  destruct b as [| | data]; cbn [bind res_json] in Ha; try discriminate.
  destruct (py_get data "links" (JArr [])) as [l |]; cbn [bind] in *;
    [| discriminate].
  destruct (py_iter l) as [links |]; cbn [bind] in *; [| discriminate].
  destruct (foreach Dynamic.keep_child links []) as [cl' |] eqn:Hcl;
    cbn [bind] in Ha; [| discriminate].
  destruct (Dynamic.has_master _); cbn [bind] in Ha; [| discriminate].
  inversion Ha; subst.
  destruct (keep_child_rel links [] cl Hcl link Hin) as [[] | [Hl [rel [Hrel Hchild]]]].
  apply in_flat_map. exists link. split; [exact Hl |].
  unfold Dynamic.link_target. rewrite Hrel. cbn [bind].
  unfold str_in. cbn [existsb]. rewrite Hchild. cbn [orb].
  destruct (py_get link "href" (JStr "")) as [h |]; cbn [bind] in *;
    [| discriminate].
  rewrite Hhref. cbn [bind]. rewrite Hc. now left.
Qed.

Lemma extend_halts (fuel : nat) (root : string) (st : Dynamic.dstate) :
  halts fuel root ->
  snd (Dynamic.extend_with_worker fetch urljoin fuel root st) <> OutOfFuel.
Proof.
  intros Hh. rewrite (extend_halting fetch urljoin fuel root st Hh). discriminate.
Qed.

Lemma crawl_children_halts (start_url : string) (links : list json) :
  (forall link href,
      In link links ->
      (h <- py_get link "href" (JStr "") ;; py_urljoin urljoin start_url h) = Ok href ->
      Dynamic.crawlable href = true -> In href U) ->
  forall st,
    snd (crawl_children (S (List.length U)) start_url links st) <> OutOfFuel.
Proof.
  induction links as [| link rest IH]; intros Hin st; [simpl; discriminate |].
  cbn [Dynamic.crawl_children].
  destruct (h <- py_get link "href" (JStr "") ;; py_urljoin urljoin start_url h)
    as [href |] eqn:Hhref; [| discriminate].
  fold (Dynamic.crawlable href).
  destruct (Dynamic.crawlable href) eqn:Hc.
  - assert (Hh : halts (S (List.length U)) href).
    { apply worker_halts_inside. apply (Hin link href); auto. now left. }
    rewrite (extend_halting fetch urljoin _ href st Hh).
    apply IH. intros l h Hl. apply Hin. now right.
  - apply IH. intros l h Hl. apply Hin. now right.
Qed.

(** X8. On such a set the engine returns, with a result or with [None]:
    every worker it calls starts inside the set and halts. *)
Theorem dynamic_halts_on_closed_set (start_url : string) (params : plan_entry) :
  In start_url U ->
  exists result,
    snd (Dynamic.harvest_dynamic_catalog fetch urljoin (S (List.length U))
           start_url params) = Returned result.
Proof.
  intros Hstart. unfold Dynamic.harvest_dynamic_catalog.
  destruct (Dynamic.phase_a fetch start_url) as [[cl hm] |] eqn:Ha;
    [| eexists; reflexivity].
  destruct (Dynamic.is_federated cl hm).
  - match goal with
    | |- context [crawl_children ?f start_url cl ?s] =>
        pose proof (crawl_children_halts start_url cl
                      (child_targets_inside start_url cl hm Hstart Ha) s) as Hh;
        destruct (crawl_children f start_url cl s) as [st [x | e |]]
    end; simpl in *; try (eexists; reflexivity). contradiction.
  - match goal with
    | |- context [Dynamic.extend_with_worker fetch urljoin ?f start_url ?s] =>
        pose proof (extend_halts f start_url s
                      (worker_halts_inside start_url Hstart)) as Hh;
        destruct (Dynamic.extend_with_worker fetch urljoin f start_url s)
          as [st [x | e |]]
    end; simpl in *; try (eexists; reflexivity). contradiction.
Qed.

End Halting.

(** ** The Paginated/Federated engine: what the result holds *)

Section DynamicResult.

Variable fetch : string -> response.
Variable urljoin : string -> string -> option string.

Abbreviation worker_result := (Dynamic.worker_result fetch urljoin).
Abbreviation worker_log := (Dynamic.worker_log fetch urljoin).
Abbreviation crawl_children := (Dynamic.crawl_children fetch urljoin).
Abbreviation extend_with_worker := (Dynamic.extend_with_worker fetch urljoin).
Abbreviation harvest_dynamic_catalog :=
  (Dynamic.harvest_dynamic_catalog fetch urljoin).

Lemma extend_state (fuel : nat) (root : string) (st : Dynamic.dstate) :
  let st' := fst (extend_with_worker fuel root st) in
  Dynamic.invoked st' = Dynamic.invoked st ++ [root]
  /\ Dynamic.crawl_notes st' = Dynamic.crawl_notes st
  /\ (snd (extend_with_worker fuel root st) = Returned tt ->
      Dynamic.collections st' = Dynamic.collections st ++ worker_result fuel root).
Proof.
  unfold Dynamic.extend_with_worker, Dynamic.worker_result.
  destruct (Dynamic._dynamic_worker fetch urljoin fuel root) as [w [found | e |]];
    simpl; repeat split; try reflexivity; discriminate.
Qed.

(** What the federated loop has done when it is left: the roots it called
    the worker on are crawlable, at most one for each link, and the records
    are those of the calls. *)
Lemma crawl_children_state (fuel : nat) (start_url : string) (links : list json) :
  forall st,
    let st' := fst (crawl_children fuel start_url links st) in
    exists called,
      Dynamic.invoked st' = Dynamic.invoked st ++ called
      /\ Dynamic.crawl_notes st' = Dynamic.crawl_notes st
      /\ Forall (fun r => Dynamic.crawlable r = true) called
      /\ (List.length called <= List.length links)%nat
      /\ (snd (crawl_children fuel start_url links st) = Returned tt ->
          Dynamic.collections st' =
          Dynamic.collections st ++ flat_map (worker_result fuel) called).
Proof.
  induction links as [| l rest IH]; intros st; cbn [Dynamic.crawl_children].
  - exists []. simpl. rewrite !app_nil_r. repeat split; auto.
  - destruct (h <- py_get l "href" (JStr "") ;; py_urljoin urljoin start_url h)
      as [href |]; cbn [fst snd].
    + fold (Dynamic.crawlable href). destruct (Dynamic.crawlable href) eqn:Hc.
      * destruct (extend_state fuel href st) as [Hinv [Hnotes Hcs]].
        destruct (extend_with_worker fuel href st) as [st1 [[] | e |]] eqn:E;
          cbn [fst snd] in *.
        -- destruct (IH st1) as [called [Hi [Hn [Hcr [Hlen Hco]]]]].
           exists (href :: called). simpl.
           rewrite Hi, Hn, Hinv, Hnotes, <- app_assoc.
           repeat split; auto; try (simpl; lia).
           intros Hret. rewrite (Hco Hret), (Hcs eq_refl), <- app_assoc.
           reflexivity.
        -- exists [href]. simpl. repeat split; auto; try (simpl; lia); try discriminate.
        -- exists [href]. simpl. repeat split; auto; try (simpl; lia); try discriminate.
      * destruct (IH st) as [called [Hi [Hn [Hcr [Hlen Hco]]]]].
        exists called. simpl. repeat split; auto; lia.
    + exists []. simpl. rewrite !app_nil_r. repeat split; auto; try (simpl; lia); try discriminate.
Qed.

(** What Phase A read when it did not raise. *)
Lemma phase_a_inv (start_url : string) (cl : list json) (hm : bool) :
  Dynamic.phase_a fetch start_url = Ok (cl, hm) ->
  exists ru code data,
    fetch start_url = Resp ru code (Json data)
    /\ Dynamic.child_links data = Ok cl.
Proof.
  unfold Dynamic.phase_a, Dynamic.client_get.
  destruct (fetch start_url) as [| ru code b]; [discriminate |].
  cbn [bind fst snd].
  destruct (raise_for_status code); cbn [bind]; [| discriminate].
  destruct b as [| | data]; cbn [bind res_json]; try discriminate.
  destruct (Dynamic.child_links data) as [cl' |] eqn:Hcl; cbn [bind];
    [| discriminate].
  destruct (Dynamic.has_master data); cbn [bind]; [| discriminate].
  intros H. inversion H; subst. now exists ru, code, data.
Qed.

(** X9. Whenever the engine returns a result, its records are the results of
    the worker calls it made, concatenated in call order with nothing
    merged across calls, and its notes are one note: that of a single
    endpoint, with one call on the start URL, or that of a federated crawl,
    whose number is the number of links with the relation [child] in the
    document of the start URL, while the calls may be fewer. *)
Theorem dynamic_result_is_concatenation (fuel : nat) (start_url : string)
  (params : plan_entry) (records : list json) (notes : list string) :
  snd (harvest_dynamic_catalog fuel start_url params)
  = Returned (Some (records, notes)) ->
  let st := fst (harvest_dynamic_catalog fuel start_url params) in
  records = flat_map (worker_result fuel) (Dynamic.invoked st)
  /\ ((notes = ["Single endpoint crawl."] /\ Dynamic.invoked st = [start_url])
      \/ exists ru code data cl,
           fetch start_url = Resp ru code (Json data)
           /\ Dynamic.child_links data = Ok cl
           /\ notes = [("Federated crawl with " ++ str_of_int (len cl)
                        ++ " children.")%string]
           /\ 0 < len cl /\ len (Dynamic.invoked st) <= len cl).
Proof.
  unfold Dynamic.harvest_dynamic_catalog.
  destruct (Dynamic.phase_a fetch start_url) as [[cl hm] |] eqn:Ha;
    [| discriminate].
  destruct (Dynamic.is_federated cl hm) eqn:Hfed.
  - match goal with
    | |- context [crawl_children fuel start_url cl ?s] =>
        destruct (crawl_children_state fuel start_url cl s)
          as [called [Hi [Hn [_ [Hlen Hco]]]]];
        destruct (crawl_children fuel start_url cl s) as [st [[] | e |]]
    end; cbn [fst snd] in *; intros H; try discriminate.
    inversion H; subst. simpl in Hi, Hn, Hco. rewrite Hi, (Hco eq_refl), Hn.
    split; [reflexivity |]. right.
    destruct (phase_a_inv start_url cl hm Ha) as [ru [code [data [Hf Hcl]]]].
    exists ru, code, data, cl.
    split; [exact Hf |]. split; [exact Hcl |].
    split; [reflexivity |]. unfold len.
    split; [| lia].
    unfold Dynamic.is_federated in Hfed. destruct cl; [discriminate | simpl; lia].
  - match goal with
    | |- context [extend_with_worker fuel start_url ?s] =>
        destruct (extend_state fuel start_url s) as [Hi [Hn Hco]];
        destruct (extend_with_worker fuel start_url s) as [st [[] | e |]]
    end; cbn [fst snd] in *; intros H; try discriminate.
    inversion H; subst. simpl in Hi, Hn, Hco. rewrite Hi, (Hco eq_refl), Hn.
    simpl. rewrite app_nil_r. split; [reflexivity |]. left. now split.
Qed.

Lemma invoked_crawlable (fuel : nat) (start_url : string) (params : plan_entry) :
  Forall (fun r => r = start_url \/ Dynamic.crawlable r = true)
         (Dynamic.invoked (fst (harvest_dynamic_catalog fuel start_url params))).
Proof.
  unfold Dynamic.harvest_dynamic_catalog.
  destruct (Dynamic.phase_a fetch start_url) as [[cl hm] |]; [| constructor].
  destruct (Dynamic.is_federated cl hm).
  - match goal with
    | |- context [crawl_children fuel start_url cl ?s] =>
        destruct (crawl_children_state fuel start_url cl s)
          as [called [Hi [_ [Hcr _]]]];
        destruct (crawl_children fuel start_url cl s) as [st [[] | e |]]
    end; cbn [fst snd] in *; simpl in Hi; rewrite Hi;
      (eapply Forall_impl; [| exact Hcr]); intros r Hr; now right.
  - match goal with
    | |- context [extend_with_worker fuel start_url ?s] =>
        destruct (extend_state fuel start_url s) as [Hi _];
        destruct (extend_with_worker fuel start_url s) as [st [[] | e |]]
    end; cbn [fst snd] in *; simpl in Hi; rewrite Hi;
      (constructor; [now left | constructor]).
Qed.

(** X10. Apart from the start URL, the engine never requests an empty URL
    nor a URL that ends in [.json], in Phase A or in any worker. *)
Theorem dynamic_never_requests_json (fuel : nat) (start_url : string)
  (params : plan_entry) (u : string) :
  In u (Dynamic.requests (fst (harvest_dynamic_catalog fuel start_url params))) ->
  u = start_url \/ (u <> "" /\ endswith u ".json" = false).
Proof.
  rewrite (dynamic_requests fetch urljoin fuel start_url params).
  intros [<- | Hin]; [now left |].
  apply in_flat_map in Hin as [root [Hroot Hin]].
  pose proof (invoked_crawlable fuel start_url params) as Hinv.
  rewrite Forall_forall in Hinv.
  pose proof (worker_log_crawlable fetch urljoin fuel root) as Hlog.
  rewrite Forall_forall in Hlog.
  destruct (Hlog u Hin) as [-> | Hc].
  - destruct (Hinv root Hroot) as [-> | Hc]; [now left |].
    right. now apply crawlable_spec.
  - right. now apply crawlable_spec.
Qed.

End DynamicResult.

(** ** Suffixes *)

Lemma substring_whole (s : string) : substring 0 (String.length s) s = s.
Proof.
  induction s as [| c s IH]; simpl; [reflexivity | now rewrite IH].
Qed.

Lemma substring_after (p s : string) (m : nat) :
  substring (String.length p) m (p ++ s)%string = substring 0 m s.
Proof.
  induction p as [| c p IH]; simpl; [reflexivity | exact IH].
Qed.

Lemma length_append (p s : string) :
  String.length (p ++ s)%string = (String.length p + String.length s)%nat.
Proof.
  induction p as [| c p IH]; simpl; [reflexivity | now rewrite IH].
Qed.

Lemma substring_split (s : string) :
  forall k, (k <= String.length s)%nat ->
    s = (substring 0 k s ++ substring k (String.length s - k) s)%string.
Proof.
  induction s as [| c s IH]; intros k Hk; simpl in *.
  - assert (k = 0%nat) as -> by lia. reflexivity.
  - destruct k as [| k]; simpl.
    + now rewrite substring_whole.
    + rewrite <- (IH k) by lia. reflexivity.
Qed.

(** [endswith] is the test for a suffix. *)
Lemma endswith_spec (s suffix : string) :
  endswith s suffix = true <-> exists p, s = (p ++ suffix)%string.
Proof.
  unfold endswith, str_len. rewrite andb_true_iff, Nat.leb_le, String.eqb_eq.
  split.
  - intros [Hle Hsub].
    exists (substring 0 (String.length s - String.length suffix) s).
    pose proof (substring_split s (String.length s - String.length suffix)) as H.
    replace (String.length s - (String.length s - String.length suffix))%nat
      with (String.length suffix) in H by lia.
    rewrite Hsub in H. apply H. lia.
  - intros [p ->]. rewrite length_append. split; [lia |].
    replace (String.length p + String.length suffix - String.length suffix)%nat
      with (String.length p) by lia.
    rewrite substring_after. apply substring_whole.
Qed.

(** ** The branch of the Paginated/Federated engine *)

Section BranchSelection.

Variable fetch : string -> response.
Variable urljoin : string -> string -> option string.

Abbreviation worker := (Dynamic._dynamic_worker fetch urljoin).
Abbreviation harvest_dynamic_catalog :=
  (Dynamic.harvest_dynamic_catalog fetch urljoin).
Abbreviation worker_result := (Dynamic.worker_result fetch urljoin).
Abbreviation halts := (Dynamic.halts fetch urljoin).
Abbreviation qualifying := (Dynamic.qualifying urljoin).
Abbreviation sub_roots := (Dynamic.sub_roots urljoin).
Abbreviation resolves := (Dynamic.resolves urljoin).

(** On a set of URLs that is closed under the links of its documents, the
    roots of the workers are inside the set when the start URL is. *)
Lemma sub_roots_inside (U : list string) (start_url u : string) (code : Z)
  (fields : list (string * json)) (links : list json) :
  Dynamic.closed fetch urljoin U -> In start_url U ->
  fetch start_url = Resp u code (Json (JObj fields)) ->
  200 <= code <= 299 ->
  doc_links fields = Some links ->
  forallb link_ok links = true ->
  resolves start_url (filter is_child links) ->
  incl (sub_roots start_url links) U.
Proof.
  intros Hclosed Hstart Hresp Hcode Hlinks Hok Hres root Hin.
  unfold Dynamic.sub_roots in Hin.
  destruct (federated links); [| destruct Hin as [<- | []]; exact Hstart].
  unfold Dynamic.qualifying in Hin.
  apply filter_In in Hin as [Hin Hjson].
  apply in_flat_map in Hin as [l [Hl Hin]].
  pose proof Hl as Hl'. apply filter_In in Hl' as [Hl' _].
  destruct (Hres l Hl) as [href [Hj Hne]].
  unfold Dynamic.join_href in Hin. rewrite Hj in Hin. destruct Hin as [<- | []].
  apply (child_targets_inside fetch urljoin U Hclosed start_url
           (filter is_child links) (existsb is_master links) Hstart
           (phase_a_well_formed fetch start_url u code fields links
              Hresp Hcode Hlinks Hok) l href Hl).
  - rewrite (link_ok_href l); [| rewrite forallb_forall in Hok; now apply Hok].
    cbn [bind py_urljoin]. now rewrite Hj.
  - unfold Dynamic.crawlable. rewrite Hjson.
    destruct href; [contradiction | reflexivity].
Qed.

(** C3, with the conditions the code needs.  On a root document with
    well-formed links, whose child links have references that [urljoin]
    resolves to non-empty URLs:
    with a child link and no [/collections] link the roots of the workers
    are the resolved child links that do not end in [.json]; otherwise the
    root URL alone, however many child links there are.  The workers are
    called on these roots in link order, each at most once, and a root is
    reached only after the calls before it have returned: the roots called
    are always an initial part.  When every call returns, each root has been
    called once and the records are those of the workers, concatenated, with
    the note of the branch.  On a finite set of URLs closed under links
    every call does return; more fuel changes nothing for a worker that
    returned. *)
Theorem federation_branch_selection (start_url u : string)
  (code : Z) (fields : list (string * json)) (links : list json)
  (params : plan_entry) :
  fetch start_url = Resp u code (Json (JObj fields)) ->
  200 <= code <= 299 ->
  doc_links fields = Some links ->
  forallb link_ok links = true ->
  resolves start_url (filter is_child links) ->
  (existsb is_child links = true -> existsb is_master links = false ->
   sub_roots start_url links = qualifying start_url links)
  /\ (existsb is_child links = false \/ existsb is_master links = true ->
      sub_roots start_url links = [start_url])
  /\ (forall fuel, exists rest,
        sub_roots start_url links =
        Dynamic.invoked (fst (harvest_dynamic_catalog fuel start_url params))
        ++ rest)
  /\ (forall fuel,
        (forall root, In root (sub_roots start_url links) -> halts fuel root) ->
        let out := harvest_dynamic_catalog fuel start_url params in
        Dynamic.invoked (fst out) = sub_roots start_url links
        /\ snd out = Returned (Some (flat_map (worker_result fuel)
                                              (sub_roots start_url links),
                                    [Dynamic.branch_note links])))
  /\ (forall U root,
        Dynamic.closed fetch urljoin U -> In start_url U ->
        In root (sub_roots start_url links) ->
        halts (S (List.length U)) root)
  /\ (forall fuel more root,
        halts fuel root -> worker (fuel + more) root = worker fuel root).
Proof.
  intros Hresp Hcode Hlinks Hok Hres.
  destruct (sub_roots_branches urljoin start_url links) as [Hfed Hsingle].
  refine (conj Hfed (conj Hsingle (conj _ (conj _ (conj _ _))))).
  - intros fuel.
    now apply (dynamic_run_prefix fetch urljoin fuel start_url u code fields links).
  - intros fuel Hhalt.
    now apply (dynamic_run_well_formed fetch urljoin fuel start_url u code
                 fields links).
  - intros U root Hclosed Hstart Hin.
    apply (worker_halts_inside fetch urljoin U Hclosed).
    now apply (sub_roots_inside U start_url u code fields links).
  - intros fuel more root. apply worker_more_fuel.
Qed.

End BranchSelection.

(** *** A worker that never returns *)

Lemma append_last (a b : string) (c d : ascii) :
  (a ++ String c "")%string = (b ++ String d "")%string -> c = d.
Proof.
  revert b. induction a as [| x a IH]; intros b H.
  - destruct b as [| y b]; simpl in H; [now inversion H |].
    inversion H as [[Hx Hb]]. destruct b; discriminate.
  - destruct b as [| y b]; simpl in H.
    + inversion H as [[Hx Ha]]. destruct a; discriminate.
    + inversion H. now apply (IH b).
Qed.

Lemma append_assoc (a b c : string) :
  ((a ++ b) ++ c)%string = (a ++ (b ++ c))%string.
Proof.
  induction a as [| x a IH]; simpl; [reflexivity | now rewrite IH].
Qed.

Lemma slash_not_json (u : string) : endswith (u ++ "/") ".json" = false.
Proof.
  destruct (endswith (u ++ "/") ".json") eqn:E; [| reflexivity].
  apply endswith_spec in E as [p Hp].
  change ".json"%string with (".jso" ++ "n")%string in Hp.
  rewrite <- append_assoc in Hp. apply append_last in Hp. discriminate.
Qed.

Lemma longer_differs (u v : string) :
  (str_len v < str_len u)%nat -> String.eqb u v = false.
Proof.
  intros Hlt. apply String.eqb_neq. intros ->. lia.
Qed.

Lemma longer_unseen (u : string) (seen : list string) :
  Forall (fun v => (str_len v < str_len u)%nat) seen -> mem u seen = false.
Proof.
  induction 1 as [| v seen Hv _ IH]; simpl; [reflexivity |].
  now rewrite (longer_differs u v Hv).
Qed.

(** One turn on the chain: the document at [u] adds the next URL. *)
Lemma chain_visit (u : string) (st : Dynamic.wstate) :
  (str_len chain_1 <= str_len u)%nat ->
  Forall (fun v => (str_len v <= str_len u)%nat) (Dynamic.visited st) ->
  Dynamic.visit fetch_chain join_absolute u st
  = (Dynamic.enqueue (u ++ "/") st, Ok tt).
Proof.
  intros Hlen Hseen.
  assert (Hnew : mem (u ++ "/") (Dynamic.visited st) = false).
  { apply longer_unseen. eapply Forall_impl; [| exact Hseen].
    intros v Hv. unfold str_len in *. rewrite length_append. simpl. lia. }
  unfold Dynamic.visit, Dynamic.client_get, fetch_chain, mbind, lift.
  rewrite (longer_differs u root_h) by (unfold str_len in *; simpl in *; lia).
  rewrite (longer_differs u sub_2) by (unfold str_len in *; simpl in *; lia).
  cbn [fst snd raise_for_status Z.leb Z.compare Pos.compare Pos.compare_cont
       andb res_json].
  unfold Dynamic.read_collections, Dynamic.read_self, Dynamic.follow_links,
    Dynamic.follow_link, doc_chain, link, mbind, lift, gets, when, modify, mret.
  cbn [py_contains py_get py_getitem has_key dict_get String.eqb Ascii.eqb
       Bool.eqb is_str str_in existsb orb py_iter mforeach py_urljoin
       join_absolute fst snd].
  replace (nonempty (u ++ "/")) with true by (now destruct u).
  unfold mbind. cbn beta.
  replace (nonempty (u ++ "/")) with true by (now destruct u).
  rewrite Hnew, slash_not_json. reflexivity.
Qed.

Lemma chain_loop (fuel : nat) :
  forall st,
    on_chain st ->
    snd (Dynamic.loop fetch_chain join_absolute fuel st) = OutOfFuel.
Proof.
  induction fuel as [| fuel IH]; intros st [u [Hq [Hl [Hlen Hseen]]]];
    [reflexivity |].
  cbn [Dynamic.loop]. rewrite Hq. unfold Dynamic.limit_reached. rewrite Hl.
  cbn [Z.ltb Z.compare andb].
  rewrite chain_visit by assumption. cbn [fst].
  apply IH. exists (u ++ "/")%string. simpl in Hlen |- *.
  assert (Hstep : (str_len u <= str_len (u ++ "/"))%nat).
  { unfold str_len. rewrite length_append. lia. }
  repeat split; try assumption; [lia |].
  apply Forall_app. split.
  - eapply Forall_impl; [| exact Hseen]. intros v Hv. simpl in Hv. lia.
  - constructor; [lia | constructor].
Qed.

Lemma chain_worker (fuel : nat) :
  snd (Dynamic._dynamic_worker fetch_chain join_absolute fuel chain_1) = OutOfFuel.
Proof.
  unfold Dynamic._dynamic_worker.
  assert (H : snd (Dynamic.loop fetch_chain join_absolute fuel
                     (Dynamic.initial chain_1)) = OutOfFuel).
  { apply chain_loop. exists chain_1. simpl.
    repeat split; try reflexivity; try lia.
    constructor; [simpl; lia | constructor]. }
  destruct (Dynamic.loop _ _ _ _) as [st [[] | e |]]; simpl in *;
    [discriminate | discriminate | reflexivity].
Qed.

Lemma chain_engine (fuel : nat) :
  let out := Dynamic.harvest_dynamic_catalog fetch_chain join_absolute fuel
               root_h dynamic_entry in
  Dynamic.invoked (fst out) = [chain_1] /\ snd out = OutOfFuel.
Proof.
  unfold Dynamic.harvest_dynamic_catalog.
  replace (Dynamic.phase_a fetch_chain root_h) with (Ok (links_h, false))
    by (vm_compute; reflexivity).
  change (Dynamic.is_federated links_h false) with true. cbv iota.
  unfold links_h. cbn [Dynamic.crawl_children].
  change (h <- py_get (link "child" chain_1) "href" (JStr "") ;;
          py_urljoin join_absolute root_h h) with (Ok chain_1).
  change (nonempty chain_1 && negb (endswith chain_1 ".json")) with true.
  cbv iota. unfold Dynamic.extend_with_worker.
  pose proof (chain_worker fuel) as Hw.
  destruct (Dynamic._dynamic_worker fetch_chain join_absolute fuel chain_1)
    as [w r].
  simpl in Hw. subst r. simpl. split; reflexivity.
Qed.

Lemma urls_fed_closed : Dynamic.closed fetch_fed join_absolute urls_fed.
Proof.
  intros u [<- | [<- | [<- | []]]] a Ha; vm_compute in Ha |- *; tauto.
Qed.

Lemma federation_branch_selection_witness :
  Dynamic.invoked
    (fst (Dynamic.harvest_dynamic_catalog fetch_fed join_absolute 4 root_f
            dynamic_entry)) = [sub_1; sub_2]
  /\ snd (Dynamic.harvest_dynamic_catalog fetch_fed join_absolute 4 root_f
            dynamic_entry)
     = Returned (Some ([doc_z1; doc_z2], ["Federated crawl with 3 children."])).
Proof.
  destruct (federation_branch_selection fetch_fed join_absolute root_f root_f
              200
              [("links",
                JArr [link "child" sub_1; link "child" sub_2;
                      link "child" "https://s3.example/catalog.json";
                      link "self" root_f])]
              [link "child" sub_1; link "child" sub_2;
               link "child" "https://s3.example/catalog.json";
               link "self" root_f]
              dynamic_entry) as [_ [_ [_ [Hrun [Hhalt _]]]]].
  - reflexivity.
  - lia.
  - reflexivity.
  - reflexivity.
  - intros l _. unfold join_absolute. eexists. split; [reflexivity |].
    destruct (href_of l); discriminate.
  - assert (Hh : forall root,
               In root (Dynamic.sub_roots join_absolute root_f
                          [link "child" sub_1; link "child" sub_2;
                           link "child" "https://s3.example/catalog.json";
                           link "self" root_f]) ->
               Dynamic.halts fetch_fed join_absolute 4 root).
    { intros root Hin.
      apply (Hhalt urls_fed root urls_fed_closed); [now left | exact Hin]. }
    pose proof (Hrun 4%nat Hh) as H. cbv zeta in H. destruct H as [Hi Hr].
    split; [rewrite Hi | rewrite Hr]; vm_compute; reflexivity.
Defined.

(** The claim as the specification words it fails in two ways.  On
    [root_g], with child links and no [/collections] link, the second child
    link has a reference that [urljoin] refuses: the engine returns [None]
    after the call on the first child, and the third child, [sub_2], is
    never crawled.  On [root_h] the worker called on the first child never
    returns, whatever the fuel, and the second child is never crawled. *)
Lemma federation_branch_selection_counterexample :
  (federated links_g = true
   /\ In (link "child" sub_2) links_g
   /\ join_checked root_g sub_2 = Some sub_2
   /\ endswith sub_2 ".json" = false
   /\ Dynamic.harvest_dynamic_catalog fetch_g join_checked 3 root_g dynamic_entry
      = (Dynamic.mk_dstate [doc_z1] ["Federated crawl with 3 children."]
           [root_g; sub_1] [sub_1],
         Returned None))
  /\ (federated links_h = true
      /\ In (link "child" sub_2) links_h
      /\ join_absolute root_h sub_2 = Some sub_2
      /\ endswith sub_2 ".json" = false
      /\ forall fuel,
           let out := Dynamic.harvest_dynamic_catalog fetch_chain join_absolute
                        fuel root_h dynamic_entry in
           Dynamic.invoked (fst out) = [chain_1] /\ snd out = OutOfFuel).
Proof.
  split.
  - refine (conj _ (conj _ (conj _ (conj _ _)))); try reflexivity.
    right. right. now left.
  - refine (conj _ (conj _ (conj _ (conj _ _)))); try reflexivity.
    + right. now left.
    + apply chain_engine.
Qed.

(** ** The plan *)

Lemma plan_fold_last (s : string) (profiles : list profile) :
  forall plan,
    dict_get (fold_left (fun pl q => dict_set (slug q) (plan_for q) pl) profiles plan) s
    = match last_with_slug s profiles with
      | Some p => Some (plan_for p)
      | None => dict_get plan s
      end.
Proof.
  induction profiles as [| q rest IH]; intros plan; simpl; [reflexivity |].
  rewrite IH. destruct (last_with_slug s rest); [reflexivity |].
  destruct (String.eqb_spec (slug q) s) as [<- | Hne].
  - apply dict_get_set_same.
  - now apply dict_get_set_other.
Qed.

(** X11. The plan has one entry for each slug that occurs, that of the last
    profile with the slug: when two profiles share a slug the later one
    decides for both.  A slug that does not occur has no entry. *)
Theorem plan_last_profile_wins (profiles : list profile) (s : string) :
  dict_get (generate_crawl_plan profiles) s
  = option_map plan_for (last_with_slug s profiles)
  /\ (dict_get (generate_crawl_plan profiles) s = None
      <-> ~ In s (map slug profiles)).
Proof.
  assert (Hget : dict_get (generate_crawl_plan profiles) s
                 = option_map plan_for (last_with_slug s profiles)).
  { unfold generate_crawl_plan. rewrite plan_fold_last.
    now destruct (last_with_slug s profiles). }
  split; [exact Hget |]. rewrite Hget. clear Hget.
  induction profiles as [| q rest IH]; simpl.
  - split; [intros _ [] | reflexivity].
  - destruct (last_with_slug s rest) as [p |]; simpl in *.
    + split; [discriminate |]. intros Hn. exfalso. apply Hn. right.
      assert (Hin : In s (map slug rest)).
      { destruct (in_dec string_dec s (map slug rest)) as [Hi | Hi]; [exact Hi |].
        apply IH in Hi. discriminate. }
      exact Hin.
    + destruct (String.eqb_spec (slug q) s) as [Heq | Hne]; simpl.
      * split; [discriminate |]. intros Hn. exfalso. apply Hn. now left.
      * split; [| reflexivity]. intros _ [Heq | Hin]; [contradiction |].
        now apply IH in Hin.
Qed.

(** X12. The three strategies split the profiles: [Skip] exactly for a
    status other than [OK]; [Static Harvest] exactly for status [OK] and a
    URL that is some text followed by [.json] or by [f=json];
    [Dynamic Harvest] exactly for status [OK] and any other URL. *)
Theorem strategy_split (p : profile) :
  (strategy (plan_for p) = "Skip" <-> status p <> "OK")
  /\ (strategy (plan_for p) = "Static Harvest"
      <-> status p = "OK"
          /\ exists pre, url p = (pre ++ ".json")%string
                         \/ url p = (pre ++ "f=json")%string)
  /\ (strategy (plan_for p) = "Dynamic Harvest"
      <-> status p = "OK"
          /\ forall pre, url p <> (pre ++ ".json")%string
                         /\ url p <> (pre ++ "f=json")%string).
Proof.
  assert (Hends : endswith_any (url p) [".json"; "f=json"] = true
                  <-> exists pre, url p = (pre ++ ".json")%string
                                  \/ url p = (pre ++ "f=json")%string).
  { unfold endswith_any. cbn [existsb]. rewrite orb_false_r, orb_true_iff.
    rewrite !endswith_spec. split.
    - intros [[pre H] | [pre H]]; exists pre; auto.
    - intros [pre [H | H]]; [left | right]; now exists pre. }
  unfold plan_for.
  destruct (String.eqb_spec (status p) "OK") as [Hok | Hno]; cbn [negb].
  - destruct (endswith_any (url p) [".json"; "f=json"]) eqn:E; cbn [strategy].
    + assert (HB : exists pre, url p = (pre ++ ".json")%string
                               \/ url p = (pre ++ "f=json")%string)
        by now apply Hends.
      split; [| split].
      * split; [discriminate | intros H; contradiction].
      * split; [intros _; now split | reflexivity].
      * split; [discriminate |]. intros [_ Hn].
        destruct HB as [pre [H | H]]; destruct (Hn pre); contradiction.
    + assert (HnB : ~ exists pre, url p = (pre ++ ".json")%string
                                  \/ url p = (pre ++ "f=json")%string).
      { intros HB. apply Hends in HB. discriminate. }
      split; [| split].
      * split; [discriminate | intros H; contradiction].
      * split; [discriminate | intros [_ HB]; contradiction].
      * split; [| reflexivity]. intros _. split; [exact Hok |].
        intros pre. split; intros H; apply HnB; exists pre; auto.
  - cbn [strategy]. split; [| split].
    + split; [intros _; exact Hno | reflexivity].
    + split; [discriminate | intros [H _]; contradiction].
    + split; [discriminate | intros [H _]; contradiction].
Qed.

(** X13. A catalog is harvested, that is its profile gets a strategy other
    than [Skip], exactly when its slug is not in the override table and
    the probe of its URL is answered with a 2xx status. *)
Theorem harvested_iff (fetch : string -> response) (c : catalog) :
  strategy (plan_for (Recon.profile_catalog fetch c)) <> "Skip"
  <-> ~ In (cat_slug c) MANUAL_OVERRIDES
      /\ exists ru code b,
           fetch (cat_url c) = Resp ru code b /\ 200 <= code <= 299.
Proof.
  destruct (strategy_split (Recon.profile_catalog fetch c)) as [Hskip _].
  assert (Hst : status (Recon.profile_catalog fetch c) = "OK"
                <-> ~ In (cat_slug c) MANUAL_OVERRIDES
                    /\ exists ru code b,
                         fetch (cat_url c) = Resp ru code b /\ 200 <= code <= 299).
  { unfold Recon.profile_catalog. cbn [status].
    destruct (mem (cat_slug c) MANUAL_OVERRIDES) eqn:Hm.
    - apply mem_true_iff in Hm. split; [discriminate | tauto].
    - apply mem_false_iff in Hm. unfold Recon.probe, raise_for_status.
      destruct (fetch (cat_url c)) as [name | ru code b].
      + split; [discriminate |]. intros [_ [x [y [z [H _]]]]]. discriminate.
      + destruct ((200 <=? code) && (code <=? 299)) eqn:E.
        * apply andb_prop in E as [E1 E2]. apply Z.leb_le in E1, E2.
          split; [| reflexivity]. intros _. split; [exact Hm |].
          exists ru, code, b. split; [reflexivity | lia].
        * split; [discriminate |].
          intros [_ [x [y [z [H [H1 H2]]]]]]. inversion H; subst.
          apply Z.leb_le in H1, H2. rewrite H1, H2 in E. discriminate. }
  rewrite <- Hst. rewrite Hskip.
  destruct (String.eqb_spec (status (Recon.profile_catalog fetch c)) "OK"); tauto.
Qed.

(** ** The dispatch *)

Section Dispatch.

Variable fetch : string -> response.
Variable urljoin : string -> string -> option string.
Variable set_order : list string -> list string.

Lemma verdict_of_process (result : run (option (list json * list string))) :
  match result with
  | Returned None => Returned ProcessingError
  | Returned (Some (found, notes)) =>
      match found with
      | [] => Returned NoCollections
      | _ => Returned (Entry found notes)
      end
  | Raised e => Raised e
  | OutOfFuel => OutOfFuel
  end = verdict_of result.
Proof.
  destruct result as [[[[| d found] notes] |] | e |]; reflexivity.
Qed.

(** X14. With distinct slugs, the plan made from a list of profiles sends
    each of its profiles with status [OK] to an engine: to the Link-Graph
    engine with depth 3 and limit 300 when the URL ends in [.json] or
    [f=json], to the Paginated/Federated engine otherwise.  The branch of
    the coordinator in which no engine runs is not taken. *)
Theorem ok_profile_reaches_engine (fuel : nat) (profiles : list profile)
  (p : profile) :
  NoDup (map slug profiles) -> In p profiles -> status p = "OK" ->
  process fetch urljoin set_order fuel (generate_crawl_plan profiles) p
  = verdict_of
      (if endswith_any (url p) [".json"; "f=json"]
       then snd (Static.harvest_static_catalog fetch urljoin set_order (url p)
                   (mk_entry "Static Harvest" DEFAULT_STATIC_PARAMS))
       else snd (Dynamic.harvest_dynamic_catalog fetch urljoin fuel (url p)
                   (mk_entry "Dynamic Harvest" DEFAULT_DYNAMIC_PARAMS))).
Proof.
  intros Hnd Hin Hok. unfold process, generate_crawl_plan.
  rewrite (plan_lookup_aux profiles p [] Hnd Hin).
  rewrite verdict_of_process. f_equal.
  unfold plan_for. rewrite Hok. cbn [negb String.eqb Ascii.eqb Bool.eqb].
  destruct (endswith_any (url p) [".json"; "f=json"]); reflexivity.
Qed.

End Dispatch.

(** ** The catalog list *)

Section IndexFacts.

Variable fetch : string -> response.

Abbreviation public_catalogs := (Index.public_catalogs fetch).
Abbreviation profile_raw := (Index.profile_raw fetch).
Abbreviation snapshot := (Index.snapshot fetch).
Abbreviation run_reconnaissance := (Index.run_reconnaissance fetch).

Lemma is_public_object (cat : json) :
  Index.is_object cat = true -> Index.is_public cat = Ok (Index.public cat).
Proof.
  destruct cat; try discriminate. intros _.
  unfold Index.is_public, Index.public, Index.field, py_get. cbn [bind].
  destruct (truthy _); reflexivity.
Qed.

Lemma is_public_not_object (cat : json) :
  Index.is_object cat = false -> Index.is_public cat = Raise AttributeError.
Proof.
  destruct cat; try discriminate; reflexivity.
Qed.

Lemma keep_public_filter (cats : list json) :
  forallb Index.is_object cats = true ->
  forall acc,
    foreach Index.keep_public cats acc = Ok (acc ++ filter Index.public cats).
Proof.
  induction cats as [| c rest IH]; intros Hobj acc; simpl.
  - now rewrite app_nil_r.
  - simpl in Hobj. apply andb_prop in Hobj as [Hc Hrest].
    unfold Index.keep_public at 1. rewrite (is_public_object c Hc). cbn [bind].
    destruct (Index.public c); rewrite (IH Hrest); [| reflexivity].
    now rewrite <- app_assoc.
Qed.

Lemma keep_public_raises (cats : list json) :
  forallb Index.is_object cats = false ->
  forall acc, exists e, foreach Index.keep_public cats acc = Raise e.
Proof.
  induction cats as [| c rest IH]; intros Hobj acc; simpl in *; [discriminate |].
  unfold Index.keep_public at 1.
  destruct (Index.is_object c) eqn:Hc.
  - rewrite (is_public_object c Hc). cbn [bind]. apply IH. exact Hobj.
  - rewrite (is_public_not_object c Hc). cbn [bind]. now eexists.
Qed.

Lemma index_list (ru : string) (code : Z) (cats : list json) :
  fetch Index.STAC_INDEX_CATALOGS_URL = Resp ru code (Json (JArr cats)) ->
  200 <= code <= 299 ->
  public_catalogs = foreach Index.keep_public cats [].
Proof.
  intros Hresp Hcode. unfold Index.public_catalogs. rewrite Hresp.
  unfold raise_for_status.
  replace ((200 <=? code) && (code <=? 299)) with true
    by (symmetry; apply andb_true_intro; split; apply Z.leb_le; lia).
  reflexivity.
Qed.

Lemma profile_raw_snapshot (cat : json) (acc : list Index.raw_profile) :
  Index.is_object cat = true ->
  hashable (Index.field cat "slug" JNull) = true ->
  profile_raw cat acc = Ok (acc ++ [snapshot cat]).
Proof.
  destruct cat; try discriminate. intros _ Hh.
  unfold Index.profile_raw, Index.snapshot, Index.field in *.
  cbn [py_get bind].
  destruct (match dict_get fields "slug" with Some v => v | None => JNull end)
    as [| b | n | s | l | o]; try discriminate; reflexivity.
Qed.

Lemma profiles_snapshots (cats : list json) :
  forallb Index.is_object cats = true ->
  forallb (fun c => hashable (Index.field c "slug" JNull)) cats = true ->
  forall acc,
    foreach profile_raw cats acc = Ok (acc ++ map snapshot cats).
Proof.
  induction cats as [| c rest IH]; intros Hobj Hh acc; simpl.
  - now rewrite app_nil_r.
  - simpl in Hobj, Hh. apply andb_prop in Hobj as [Hc Hrest].
    apply andb_prop in Hh as [Hhc Hhrest].
    rewrite (profile_raw_snapshot c acc Hc Hhc). cbn [bind].
    rewrite (IH Hrest Hhrest). now rewrite <- app_assoc.
Qed.

Lemma forallb_filter_gen {A : Type} (f g : A -> bool) (l : list A) :
  forallb f l = true -> forallb f (filter g l) = true.
Proof.
  rewrite !forallb_forall. intros H x Hin.
  apply filter_In in Hin as [Hin _]. now apply H.
Qed.

(** X15. When the index answers with a list of objects whose slugs can be
    hashed, [run_reconnaissance] returns one profile for each catalog that
    is listed as not private and has a URL, in the order of the list; a
    catalog without [isPrivate] counts as private and gets none.  On a
    catalog whose slug, title and URL are strings the profile is the one of
    the profiling loop on strings. *)
Theorem reconnaissance_profiles (ru : string) (code : Z) (cats : list json) :
  fetch Index.STAC_INDEX_CATALOGS_URL = Resp ru code (Json (JArr cats)) ->
  200 <= code <= 299 ->
  forallb Index.is_object cats = true ->
  forallb (fun c => hashable (Index.field c "slug" JNull)) cats = true ->
  run_reconnaissance = Returned (Some (map snapshot (filter Index.public cats)))
  /\ (forall c, In c cats ->
        Index.field c "isPrivate" (JBool true) = JBool true ->
        Index.public c = false)
  /\ (forall c s t u,
        Index.field c "slug" JNull = JStr s ->
        Index.field c "title" (JStr "N/A") = JStr t ->
        Index.field c "url" JNull = JStr u ->
        snapshot c = Index.raw_of (Recon.profile_catalog fetch (mk_catalog s t u))).
Proof.
  intros Hresp Hcode Hobj Hh. split; [| split].
  - unfold Index.run_reconnaissance.
    rewrite (index_list ru code cats Hresp Hcode).
    rewrite (keep_public_filter cats Hobj []). cbn [app].
    rewrite profiles_snapshots; [reflexivity | |]; now apply forallb_filter_gen.
  - intros c _ Hpriv. unfold Index.public. now rewrite Hpriv.
  - intros c s t u Hs Ht Hu.
    unfold Index.snapshot, Index.raw_of, Recon.profile_catalog.
    rewrite Hs, Ht, Hu. cbn [cat_slug cat_title cat_url slug title url status].
    reflexivity.
Qed.

(** X16. [run_reconnaissance] returns [None], and the pipeline stops, when
    the request for the index raises, when its status is outside 2xx, when
    its body is not JSON or not UTF-8, and also when a single element of the
    list is not an object, whatever the other elements are. *)
Theorem reconnaissance_none :
  (forall name,
      fetch Index.STAC_INDEX_CATALOGS_URL = Failed name ->
      run_reconnaissance = Returned None)
  /\ (forall ru code b,
        fetch Index.STAC_INDEX_CATALOGS_URL = Resp ru code b ->
        code < 200 \/ 299 < code ->
        run_reconnaissance = Returned None)
  /\ (forall ru code b,
        fetch Index.STAC_INDEX_CATALOGS_URL = Resp ru code b ->
        b = NotJson \/ b = NotUtf8 ->
        run_reconnaissance = Returned None)
  /\ (forall ru code cats,
        fetch Index.STAC_INDEX_CATALOGS_URL = Resp ru code (Json (JArr cats)) ->
        forallb Index.is_object cats = false ->
        run_reconnaissance = Returned None).
Proof.
  unfold Index.run_reconnaissance, Index.public_catalogs.
  refine (conj _ (conj _ (conj _ _))).
  - intros name ->. reflexivity.
  - intros ru code b -> Hcode. unfold raise_for_status.
    replace ((200 <=? code) && (code <=? 299)) with false; [reflexivity |].
    symmetry. apply andb_false_iff.
    destruct Hcode; [left; apply Z.leb_gt | right; apply Z.leb_gt]; lia.
  - intros ru code b -> [-> | ->]; destruct (raise_for_status code); reflexivity.
  - intros ru code cats -> Hobj.
    destruct (raise_for_status code); cbn [bind res_json py_iter]; [| reflexivity].
    destruct (keep_public_raises cats Hobj []) as [e He]. now rewrite He.
Qed.

Lemma profiles_raise (cats : list json) :
  forallb Index.is_object cats = true ->
  existsb (fun c => negb (hashable (Index.field c "slug" JNull))) cats = true ->
  forall acc, foreach profile_raw cats acc = Raise TypeError.
Proof.
  induction cats as [| c rest IH]; intros Hobj Hbad acc; simpl in *;
    [discriminate |].
  apply andb_prop in Hobj as [Hc Hrest].
  destruct (hashable (Index.field c "slug" JNull)) eqn:Hh.
  - rewrite (profile_raw_snapshot c acc Hc Hh). cbn [bind].
    apply IH; assumption.
  - destruct c; try discriminate.
    unfold Index.profile_raw, Index.field in *. cbn [py_get bind].
    destruct (match dict_get fields "slug" with Some v => v | None => JNull end)
      as [| b | n | s | l | o]; try discriminate; reflexivity.
Qed.

(** X17. A public catalog whose slug is a list or an object ends
    [run_reconnaissance] with [TypeError]: the slug is hashed by the test
    against the override table, outside every [try], so the exception is
    not turned into [None] nor into a failed profile. *)
Theorem reconnaissance_unhashable_slug (ru : string) (code : Z)
  (cats : list json) :
  fetch Index.STAC_INDEX_CATALOGS_URL = Resp ru code (Json (JArr cats)) ->
  200 <= code <= 299 ->
  forallb Index.is_object cats = true ->
  existsb (fun c => Index.public c
                    && negb (hashable (Index.field c "slug" JNull))) cats = true ->
  run_reconnaissance = Raised TypeError.
Proof.
  intros Hresp Hcode Hobj Hbad. unfold Index.run_reconnaissance.
  rewrite (index_list ru code cats Hresp Hcode).
  rewrite (keep_public_filter cats Hobj []). cbn [app].
  rewrite profiles_raise; [reflexivity | now apply forallb_filter_gen |].
  apply existsb_exists in Hbad as [c [Hin Hc]].
  apply andb_prop in Hc as [Hpub Hun].
  apply existsb_exists. exists c. split; [| exact Hun].
  apply filter_In. now split.
Qed.

End IndexFacts.

(** ** Larger budgets *)

Section StaticBudgets.

Variable fetch : string -> response.
Variable urljoin : string -> string -> option string.
Variable set_order : list string -> list string.

Abbreviation level := (Static.level fetch urljoin set_order).
Abbreviation loop := (Static.loop fetch urljoin set_order).
Abbreviation harvest_static_catalog :=
  (Static.harvest_static_catalog fetch urljoin set_order).

Lemma foreach_process_appends (visited : list string) (results : list response) :
  forall acc acc',
    foreach (Static.process_result urljoin visited) results acc = Ok acc' ->
    exists extra, fst acc' = fst acc ++ extra.
Proof.
  induction results as [| res rest IH]; intros acc acc' H; simpl in H.
  - inversion H; subst. exists []. now rewrite app_nil_r.
  - destruct (Static.process_result urljoin visited res acc) as [acc1 |] eqn:E;
      cbn [bind] in H; [| discriminate].
    destruct (IH acc1 acc' H) as [extra Hextra].
    destruct (process_result_record urljoin visited res acc acc1 E)
      as [Hsame | [ru [code [d [_ [_ Hadd]]]]]].
    + exists extra. now rewrite Hextra, Hsame.
    + exists (d :: extra). rewrite Hextra, Hadd, <- app_assoc. reflexivity.
Qed.

Lemma level_appends (st : Static.state) :
  exists extra,
    Static.collections (fst (level st)) = Static.collections st ++ extra.
Proof.
  unfold Static.level.
  destruct (foreach _ _ _) as [[cs nl] |] eqn:E; simpl.
  - apply foreach_process_appends in E. exact E.
  - exists []. now rewrite app_nil_r.
Qed.

(** The records only grow, at the end. *)
Lemma loop_appends (max_depth hard_limit : Z) (fuel : nat) (st : Static.state) :
  exists extra,
    Static.collections (fst (loop fuel max_depth hard_limit st))
    = Static.collections st ++ extra.
Proof.
  apply (loop_rule fetch urljoin set_order
           (fun s => exists extra,
                       Static.collections s = Static.collections st ++ extra)
           (fun s => exists extra,
                       Static.collections s = Static.collections st ++ extra)).
  - intros s [extra Hs] _. destruct (level_appends s) as [more Hmore].
    assert (H : exists x, Static.collections (fst (level s))
                          = Static.collections st ++ x).
    { exists (extra ++ more). now rewrite Hmore, Hs, app_assoc. }
    destruct (level s) as [s' [e |]]; exact H.
  - tauto.
  - exists []. now rewrite app_nil_r.
Qed.

Lemma loop_test_larger (d1 l1 d2 l2 : Z) (st : Static.state) :
  d1 <= d2 -> l1 <= l2 ->
  Static.loop_test d1 l1 st = true -> Static.loop_test d2 l2 st = true.
Proof.
  unfold Static.loop_test. intros Hd Hl H.
  apply andb_prop in H as [H Hdepth]. apply andb_prop in H as [Hfront Hlen].
  apply Z.ltb_lt in Hdepth, Hlen.
  rewrite Hfront. cbn [andb].
  apply andb_true_intro. split; apply Z.ltb_lt; lia.
Qed.

Lemma loop_prefix (d1 l1 d2 l2 : Z) :
  d1 <= d2 -> l1 <= l2 ->
  forall f1 f2 st,
    snd (loop f1 d1 l1 st) = Returned tt ->
    snd (loop f2 d2 l2 st) = Returned tt ->
    exists extra,
      Static.collections (fst (loop f2 d2 l2 st))
      = Static.collections (fst (loop f1 d1 l1 st)) ++ extra.
Proof.
  intros Hd Hl f1. induction f1 as [| f1 IH]; intros f2 st H1 H2;
    [simpl in H1; discriminate |].
  cbn [Static.loop] in H1 |- *.
  destruct (Static.loop_test d1 l1 st) eqn:Ht.
  - destruct f2 as [| f2]; [simpl in H2; discriminate |].
    cbn [Static.loop] in H2 |- *.
    rewrite (loop_test_larger d1 l1 d2 l2 st Hd Hl Ht) in *.
    destruct (level st) as [st' [e |]]; cbn [fst snd] in *; [discriminate |].
    now apply IH.
  - cbn [fst]. apply loop_appends.
Qed.

(** X18. With the responses and the iteration order of sets the same in
    both calls, a larger depth or a larger limit only adds records at the
    end: what the engine returns with the smaller budgets is the beginning
    of what it returns with the larger ones. *)
Theorem static_budget_monotone (start_url : string) (p1 p2 : plan_entry)
  (r1 r2 : list json) (n1 n2 : list string) :
  params_get p1 "STATIC_HARVEST_MAX_DEPTH" 3 <= params_get p2 "STATIC_HARVEST_MAX_DEPTH" 3 ->
  params_get p1 "COLLECTION_HARD_LIMIT" 300 <= params_get p2 "COLLECTION_HARD_LIMIT" 300 ->
  snd (harvest_static_catalog start_url p1) = Returned (Some (r1, n1)) ->
  snd (harvest_static_catalog start_url p2) = Returned (Some (r2, n2)) ->
  exists extra, r2 = r1 ++ extra.
Proof.
  intros Hd Hl. unfold Static.harvest_static_catalog.
  set (d1 := params_get p1 "STATIC_HARVEST_MAX_DEPTH" 3) in *.
  set (d2 := params_get p2 "STATIC_HARVEST_MAX_DEPTH" 3) in *.
  set (l1 := params_get p1 "COLLECTION_HARD_LIMIT" 300) in *.
  set (l2 := params_get p2 "COLLECTION_HARD_LIMIT" 300) in *.
  pose proof (loop_prefix d1 l1 d2 l2 Hd Hl (S (Z.to_nat d1)) (S (Z.to_nat d2))
                (Static.initial start_url)) as Hpre.
  destruct (loop (S (Z.to_nat d1)) d1 l1 (Static.initial start_url))
    as [st1 [[] | e1 |]]; cbn [fst snd] in *; try discriminate.
  destruct (loop (S (Z.to_nat d2)) d2 l2 (Static.initial start_url))
    as [st2 [[] | e2 |]]; cbn [fst snd] in *; try discriminate.
  intros H1 H2. injection H1 as <- _. injection H2 as <- _.
  now apply Hpre.
Qed.

End StaticBudgets.

(** ** The further properties on concrete inputs *)

Lemma static_records_sourced_witness :
  Forall (Static.sourced fetch_abc
            (Static.requests
               (fst (Static.harvest_static_catalog fetch_abc join_absolute in_order
                       root_a (static_entry 2 300)))))
         [doc_b; doc_c].
Proof.
  apply (static_records_sourced fetch_abc join_absolute in_order root_a
           (static_entry 2 300) [doc_b; doc_c] ["Reached depth limit of 2."]).
  vm_compute. reflexivity.
Defined.

Lemma static_no_notes_exhaustive_witness :
  Static.to_fetch
    (fst (Static.harvest_static_catalog fetch_abc join_absolute in_order root_a
            (static_entry 3 300))) = [].
Proof.
  apply (static_no_notes_exhaustive fetch_abc join_absolute in_order root_a
           (static_entry 3 300) [doc_b; doc_c]).
  vm_compute. reflexivity.
Defined.

Lemma static_no_budget_witness :
  Static.requests
    (fst (Static.harvest_static_catalog fetch_abc join_absolute in_order root_a
            (static_entry 0 300))) = [].
Proof.
  apply (static_no_budget fetch_abc join_absolute in_order root_a
           (static_entry 0 300)).
  left. change (0 <= 0). lia.
Defined.

Lemma worker_never_requests_json_witness :
  page_e = root_e \/ (page_e <> "" /\ endswith page_e ".json" = false).
Proof.
  apply (worker_never_requests_json fetch_e join_absolute 5 root_e page_e).
  vm_compute. right. left. reflexivity.
Defined.

Lemma worker_ids_distinct_witness :
  ForallOrdPairs ids_differ [item_x; item_y].
Proof.
  apply (worker_ids_distinct fetch_xy join_absolute 2 root_xy [item_x; item_y]).
  vm_compute. reflexivity.
Defined.

Lemma worker_keeps_first_page_witness :
  exists r k', In r [item_x; item_y] /\ item_id r = Some k'
               /\ key_eqb (JStr "x") k' = true.
Proof.
  apply (worker_keeps_first_page fetch_xy join_absolute 1 root_xy root_xy 200
           [("collections", JArr [item_x; item_y])] [item_x; item_y]
           [item_x; item_y] item_x (JStr "x")).
  - reflexivity.
  - lia.
  - reflexivity.
  - reflexivity.
  - now left.
  - reflexivity.
  - vm_compute. reflexivity.
Defined.

Lemma worker_halts_on_closed_set_witness :
  Dynamic.halts fetch_fed join_absolute 4 sub_1.
Proof.
  apply (worker_halts_on_closed_set fetch_fed join_absolute urls_fed
           urls_fed_closed sub_1).
  right. now left.
Defined.

Lemma dynamic_halts_on_closed_set_witness :
  exists result,
    snd (Dynamic.harvest_dynamic_catalog fetch_fed join_absolute 4 root_f
           dynamic_entry) = Returned result.
Proof.
  apply (dynamic_halts_on_closed_set fetch_fed join_absolute urls_fed
           urls_fed_closed root_f dynamic_entry).
  now left.
Defined.

Lemma dynamic_result_is_concatenation_witness :
  [doc_z1; doc_z2]
  = flat_map (Dynamic.worker_result fetch_fed join_absolute 3)
      (Dynamic.invoked
         (fst (Dynamic.harvest_dynamic_catalog fetch_fed join_absolute 3 root_f
                 dynamic_entry))).
Proof.
  apply (dynamic_result_is_concatenation fetch_fed join_absolute 3 root_f
           dynamic_entry [doc_z1; doc_z2] ["Federated crawl with 3 children."]).
  vm_compute. reflexivity.
Defined.

Lemma dynamic_never_requests_json_witness :
  sub_1 = root_f \/ (sub_1 <> "" /\ endswith sub_1 ".json" = false).
Proof.
  apply (dynamic_never_requests_json fetch_fed join_absolute 3 root_f
           dynamic_entry sub_1).
  vm_compute. right. left. reflexivity.
Defined.

Lemma ok_profile_reaches_engine_witness :
  process fetch_abc join_absolute in_order 1 (generate_crawl_plan sample_profiles)
    (mk_profile "alpha" "Alpha" "https://alpha.example/catalog.json" "OK")
  = verdict_of
      (snd (Static.harvest_static_catalog fetch_abc join_absolute in_order
              "https://alpha.example/catalog.json"
              (mk_entry "Static Harvest" DEFAULT_STATIC_PARAMS))).
Proof.
  apply (ok_profile_reaches_engine fetch_abc join_absolute in_order 1
           sample_profiles
           (mk_profile "alpha" "Alpha" "https://alpha.example/catalog.json" "OK")).
  - repeat constructor; simpl; intuition discriminate.
  - simpl. now left.
  - reflexivity.
Defined.

Lemma reconnaissance_profiles_witness :
  Index.run_reconnaissance fetch_index
  = Returned (Some [Index.mk_raw (JStr "open") (JStr "Open") (JStr root_xy) "OK"]).
Proof.
  apply (reconnaissance_profiles fetch_index Index.STAC_INDEX_CATALOGS_URL 200
           [cat_open; cat_private; cat_silent]).
  - reflexivity.
  - lia.
  - reflexivity.
  - reflexivity.
Defined.

Lemma reconnaissance_unhashable_slug_witness :
  Index.run_reconnaissance fetch_index_odd = Raised TypeError.
Proof.
  apply (reconnaissance_unhashable_slug fetch_index_odd
           Index.STAC_INDEX_CATALOGS_URL 200 [cat_open; cat_odd]).
  - reflexivity.
  - lia.
  - reflexivity.
  - reflexivity.
Defined.

Lemma static_budget_monotone_witness :
  exists extra, [doc_b_deep; doc_c; doc_d] = [doc_b_deep; doc_c] ++ extra.
Proof.
  apply (static_budget_monotone fetch_deep join_absolute in_order root_a
           (static_entry 2 300) (static_entry 3 400)
           [doc_b_deep; doc_c] [doc_b_deep; doc_c; doc_d]
           ["Reached depth limit of 2."] ["Reached depth limit of 3."]).
  - change (2 <= 3). lia.
  - change (300 <= 400). lia.
  - vm_compute. reflexivity.
  - vm_compute. reflexivity.
Defined.
